(** * Geocoding client of mapas-interfaz

    A shallow embedding of the geocoding module that the components
    import as [../lib/geocode] ([searchAddress], [reverseGeocode], the
    provider resolver and the two provider adapters) and of the fragment
    of the JavaScript run time its code relies on:
    UTF-16 strings, IEEE-754 binary64 numbers, parsed JSON values with
    property access, [ToString], [ToNumber], [ToBoolean],
    [Number.prototype.toFixed], [Array.prototype.slice] and [Promise.all]. *)

From Stdlib Require Import ZArith NArith List Bool Ascii String Lia.
From Stdlib Require Import SpecFloat.
Import ListNotations.

Local Open Scope Z_scope.

(* ===================================================================== *)
(** ** JavaScript strings: sequences of UTF-16 code units *)
(* ===================================================================== *)

Module JSString.

(** A JavaScript string is a finite sequence of 16-bit code units. *)
Definition jsstring := list N.

Definition jsstring_eq_dec (a b : jsstring) : {a = b} + {a <> b} :=
  list_eq_dec N.eq_dec a b.

Definition str_eqb (a b : jsstring) : bool :=
  if jsstring_eq_dec a b then true else false.

(** Source literals are written as Rocq strings holding UTF-8 text and
    are decoded to code units, so that ["Bogotá"] has six code units. *)
Definition cont (a : ascii) : N := N.land (N_of_ascii a) 63.

Definition utf16_of_code_point (cp : N) : jsstring :=
  if (cp <? 65536)%N then [cp]
  else let c := (cp - 65536)%N in
       [(55296 + N.shiftr c 10)%N; (56320 + N.land c 1023)%N].

Fixpoint decode_utf8 (s : string) : jsstring :=
  match s with
  | EmptyString => []
  | String a rest =>
    let n := N_of_ascii a in
    if (n <? 128)%N then n :: decode_utf8 rest
    else if (n <? 224)%N then
      match rest with
      | String b rest' =>
        (N.shiftl (N.land n 31) 6 + cont b)%N :: decode_utf8 rest'
      | EmptyString => [65533%N]
      end
    else if (n <? 240)%N then
      match rest with
      | String b (String c rest') =>
        (N.shiftl (N.land n 15) 12 + N.shiftl (cont b) 6 + cont c)%N
          :: decode_utf8 rest'
      | _ => [65533%N]
      end
    else
      match rest with
      | String b (String c (String d rest')) =>
        utf16_of_code_point
          (N.shiftl (N.land n 7) 18 + N.shiftl (cont b) 12
           + N.shiftl (cont c) 6 + cont d)%N ++ decode_utf8 rest'
      | _ => [65533%N]
      end
  end.

Notation "'u' s" := (decode_utf8 s%string) (at level 1, s at level 0, only parsing).

(** ECMAScript WhiteSpace and LineTerminator code points, the set
    [String.prototype.trim] strips and [StringToNumber] skips. *)
Definition is_white_space (c : N) : bool :=
  ((9 <=? c) && (c <=? 13) || (c =? 32) || (c =? 160) || (c =? 5760)
   || (8192 <=? c) && (c <=? 8202) || (c =? 8232) || (c =? 8233)
   || (c =? 8239) || (c =? 8287) || (c =? 12288) || (c =? 65279))%N.

Fixpoint trim_start (s : jsstring) : jsstring :=
  match s with
  | c :: rest => if is_white_space c then trim_start rest else s
  | [] => []
  end.

Definition trim_end (s : jsstring) : jsstring := rev (trim_start (rev s)).

(** [String.prototype.trim] *)
Definition trim (s : jsstring) : jsstring := trim_end (trim_start s).

(** Decimal digits of a natural number, most significant first. *)
Fixpoint digits_fuel (fuel : nat) (n : N) (acc : jsstring) : jsstring :=
  match fuel with
  | O => acc
  | S f =>
    let acc' := (48 + n mod 10)%N :: acc in
    if (n <? 10)%N then acc' else digits_fuel f (n / 10)%N acc'
  end.

Definition decimal (n : N) : jsstring := digits_fuel (S (N.to_nat (N.log2 n))) n [].

Definition zeros (n : nat) : jsstring := repeat 48%N n.

Definition is_ascii (c : N) : bool := (c <? 128)%N.

(** Surrogate code units: a lead one opens a pair, a trail one closes
    it. *)
Definition is_lead (c : N) : bool := ((55296 <=? c) && (c <=? 56319))%N.
Definition is_trail (c : N) : bool := ((56320 <=? c) && (c <=? 57343))%N.

(** The conversion of a string to a [USVString], as the Web interfaces
    that take one apply it to their arguments: a lead surrogate followed
    by a trail surrogate is kept, every other surrogate becomes
    U+FFFD. *)
Fixpoint usv (s : jsstring) : jsstring :=
  match s with
  | [] => []
  | c :: rest =>
    if is_lead c then
      match rest with
      | d :: rest' =>
        if is_trail d then c :: d :: usv rest' else 65533%N :: usv rest
      | [] => [65533%N]
      end
    else if is_trail c then 65533%N :: usv rest
    else c :: usv rest
  end.

(** [String.prototype.isWellFormed]: no surrogate outside a pair. *)
Fixpoint isWellFormed (s : jsstring) : bool :=
  match s with
  | [] => true
  | c :: rest =>
    if is_lead c then
      match rest with
      | d :: rest' => is_trail d && isWellFormed rest'
      | [] => false
      end
    else negb (is_trail c) && isWellFormed rest
  end.

End JSString.
Export JSString.

(* ===================================================================== *)
(** ** JavaScript numbers: IEEE-754 binary64 *)
(* ===================================================================== *)

Module JSNumber.

(** A Number is a binary64 float, held as the standard library's
    [spec_float]: a finite nonzero value is [(-1)^s * m * 2^e]. *)
Definition number := spec_float.

Definition prec : Z := 53.
Definition emax : Z := 1024.

Definition NaN : number := S754_nan.
Definition pos_zero : number := S754_zero false.

(** Identity of floats (SameValue): constructor, sign, mantissa and
    exponent agree. *)
Definition same_value (x y : number) : bool :=
  match x, y with
  | S754_zero a, S754_zero b => Bool.eqb a b
  | S754_infinity a, S754_infinity b => Bool.eqb a b
  | S754_nan, S754_nan => true
  | S754_finite a m e, S754_finite b m' e' =>
    Bool.eqb a b && Pos.eqb m m' && Z.eqb e e'
  | _, _ => false
  end.

(** The binary64 nearest to the rational [(-1)^neg * p / q], ties to
    even, overflowing to an infinity. *)
Definition round_rational (neg : bool) (p q : positive) : number :=
  let '(m, e, l) := SFdiv_core_binary prec emax (Zpos p) 0 (Zpos q) 0 in
  binary_round_aux prec emax neg m e l.

(** The binary64 nearest to [(-1)^neg * m * 10^e10]. *)
Definition round_decimal (neg : bool) (m : Z) (e10 : Z) : number :=
  match m with
  | Zpos p =>
    let nd := Z.of_nat (List.length (decimal (Npos p))) in
    if 400 <? e10 then S754_infinity neg
    else if e10 + nd <? -400 then S754_zero neg
    else match e10 with
         | Zneg _ => match 10 ^ (- e10) with
                     | Zpos q => round_rational neg p q
                     | _ => NaN
                     end
         | _ => match Zpos p * 10 ^ e10 with
                | Zpos p' => round_rational neg p' 1
                | _ => NaN
                end
         end
  | _ => S754_zero neg
  end.

(** Numerator and denominator of the exact value of a finite float's
    magnitude. *)
Definition magnitude (m : positive) (e : Z) : Z * Z :=
  match e with
  | Zneg k => (Zpos m, 2 ^ Zpos k)
  | _ => (Zpos m * 2 ^ e, 1)
  end.

(** *** Number::toString (radix 10) *)

(** The decimal exponent [n] with [10^(n-1) <= P/Q < 10^n]. *)
Fixpoint small_exponent (fuel : nat) (P Q j : Z) : Z :=
  match fuel with
  | O => 1 - j
  | S f => if Q <=? P * 10 ^ j then 1 - j else small_exponent f P Q (j + 1)
  end.

Definition decimal_exponent (P Q : Z) : Z :=
  if Q <=? P then Z.of_nat (List.length (decimal (Z.to_N (P / Q))))
  else small_exponent 400 P Q 1.

(** The rational [s * 10^d] as numerator and denominator. *)
Definition scaled (s d : Z) : Z * Z :=
  match d with
  | Zneg k => (s, 10 ^ Zpos k)
  | _ => (s * 10 ^ d, 1)
  end.

Definition round_trips (x : number) (s d : Z) : bool :=
  let '(a, b) := scaled s d in
  match a, b with
  | Zpos p, Zpos q => same_value (round_rational false p q) x
  | _, _ => false
  end.

(** The [k]-digit candidate for the digits of [P/Q], if one reads back
    as [x]: the closer of the two neighbours, the even one on a tie. *)
Definition candidate (x : number) (P Q n k : Z) : option (Z * Z) :=
  let '(a, b) := scaled P (k - n) in
  let num := a in
  let den := Q * b in
  let lo := num / den in
  let hi := lo + 1 in
  let ok_lo := round_trips x lo (n - k) in
  let ok_hi := round_trips x hi (n - k) in
  let norm s := if s =? 10 ^ k then (s / 10, n + 1) else (s, n) in
  match ok_lo, ok_hi with
  | true, true =>
    match Z.compare (2 * (num - lo * den)) den with
    | Lt => Some (norm lo)
    | Gt => Some (norm hi)
    | Eq => Some (norm (if Z.even lo then lo else hi))
    end
  | true, false => Some (norm lo)
  | false, true => Some (norm hi)
  | false, false => None
  end.

Fixpoint shortest (fuel : nat) (x : number) (P Q n k : Z) : Z * Z :=
  match fuel with
  | O => (P * 10 ^ (17 - n) / Q, n)
  | S f =>
    match candidate x P Q n k with
    | Some r => r
    | None => shortest f x P Q n (k + 1)
    end
  end.

(** Steps 6 to 10 of Number::toString: lay out the digit string [s] of
    length [k] with decimal exponent [n]. *)
Definition layout (digits : jsstring) (n : Z) : jsstring :=
  let k := Z.of_nat (List.length digits) in
  if (-5 <=? n) && (n <=? 21) then
    if k <=? n then digits ++ zeros (Z.to_nat (n - k))
    else if 0 <? n then
      firstn (Z.to_nat n) digits ++ u"." ++ skipn (Z.to_nat n) digits
    else u"0." ++ zeros (Z.to_nat (- n)) ++ digits
  else
    let c := if 0 <? n - 1 then u"+" else u"-" in
    let e := decimal (Z.to_N (Z.abs (n - 1))) in
    match digits with
    | [d] => [d] ++ u"e" ++ c ++ e
    | d :: rest => [d] ++ u"." ++ rest ++ u"e" ++ c ++ e
    | [] => []
    end.

Definition positive_to_string (m : positive) (e : Z) : jsstring :=
  let '(P, Q) := magnitude m e in
  let n := decimal_exponent P Q in
  let '(s, n') := shortest 17 (S754_finite false m e) P Q n 1 in
  layout (decimal (Z.to_N s)) n'.

Definition NumberToString (x : number) : jsstring :=
  match x with
  | S754_nan => u"NaN"
  | S754_zero _ => u"0"
  | S754_infinity false => u"Infinity"
  | S754_infinity true => u"-Infinity"
  | S754_finite false m e => positive_to_string m e
  | S754_finite true m e => u"-" ++ positive_to_string m e
  end.

(** *** Number.prototype.toFixed *)

(** The integer nearest to [m * 2^e * 10^f], the larger one on a tie. *)
Definition fixed_integer (m : positive) (e : Z) (f : Z) : Z :=
  let '(P, Q) := magnitude m e in
  (2 * P * 10 ^ f + Q) / (2 * Q).

Definition fixed_layout (n : Z) (f : nat) : jsstring :=
  let m := decimal (Z.to_N n) in
  let m := zeros (S f - List.length m) ++ m in
  match f with
  | O => m
  | _ => let k := List.length m in
         firstn (k - f) m ++ u"." ++ skipn (k - f) m
  end.

(** [x.toFixed(f)] for [0 <= f <= 100]. *)
Definition toFixed (x : number) (f : nat) : jsstring :=
  match x with
  | S754_finite s m e =>
    let '(P, Q) := magnitude m e in
    if 10 ^ 21 * Q <=? P then NumberToString x
    else (if s then u"-" else []) ++ fixed_layout (fixed_integer m e (Z.of_nat f)) f
  | S754_zero _ => fixed_layout 0 f
  | _ => NumberToString x
  end.

(** *** StringToNumber *)

Definition is_digit (c : N) : bool := ((48 <=? c) && (c <=? 57))%N.

Fixpoint span_digits (s : jsstring) : jsstring * jsstring :=
  match s with
  | c :: rest =>
    if is_digit c then let '(d, r) := span_digits rest in (c :: d, r)
    else ([], s)
  | [] => ([], [])
  end.

Definition digits_value (base : Z) (ds : list Z) : Z :=
  fold_left (fun acc d => acc * base + d) ds 0.

Definition decimal_value (ds : jsstring) : Z :=
  digits_value 10 (map (fun c => Z.of_N c - 48) ds).

(** Value of a digit of a radix-[base] literal. *)
Definition radix_digit (base : Z) (c : N) : option Z :=
  let v := if is_digit c then Z.of_N c - 48
           else if ((97 <=? c) && (c <=? 102))%N then Z.of_N c - 87
           else if ((65 <=? c) && (c <=? 70))%N then Z.of_N c - 55
           else 99 in
  if v <? base then Some v else None.

Fixpoint radix_digits (base : Z) (s : jsstring) : option (list Z) :=
  match s with
  | [] => Some []
  | c :: rest =>
    match radix_digit base c, radix_digits base rest with
    | Some v, Some vs => Some (v :: vs)
    | _, _ => None
    end
  end.

Definition radix_literal (base : Z) (s : jsstring) : number :=
  match s, radix_digits base s with
  | _ :: _, Some ds => round_decimal false (digits_value base ds) 0
  | _, _ => NaN
  end.

(** ExponentPart_opt followed by the end of the string: the exponent. *)
Definition exponent_part (s : jsstring) : option Z :=
  match s with
  | [] => Some 0
  | c :: rest =>
    if ((c =? 101) || (c =? 69))%N then
      let '(neg, rest') :=
        match rest with
        | 43%N :: r => (false, r)
        | 45%N :: r => (true, r)
        | _ => (false, rest)
        end in
      match span_digits rest' with
      | ((_ :: _) as ds, []) =>
        Some (if neg then - decimal_value ds else decimal_value ds)
      | _ => None
      end
    else None
  end.

(** StrUnsignedDecimalLiteral, with the sign already read. *)
Definition unsigned_decimal (neg : bool) (s : jsstring) : number :=
  if jsstring_eq_dec s (u"Infinity") then S754_infinity neg
  else
    let '(int, rest) := span_digits s in
    let '(frac, rest') :=
      match rest with
      | 46%N :: r => span_digits r
      | _ => ([], rest)
      end in
    match int ++ frac with
    | [] => NaN
    | ds =>
      match exponent_part rest' with
      | Some e => round_decimal neg (decimal_value ds)
                                (e - Z.of_nat (List.length frac))
      | None => NaN
      end
    end.

Definition StringToNumber (s : jsstring) : number :=
  match trim s with
  | [] => pos_zero
  | 48%N :: 120%N :: r | 48%N :: 88%N :: r => radix_literal 16 r
  | 48%N :: 111%N :: r | 48%N :: 79%N :: r => radix_literal 8 r
  | 48%N :: 98%N :: r | 48%N :: 66%N :: r => radix_literal 2 r
  | 43%N :: r => unsigned_decimal false r
  | 45%N :: r => unsigned_decimal true r
  | r => unsigned_decimal false r
  end.

(** *** ToIntegerOrInfinity, as [Array.prototype.slice] applies it to
    its [end] argument *)

Inductive integer_or_infinity := Integer (z : Z) | PlusInfinity | MinusInfinity.

Definition ToIntegerOrInfinity (x : number) : integer_or_infinity :=
  match x with
  | S754_nan | S754_zero _ => Integer 0
  | S754_infinity false => PlusInfinity
  | S754_infinity true => MinusInfinity
  | S754_finite s m e =>
    let '(P, Q) := magnitude m e in
    Integer (if s then - (P / Q) else P / Q)
  end.

(** The Number nearest to an integer (an array length, an integer
    literal of the source such as [5]): exact up to 53 bits, rounded to
    nearest, ties to even, beyond. *)
Definition of_positive (neg : bool) (p : positive) : number :=
  let d := Zpos (digits2_pos p) in
  if d <=? prec then
    S754_finite neg (Z.to_pos (Z.shiftl (Zpos p) (prec - d))) (d - prec)
  else
    let k := d - prec in
    let top := Z.shiftr (Zpos p) k in
    let rest := Zpos p - Z.shiftl top k in
    let up := match Z.compare (2 * rest) (2 ^ k) with
              | Gt => true
              | Eq => Z.odd top
              | Lt => false
              end in
    let m := if up then top + 1 else top in
    let '(m, k) := if m =? 2 ^ prec then (2 ^ (prec - 1), k + 1) else (m, k) in
    if k <=? emax - prec then S754_finite neg (Z.to_pos m) k
    else S754_infinity neg.

Definition of_Z (z : Z) : number :=
  match z with
  | Z0 => S754_zero false
  | Zpos p => of_positive false p
  | Zneg p => of_positive true p
  end.

End JSNumber.
Export JSNumber.

(* ===================================================================== *)
(** ** JavaScript values: parsed JSON, exceptions and coercions *)
(* ===================================================================== *)

Module JSValue.

(** What [JSON.parse] (behind [response.json()]) produces. An object is
    the list of its own properties. *)
#[local] Set Warnings "-register-all".
Inductive json :=
| JNull
| JBool (b : bool)
| JNum (x : number)
| JStr (s : jsstring)
| JArr (items : list json)
| JObj (fields : list (jsstring * json)).

(** A value the module handles: [None] is [undefined]. *)
Definition value := option json.
Definition undefined : value := None.

(** What can be thrown, or reject a promise:
    - [Error m] is [new Error(m)], raised by the module itself;
    - [TypeError] is raised by the run time (property of [null] or
      [undefined], call of a non-function, failed conversion);
    - [Rejection name] is whatever [fetch] or [response.json()] rejected
      with, known by its [name] ("AbortError", "TypeError", "SyntaxError"). *)
Inductive exn :=
| Error (message : jsstring)
| TypeError
| Rejection (name : jsstring).

Inductive result (A : Type) :=
| Ok (a : A)
| Throw (e : exn).
Arguments Ok {A} a.
Arguments Throw {A} e.

Definition rbind {A B} (r : result A) (k : A -> result B) : result B :=
  match r with
  | Ok a => k a
  | Throw e => Throw e
  end.

Declare Scope result_scope.
Delimit Scope result_scope with result.
Notation "x <- c ;; k" := (rbind c (fun x => k))
  (at level 100, c at next level, right associativity) : result_scope.

Fixpoint assoc (key : jsstring) (fields : list (jsstring * json)) : value :=
  match fields with
  | [] => None
  | (k, v) :: rest => if jsstring_eq_dec k key then Some v else assoc key rest
  end.

Definition is_nullish (v : value) : bool :=
  match v with
  | None | Some JNull => true
  | _ => false
  end.

(** [v.key] for the property names the module reads (none of them is
    inherited from a prototype, apart from [length]). *)
Definition get (v : value) (key : jsstring) : result value :=
  match v with
  | None | Some JNull => Throw TypeError
  | Some (JObj fields) => Ok (assoc key fields)
  | Some (JArr items) =>
    if jsstring_eq_dec key (u"length")
    then Ok (Some (JNum (of_Z (Z.of_nat (List.length items)))))
    else Ok None
  | Some (JStr s) =>
    if jsstring_eq_dec key (u"length")
    then Ok (Some (JNum (of_Z (Z.of_nat (List.length s)))))
    else Ok None
  | Some (JBool _) | Some (JNum _) => Ok None
  end.

(** [v?.key] *)
Definition get_opt (v : value) (key : jsstring) : result value :=
  if is_nullish v then Ok None else get v key.

(** [v[0]] for a value whose [length] is truthy. *)
Definition index0 (v : value) : result value :=
  match v with
  | None | Some JNull => Throw TypeError
  | Some (JArr items) => Ok (nth_error items 0)
  | Some (JStr s) => Ok (option_map (fun c => JStr [c]) (nth_error s 0))
  | Some (JObj fields) => Ok (assoc (u"0") fields)
  | Some (JBool _) | Some (JNum _) => Ok None
  end.

(** ToString of a parsed JSON value; it is also what [v.toString()]
    returns for a [v] that is neither [null] nor [undefined]. An object
    with an own [toString] property (never callable in parsed JSON)
    makes both raise a TypeError. *)
Fixpoint ToStringJ (j : json) : result jsstring :=
  match j with
  | JNull => Ok (u"null")
  | JBool true => Ok (u"true")
  | JBool false => Ok (u"false")
  | JNum x => Ok (NumberToString x)
  | JStr s => Ok s
  | JArr items =>
    (fix join (l : list json) : result jsstring :=
       match l with
       | [] => Ok []
       | x :: rest =>
         let elem := match x with JNull => Ok [] | _ => ToStringJ x end in
         match rest with
         | [] => elem
         | _ => rbind elem (fun s => rbind (join rest) (fun r =>
                  Ok (s ++ u"," ++ r)))
         end
       end) items
  | JObj fields =>
    match assoc (u"toString") fields with
    | Some _ => Throw TypeError
    | None => Ok (u"[object Object]")
    end
  end.

(** ToString, as a template literal and [String(v)] apply it. *)
Definition ToString (v : value) : result jsstring :=
  match v with
  | None => Ok (u"undefined")
  | Some j => ToStringJ j
  end.

(** [v?.toString()] *)
Definition toString_opt (v : value) : result (option jsstring) :=
  match v with
  | None | Some JNull => Ok None
  | Some j => rbind (ToStringJ j) (fun s => Ok (Some s))
  end.

(** ToNumber, as [Number(v)] applies it. *)
Definition ToNumber (v : value) : result number :=
  match v with
  | None => Ok NaN
  | Some JNull => Ok pos_zero
  | Some (JBool b) => Ok (of_Z (if b then 1 else 0))
  | Some (JNum x) => Ok x
  | Some (JStr s) => Ok (StringToNumber s)
  | Some j => rbind (ToStringJ j) (fun s => Ok (StringToNumber s))
  end.

(** ToBoolean *)
Definition truthy (v : value) : bool :=
  match v with
  | None | Some JNull => false
  | Some (JBool b) => b
  | Some (JNum (S754_zero _)) | Some (JNum S754_nan) => false
  | Some (JNum _) => true
  | Some (JStr s) => match s with [] => false | _ => true end
  | Some (JArr _) | Some (JObj _) => true
  end.

(** [v === 'literal'] *)
Definition is_string (v : value) (literal : jsstring) : bool :=
  match v with
  | Some (JStr s) => str_eqb s literal
  | _ => false
  end.

(** [a ?? b] *)
Definition nullish_or (a b : value) : value :=
  if is_nullish a then b else a.

(** [items.slice(0, end)] on an array. *)
Definition slice0 {A} (items : list A) (e : number) : list A :=
  let len := Z.of_nat (List.length items) in
  let final :=
    match ToIntegerOrInfinity e with
    | MinusInfinity => 0
    | PlusInfinity => len
    | Integer r => if r <? 0 then Z.max (len + r) 0 else Z.min r len
    end in
  firstn (Z.to_nat final) items.

(** [Array.prototype.map] with a callback that may throw: elements are
    visited in order and the first exception ends the traversal. *)
Fixpoint map_result {A B} (f : A -> result B) (l : list A) : result (list B) :=
  match l with
  | [] => Ok []
  | x :: rest =>
    rbind (f x) (fun y => rbind (map_result f rest) (fun ys => Ok (y :: ys)))
  end.

End JSValue.
Export JSValue.

(* ===================================================================== *)
(** ** The geocoding client *)
(* ===================================================================== *)

Module Geocode.

(** *** Data model *)

Inductive Provider := nominatim | google.

(** [GeocodeResult]. The fields hold what the code stores at run time:
    [id], [label], [lat] and [lng] may come straight from a provider
    payload, so they are values rather than the declared [string] and
    [number]. [placeId] is [None] when the property is not set. *)
Record GeocodeResult := {
  id : value;
  label : value;
  lat : value;
  lng : value;
  raw : value;
  provider : Provider;
  placeId : option value
}.

(** [SearchOptions], without the abort signal: the effect of an abort is
    a rejected [fetch], which the network below decides. *)
Record SearchOptions := {
  opt_provider : option Provider;
  opt_limit : option number
}.

Definition no_options : SearchOptions :=
  {| opt_provider := None; opt_limit := None |}.

(** [import.meta.env] and the part of [window] the module reads. *)
Record Env := {
  VITE_GOOGLE_KEY : option jsstring;
  VITE_NOMINATIM_EMAIL : option jsstring;
  window_origin : option jsstring
}.

(** Truthiness of an environment entry: defined and not empty. *)
Definition configured (v : option jsstring) : bool :=
  match v with
  | Some (_ :: _) => true
  | _ => false
  end.

(** *** Network *)

(** A GET request: the endpoint, the parameters [encodeQuery] collected
    (in order, before percent-encoding) and the headers. *)
Record request := {
  endpoint : jsstring;
  params : list (jsstring * jsstring);
  headers : list (jsstring * jsstring)
}.

(** How a promise of the platform ([fetch], [response.json()]) settles:
    with a value, or rejected with an error of the given name. *)
Inductive settled (A : Type) :=
| Fulfils (a : A)
| Rejects (name : jsstring).
Arguments Fulfils {A} a.
Arguments Rejects {A} name.

(** [await p] *)
Definition await {A} (p : settled A) : result A :=
  match p with
  | Fulfils a => Ok a
  | Rejects name => Throw (Rejection name)
  end.

(** A response: its HTTP status and what [response.json()] settles
    with. *)
Record response := {
  status : Z;
  body : settled json
}.

(** [response.ok] *)
Definition ok (r : response) : bool := (200 <=? status r) && (status r <=? 299).

(** The world outside the module: how the [fetch] of the [n]-th request
    issued (counted from 0) settles; and the order in which pending
    concurrent calls complete, as a list of positions. *)
Record World := {
  net : nat -> request -> settled response;
  arrival : list nat
}.

(** Computations that read the world and log the requests they issue. *)
Definition IO (A : Type) := World -> list request -> result A * list request.

Definition ret {A} (a : A) : IO A := fun _ log => (Ok a, log).
Definition throw {A} (e : exn) : IO A := fun _ log => (Throw e, log).
Definition bind {A B} (c : IO A) (k : A -> IO B) : IO B :=
  fun w log =>
    match c w log with
    | (Ok a, log') => k a w log'
    | (Throw e, log') => (Throw e, log')
    end.
Definition lift {A} (r : result A) : IO A := fun _ log => (r, log).

Declare Scope io_scope.
Delimit Scope io_scope with io.
Notation "x <- c ;; k" := (bind c (fun x => k))
  (at level 100, c at next level, right associativity) : io_scope.

(** [fetch(...)] without [await]: the request is issued and the promise
    is kept; its eventual outcome is returned as data. *)
Definition fetch_start (req : request) : IO (settled response) :=
  fun w log => (Ok (net w (List.length log) req), log ++ [req]).

(** [await fetch(...)] *)
Definition fetch (req : request) : IO response :=
  (r <- fetch_start req ;; lift (await r))%io.

(** Running a computation from an empty log. *)
Definition run {A} (c : IO A) (w : World) : result A * list request := c w [].

(** *** Constants *)

Definition NOMINATIM_BASE := u"https://nominatim.openstreetmap.org".
Definition NOMINATIM_VIEWBOX := u"-74.25,4.47,-73.99,4.90".
Definition GOOGLE_AUTOCOMPLETE_URL :=
  u"https://maps.googleapis.com/maps/api/place/autocomplete/json".
Definition GOOGLE_GEOCODE_URL := u"https://maps.googleapis.com/maps/api/geocode/json".

Record Bounds := { south : number; west : number; north : number; east : number }.

Definition GOOGLE_BOUNDS : Bounds := {|
  south := round_decimal false 447 (-2);
  west := round_decimal true 7425 (-2);
  north := round_decimal false 49 (-1);
  east := round_decimal true 7399 (-2)
|}.

Definition DEFAULT_LIMIT : number := of_Z 5.

Definition num (z : Z) : value := Some (JNum (of_Z z)).
Definition str (s : jsstring) : value := Some (JStr s).

(** *** Helpers *)

Definition resolveProvider (env : Env) (preferred : option Provider) : Provider :=
  match preferred with
  | Some p => p
  | None => if configured (VITE_GOOGLE_KEY env) then google else nominatim
  end.

Definition missing_email := u"Falta configurar VITE_NOMINATIM_EMAIL para usar Nominatim.".
Definition missing_key := u"Falta configurar VITE_GOOGLE_KEY para usar Google Maps.".

Definition getNominatimEmail (env : Env) : result jsstring :=
  match VITE_NOMINATIM_EMAIL env with
  | Some (c :: s) => Ok (c :: s)
  | _ => Throw (Error missing_email)
  end.

Definition getGoogleKey (env : Env) : result jsstring :=
  match VITE_GOOGLE_KEY env with
  | Some (c :: s) => Ok (c :: s)
  | _ => Throw (Error missing_key)
  end.

Definition buildUserAgent (email : jsstring) : jsstring :=
  u"GeoBogota/1.0 (" ++ email ++ u")".

(** [encodeQuery]: entries in insertion order, [undefined] skipped,
    every other value through [String(value)]. [URLSearchParams.set]
    takes the name and the value as [USVString]s. *)
Fixpoint encodeQuery (entries : list (jsstring * value))
  : result (list (jsstring * jsstring)) :=
  match entries with
  | [] => Ok []
  | (key, None) :: rest => encodeQuery rest
  | (key, Some j) :: rest =>
    (s <- ToStringJ j ;; q <- encodeQuery rest ;; Ok ((usv key, usv s) :: q))%result
  end.

Definition nominatim_headers (env : Env) (email : jsstring)
  : list (jsstring * jsstring) :=
  [(u"User-Agent", buildUserAgent email); (u"Accept-Language", u"es")]
  ++ match window_origin env with
     | Some origin => [(u"Referer", origin)]
     | None => []
     end
  ++ [(u"From", email)].

Definition googleStatusMessage (status : value) : jsstring :=
  if is_string status (u"ZERO_RESULTS") then
    u"No se encontraron resultados en Google para esa búsqueda."
  else if is_string status (u"OVER_QUERY_LIMIT") then
    u"Se alcanzó el límite de cuota de Google Maps."
  else if is_string status (u"REQUEST_DENIED") then
    u"La API de Google Maps rechazó la solicitud. Revisa la clave y restricciones."
  else if is_string status (u"INVALID_REQUEST") then
    u"Solicitud inválida enviada a Google Maps."
  else if is_string status (u"UNKNOWN_ERROR") then
    u"Error desconocido en la API de Google Maps. Intenta de nuevo."
  else
    u"No se pudo completar la petición con Google Maps.".

(** [`${a},${b}`] *)
Definition pair_string (a b : value) : result jsstring :=
  (x <- ToString a ;; y <- ToString b ;; Ok (x ++ u"," ++ y))%result.

(** [item.place_id?.toString() ?? `${item.lat},${item.lon}`] *)
Definition nominatim_id (item : value) : result jsstring :=
  (pid <- get item (u"place_id") ;;
   s <- toString_opt pid ;;
   match s with
   | Some s => Ok s
   | None =>
     la <- get item (u"lat") ;;
     lo <- get item (u"lon") ;;
     pair_string la lo
   end)%result.

(** *** Free provider *)

Definition rate_limited :=
  u"Se alcanzó el límite de consultas de Nominatim. Intenta más tarde.".
Definition nominatim_failed := u"No se pudo buscar la dirección con Nominatim.".

(** The callback of [payload.map] in [searchWithNominatim]. *)
Definition nominatim_candidate (item : json) : result GeocodeResult :=
  (i <- nominatim_id (Some item) ;;
   name <- get (Some item) (u"display_name") ;;
   la <- get (Some item) (u"lat") ;;
   la <- ToNumber la ;;
   lo <- get (Some item) (u"lon") ;;
   lo <- ToNumber lo ;;
   Ok {| id := str i; label := name;
         lat := Some (JNum la); lng := Some (JNum lo);
         raw := Some item; provider := nominatim; placeId := None |})%result.

Definition nominatim_search_request (env : Env) (email query : jsstring)
  (limit : number) : result request :=
  (q <- encodeQuery
     [(u"q", str query); (u"format", str (u"jsonv2"));
      (u"addressdetails", num 1); (u"limit", Some (JNum limit));
      (u"viewbox", str NOMINATIM_VIEWBOX); (u"bounded", num 1);
      (u"city", str (u"Bogotá")); (u"country", str (u"Colombia"));
      (u"dedupe", num 1); (u"polygon_geojson", num 0);
      (u"extratags", num 0)] ;;
   Ok {| endpoint := NOMINATIM_BASE ++ u"/search"; params := q;
         headers := nominatim_headers env email |})%result.

Definition searchWithNominatim (env : Env) (query : jsstring) (limit : number)
  : IO (list GeocodeResult) :=
  (email <- lift (getNominatimEmail env) ;;
   req <- lift (nominatim_search_request env email query limit) ;;
   response <- fetch req ;;
   if negb (ok response) then
     if status response =? 429 then throw (Error rate_limited)
     else throw (Error nominatim_failed)
   else
     payload <- lift (await (body response)) ;;
     match payload with
     | JArr items => lift (map_result nominatim_candidate items)
     | _ => throw TypeError
     end)%io.

Definition nominatim_reverse_request (env : Env) (email : jsstring)
  (la lo : number) : result request :=
  (q <- encodeQuery
     [(u"lat", Some (JNum la)); (u"lon", Some (JNum lo));
      (u"format", str (u"jsonv2")); (u"addressdetails", num 1)] ;;
   Ok {| endpoint := NOMINATIM_BASE ++ u"/reverse"; params := q;
         headers := nominatim_headers env email |})%result.

(** [`${lat.toFixed(6)}, ${lng.toFixed(6)}`] *)
Definition coordinate_label (la lo : number) : jsstring :=
  toFixed la 6 ++ u", " ++ toFixed lo 6.

(** The object literal [reverseWithNominatim] returns. *)
Definition nominatim_reverse_candidate (la lo : number) (payload : json)
  : result GeocodeResult :=
  (i <- nominatim_id (Some payload) ;;
   name <- get (Some payload) (u"display_name") ;;
   pla <- get (Some payload) (u"lat") ;;
   la' <- ToNumber (nullish_or pla (Some (JNum la))) ;;
   plo <- get (Some payload) (u"lon") ;;
   lo' <- ToNumber (nullish_or plo (Some (JNum lo))) ;;
   Ok {| id := str i;
         label := nullish_or name (str (coordinate_label la lo));
         lat := Some (JNum la'); lng := Some (JNum lo');
         raw := Some payload; provider := nominatim; placeId := None |})%result.

Definition reverseWithNominatim (env : Env) (la lo : number)
  : IO (option GeocodeResult) :=
  (email <- lift (getNominatimEmail env) ;;
   req <- lift (nominatim_reverse_request env email la lo) ;;
   response <- fetch req ;;
   if negb (ok response) then ret None
   else
     payload <- lift (await (body response)) ;;
     if negb (truthy (Some payload)) then ret None
     else
       c <- lift (nominatim_reverse_candidate la lo payload) ;;
       ret (Some c))%io.

(** *** Promises *)

(** A promise with the result it settles with. [Settled]: the [async]
    function ended before its first [await], so the promise is settled
    as soon as it is created. [Pending]: it settles once the call the
    function awaits has completed. *)
Inductive promise (A : Type) :=
| Settled (r : result A)
| Pending (r : result A).
Arguments Settled {A} r.
Arguments Pending {A} r.

Definition outcome {A} (p : promise A) : result A :=
  match p with
  | Settled r | Pending r => r
  end.

Definition is_settled {A} (p : promise A) : bool :=
  match p with
  | Settled _ => true
  | Pending _ => false
  end.

(** Positions of the promises that are settled from the start. *)
Fixpoint settled_positions {A} (i : nat) (ps : list (promise A)) : list nat :=
  match ps with
  | [] => []
  | p :: rest =>
    (if is_settled p then [i] else []) ++ settled_positions (S i) rest
  end.

(** The order in which the promises settle: first those settled from
    the start, by position; then the pending ones as their calls
    complete; a position the arrival order leaves out settles last. *)
Definition settle_order {A} (ps : list (promise A)) (arrival : list nat) : list nat :=
  settled_positions 0 ps ++ arrival ++ seq 0 (List.length ps).

(** The reason of the first promise of [order] that rejects. *)
Fixpoint first_rejection {A} (ps : list (promise A)) (order : list nat) : option exn :=
  match order with
  | [] => None
  | i :: rest =>
    match option_map outcome (nth_error ps i) with
    | Some (Throw e) => Some e
    | _ => first_rejection ps rest
    end
  end.

(** [Promise.all]: rejects with the reason of the first promise to
    reject; otherwise fulfils with the values in the order of [ps]. *)
Definition Promise_all {A} (ps : list (promise A)) : IO (list A) :=
  fun w log =>
    match first_rejection ps (settle_order ps (arrival w)) with
    | Some e => (Throw e, log)
    | None => (map_result outcome ps, log)
    end.

(** [items.map(f)] for a callback with effects. *)
Fixpoint mapIO {A B} (f : A -> IO B) (l : list A) : IO (list B) :=
  match l with
  | [] => ret []
  | x :: rest => (y <- f x ;; ys <- mapIO f rest ;; ret (y :: ys))%io
  end.

(** *** Commercial provider *)

Definition autocomplete_failed := u"No se pudo obtener sugerencias de Google Places.".
Definition detail_failed := u"No se pudo geocodificar la dirección seleccionada.".

Definition locationbias : jsstring :=
  u"rectangle:" ++ NumberToString (south GOOGLE_BOUNDS) ++ u","
  ++ NumberToString (west GOOGLE_BOUNDS) ++ u"|"
  ++ NumberToString (north GOOGLE_BOUNDS) ++ u","
  ++ NumberToString (east GOOGLE_BOUNDS).

Definition autocomplete_request (apiKey query : jsstring) : result request :=
  (q <- encodeQuery
     [(u"input", str query); (u"language", str (u"es"));
      (u"types", str (u"geocode")); (u"key", str apiKey);
      (u"components", str (u"country:CO"));
      (u"locationbias", str locationbias)] ;;
   Ok {| endpoint := GOOGLE_AUTOCOMPLETE_URL; params := q; headers := [] |})%result.

(** The [map] callback of [searchWithGoogle] up to its first [await]:
    the place id and the detail request. *)
Definition detail_request (apiKey : jsstring) (prediction : json)
  : result (value * request) :=
  (placeId <- get (Some prediction) (u"place_id") ;;
   q <- encodeQuery [(u"place_id", placeId); (u"key", str apiKey)] ;;
   Ok (placeId, {| endpoint := GOOGLE_GEOCODE_URL; params := q; headers := [] |}))%result.

(** The rest of the callback, from the outcome of its [fetch]. *)
Definition detail_result (prediction : json) (placeId : value)
  (fetched : settled response) : result GeocodeResult :=
  (geocodeResponse <- await fetched ;;
   if negb (ok geocodeResponse) then Throw (Error detail_failed)
   else
     geocodePayload <- await (body geocodeResponse) ;;
     st <- get (Some geocodePayload) (u"status") ;;
     if negb (is_string st (u"OK")) then Throw (Error (googleStatusMessage st))
     else
       results <- get (Some geocodePayload) (u"results") ;;
       len <- get_opt results (u"length") ;;
       if negb (truthy len) then Throw (Error (googleStatusMessage st))
       else
         res <- index0 results ;;
         description <- get (Some prediction) (u"description") ;;
         geometry <- get res (u"geometry") ;;
         location <- get geometry (u"location") ;;
         la <- get location (u"lat") ;;
         lo <- get location (u"lng") ;;
         Ok {| id := placeId; label := description; lat := la; lng := lo;
               raw := res; provider := google; placeId := Some placeId |})%result.

Definition detail_task (apiKey : jsstring) (prediction : json)
  : IO (promise GeocodeResult) :=
  match detail_request apiKey prediction with
  | Throw e => ret (Settled (Throw e))
  | Ok (placeId, req) =>
    (fetched <- fetch_start req ;;
     ret (Pending (detail_result prediction placeId fetched)))%io
  end.

Definition searchWithGoogle (env : Env) (query : jsstring) (limit : number)
  : IO (list GeocodeResult) :=
  (apiKey <- lift (getGoogleKey env) ;;
   req <- lift (autocomplete_request apiKey query) ;;
   autocompleteResponse <- fetch req ;;
   if negb (ok autocompleteResponse) then throw (Error autocomplete_failed)
   else
     autocompletePayload <- lift (await (body autocompleteResponse)) ;;
     st <- lift (get (Some autocompletePayload) (u"status")) ;;
     if negb (is_string st (u"OK")) && negb (is_string st (u"ZERO_RESULTS"))
     then throw (Error (googleStatusMessage st))
     else
       p <- lift (get (Some autocompletePayload) (u"predictions")) ;;
       let predictions := nullish_or p (Some (JArr [])) in
       len <- lift (get predictions (u"length")) ;;
       if negb (truthy len) then ret []
       else
         match predictions with
         | Some (JArr items) =>
           geocodePromises <- mapIO (detail_task apiKey) (slice0 items limit) ;;
           Promise_all geocodePromises
         | _ => throw TypeError
         end)%io.

Definition google_reverse_request (apiKey : jsstring) (la lo : number)
  : result request :=
  (latlng <- pair_string (Some (JNum la)) (Some (JNum lo)) ;;
   q <- encodeQuery
     [(u"latlng", str latlng); (u"key", str apiKey); (u"language", str (u"es"))] ;;
   Ok {| endpoint := GOOGLE_GEOCODE_URL; params := q; headers := [] |})%result.

(** The object literal [reverseWithGoogle] returns. *)
Definition google_reverse_candidate (la lo : number) (res : value)
  : result GeocodeResult :=
  (pid <- get res (u"place_id") ;;
   fallback <- (if is_nullish pid
                then s <- pair_string (Some (JNum la)) (Some (JNum lo)) ;; Ok (str s)
                else Ok pid) ;;
   address <- get res (u"formatted_address") ;;
   Ok {| id := fallback; label := address;
         lat := Some (JNum la); lng := Some (JNum lo);
         raw := res; provider := google; placeId := Some pid |})%result.

Definition reverseWithGoogle (env : Env) (la lo : number)
  : IO (option GeocodeResult) :=
  (apiKey <- lift (getGoogleKey env) ;;
   req <- lift (google_reverse_request apiKey la lo) ;;
   response <- fetch req ;;
   if negb (ok response) then ret None
   else
     payload <- lift (await (body response)) ;;
     st <- lift (get (Some payload) (u"status")) ;;
     if negb (is_string st (u"OK")) then ret None
     else
       results <- lift (get (Some payload) (u"results")) ;;
       len <- lift (get_opt results (u"length")) ;;
       if negb (truthy len) then ret None
       else
         res <- lift (index0 results) ;;
         c <- lift (google_reverse_candidate la lo res) ;;
         ret (Some c))%io.

(** *** The two exported operations *)

(** [limit = DEFAULT_LIMIT] in the parameter list of [searchAddress]. *)
Definition limit_of (options : SearchOptions) : number :=
  match opt_limit options with
  | Some l => l
  | None => DEFAULT_LIMIT
  end.

Definition searchAddress (env : Env) (query : jsstring) (options : SearchOptions)
  : IO (list GeocodeResult) :=
  let limit := limit_of options in
  let provider := resolveProvider env (opt_provider options) in
  match trim query with
  | [] => ret []
  | _ =>
    match provider with
    | google => searchWithGoogle env query limit
    | nominatim => searchWithNominatim env query limit
    end
  end.

Definition reverseGeocode (env : Env) (la lo : number)
  (preferred : option Provider) : IO (option GeocodeResult) :=
  match resolveProvider env preferred with
  | google => reverseWithGoogle env la lo
  | nominatim => reverseWithNominatim env la lo
  end.

(** *** Vocabulary of the properties *)

(** The credential a provider requires, and the error its adapter
    raises when the credential is not configured. *)
Definition credential (env : Env) (p : Provider) : option jsstring :=
  match p with
  | nominatim => VITE_NOMINATIM_EMAIL env
  | google => VITE_GOOGLE_KEY env
  end.

Definition configuration_error (p : Provider) : exn :=
  match p with
  | nominatim => Error missing_email
  | google => Error missing_key
  end.

(** The first request of a forward search and the request of a reverse
    lookup, for a provider whose credential is configured. *)
Definition search_request (env : Env) (p : Provider) (query : jsstring)
  (limit : number) : result request :=
  match p with
  | nominatim =>
    (email <- getNominatimEmail env ;;
     nominatim_search_request env email query limit)%result
  | google =>
    (apiKey <- getGoogleKey env ;; autocomplete_request apiKey query)%result
  end.

Definition reverse_request (env : Env) (p : Provider) (la lo : number)
  : result request :=
  match p with
  | nominatim =>
    (email <- getNominatimEmail env ;;
     nominatim_reverse_request env email la lo)%result
  | google =>
    (apiKey <- getGoogleKey env ;; google_reverse_request apiKey la lo)%result
  end.

(** A provider response that is not a success: a non-success HTTP
    status; for the free provider a falsy payload; for the commercial
    provider a status other than ["OK"] or a [results] without a truthy
    [length]. *)
Inductive not_success : Provider -> response -> Prop :=
| http_failure p r :
    ok r = false -> not_success p r
| missing_payload r payload :
    body r = Fulfils payload -> truthy (Some payload) = false ->
    not_success nominatim r
| status_not_ok r payload st :
    body r = Fulfils payload -> get (Some payload) (u"status") = Ok st ->
    is_string st (u"OK") = false ->
    not_success google r
| no_results r payload results len :
    body r = Fulfils payload -> get (Some payload) (u"results") = Ok results ->
    get_opt results (u"length") = Ok len -> truthy len = false ->
    not_success google r.

(** The item has a place id, of string form [s]. *)
Definition has_place_id (item : json) (s : jsstring) : Prop :=
  exists pid, get (Some item) (u"place_id") = Ok (Some pid)
              /\ pid <> JNull /\ ToStringJ pid = Ok s.

(** The item has no place id: the property is absent or [null]. *)
Definition lacks_place_id (item : json) : Prop :=
  exists pid, get (Some item) (u"place_id") = Ok pid /\ is_nullish pid = true.

(** [`${item.lat},${item.lon}`], the coordinate pair of an item as the
    free-provider adapter prints it. *)
Definition coordinate_pair (item : json) : result jsstring :=
  (la <- get (Some item) (u"lat") ;;
   lo <- get (Some item) (u"lon") ;;
   pair_string la lo)%result.

(** The predictions of the prediction phase's payload, when they come
    as an array. *)
Definition predictions_of (payload : json) : list json :=
  match get (Some payload) (u"predictions") with
  | Ok (Some (JArr items)) => items
  | _ => []
  end.

(** Position [i] holds a promise that rejects with [e]. *)
Definition rejects_with {A} (ps : list (promise A)) (i : nat) (e : exn) : Prop :=
  option_map outcome (nth_error ps i) = Some (Throw e).

(** [i] occurs in [order], with no occurrence of [j] before it. *)
Inductive settles_no_later (i j : nat) : list nat -> Prop :=
| settles_here rest : settles_no_later i j (i :: rest)
| settles_further k rest :
    k <> j -> settles_no_later i j rest -> settles_no_later i j (k :: rest).

End Geocode.
Export Geocode.

(* ===================================================================== *)
(** ** Concrete environments, payloads and worlds *)
(* ===================================================================== *)

Module Scenario.

Definition env_none : Env :=
  {| VITE_GOOGLE_KEY := None; VITE_NOMINATIM_EMAIL := None; window_origin := None |}.

Definition env_email : Env :=
  {| VITE_GOOGLE_KEY := None; VITE_NOMINATIM_EMAIL := Some (u"geo@example.org");
     window_origin := Some (u"http://localhost:5173") |}.

Definition env_key : Env :=
  {| VITE_GOOGLE_KEY := Some (u"AIza-key"); VITE_NOMINATIM_EMAIL := None;
     window_origin := None |}.

(** The point (4.6486, -74.0628), as the Numbers of these literals. *)
Definition bogota_lat : number := StringToNumber (u"4.6486").
Definition bogota_lng : number := StringToNumber (u"-74.0628").

(** A network that answers every request with the same response. *)
Definition always (r : response) : World :=
  {| net := fun _ _ => Fulfils r; arrival := [] |}.

Definition json_response (code : Z) (payload : json) : response :=
  {| status := code; body := Fulfils payload |}.

Definition with_options (p : Provider) : SearchOptions :=
  {| opt_provider := Some p; opt_limit := None |}.

(** Blank text: a space, a tab, a no-break space and an ideographic
    space. *)
Definition blank : jsstring := [32; 9; 160; 12288]%N.

(** Commercial-provider payloads. *)
Definition zero_results : json :=
  JObj [(u"status", JStr (u"ZERO_RESULTS")); (u"results", JArr [])].

Definition request_denied : json :=
  JObj [(u"status", JStr (u"REQUEST_DENIED")); (u"results", JArr [])].

Definition geocode_result (address place : jsstring) (la lo : number) : json :=
  JObj [(u"formatted_address", JStr address);
        (u"geometry",
         JObj [(u"location", JObj [(u"lat", JNum la); (u"lng", JNum lo)])]);
        (u"place_id", JStr place)].

Definition geocode_ok (results : list json) : json :=
  JObj [(u"results", JArr results); (u"status", JStr (u"OK"))].

Definition chapinero : json :=
  geocode_result (u"Cra. 7 #72-41, Bogotá, Colombia") (u"ChIJ-chapinero")
                 (StringToNumber (u"4.6571")) (StringToNumber (u"-74.0577")).

Definition over_query_limit : json :=
  JObj [(u"results", JArr []); (u"status", JStr (u"OVER_QUERY_LIMIT"))].

Definition prediction_of (place description : jsstring) : json :=
  JObj [(u"description", JStr description); (u"place_id", JStr place)].

Definition autocomplete_ok (predictions : list json) : json :=
  JObj [(u"predictions", JArr predictions); (u"status", JStr (u"OK"))].

Definition second : json := prediction_of (u"ChIJ-b") (u"Cra. 7 #72-41, Chía").

Definition three : list json :=
  [prediction_of (u"ChIJ-a") (u"Cra. 7 #72-41, Bogotá");
   second;
   prediction_of (u"ChIJ-c") (u"Cra. 7 #72-41, Soacha")].

(** The [place_id] parameter of a detail request. *)
Fixpoint param (key : jsstring) (ps : list (jsstring * jsstring)) : jsstring :=
  match ps with
  | [] => []
  | (k, v) :: rest => if jsstring_eq_dec k key then v else param key rest
  end.

(** A world whose prediction call returns the given predictions and
    whose detail calls are answered according to their place id. *)
Definition details (predictions : list json) (detail : jsstring -> json)
  (order : list nat) : World :=
  {| net := fun _ req =>
       if jsstring_eq_dec (endpoint req) GOOGLE_AUTOCOMPLETE_URL
       then Fulfils (json_response 200 (autocomplete_ok predictions))
       else Fulfils (json_response 200 (detail (param (u"place_id") (params req))));
     arrival := order |}.

(** The second detail call hits the quota. In [second_fails] the third
    response arrives first, then the first, then the second. *)
Definition second_fails_in (order : list nat) : World :=
  details three
          (fun place => if jsstring_eq_dec place (u"ChIJ-b")
                        then over_query_limit
                        else geocode_ok [chapinero])
          order.

Definition second_fails : World := second_fails_in [2; 0; 1]%nat.

Definition all_succeed (order : list nat) : World :=
  details three (fun _ => geocode_ok [chapinero]) order.

(** A [null] among the predictions, before one whose detail call hits
    the quota. *)
Definition null_first (order : list nat) : World :=
  details [JNull; second] (fun _ => over_query_limit) order.

(** Free-provider items. *)
Definition place (pid : option json) (name la lo : jsstring) : json :=
  JObj ([(u"display_name", JStr name); (u"lat", JStr la); (u"lon", JStr lo)]
        ++ match pid with
           | Some p => [(u"place_id", p)]
           | None => []
           end).

(** Two places of one building, without place id. *)
Definition tower : list json :=
  [place None (u"Torre A, Cra. 7 #72-41") (u"4.6486") (u"-74.0628");
   place None (u"Torre B, Cra. 7 #72-41") (u"4.6486") (u"-74.0628")].

Definition street : list json :=
  [place (Some (JNum (of_Z 101))) (u"Cra. 7 #72-41") (u"4.6571") (u"-74.0577");
   place (Some (JNum (of_Z 102))) (u"Cra. 7 #72-45") (u"4.6572") (u"-74.0577")].

End Scenario.

(* ===================================================================== *)
(** ** Requests and headers *)
(* ===================================================================== *)

Module Requests.

(** The endpoints of a provider. *)
Definition provider_endpoints (p : Provider) : list jsstring :=
  match p with
  | nominatim => [NOMINATIM_BASE ++ u"/search"; NOMINATIM_BASE ++ u"/reverse"]
  | google => [GOOGLE_AUTOCOMPLETE_URL; GOOGLE_GEOCODE_URL]
  end.

(** The value a list of headers or of parameters gives to a name. *)
Fixpoint lookup (key : jsstring) (entries : list (jsstring * jsstring))
  : option jsstring :=
  match entries with
  | [] => None
  | (k, v) :: rest => if jsstring_eq_dec k key then Some v else lookup key rest
  end.

End Requests.
Export Requests.

(* ===================================================================== *)
(** ** The component [GeoBogota] *)
(* ===================================================================== *)

(** The handlers of the component, as functions on its state and
    references. A state setter is recorded when it is called. An
    [async] handler is split at its [await]: the part that runs when the
    event is handled, and the part that runs once the awaited promise
    has settled, on the state as it is by then. The delay of the
    debounce timer and the rendering are not part of the model. *)

Module Component.

Inductive StatusType := error | info.

Record StatusMessage := {
  type : StatusType;
  text : jsstring
}.

(** The platform beside the network: the [message] of the errors the
    run time and the platform raise, and [navigator.clipboard]
    ([None] where it is undefined) with how [writeText] settles. *)
Record Platform := {
  TypeError_message : jsstring;
  Rejection_message : jsstring -> jsstring;
  clipboard : option (jsstring -> settled unit)
}.

(** [error.name] and [error.message] *)
Definition name (e : exn) : jsstring :=
  match e with
  | Error _ => u"Error"
  | TypeError => u"TypeError"
  | Rejection n => n
  end.

Definition message (P : Platform) (e : exn) : jsstring :=
  match e with
  | Error m => m
  | TypeError => TypeError_message P
  | Rejection n => Rejection_message P n
  end.

(** [a || b] on strings *)
Definition or_else (a b : jsstring) : jsstring :=
  match a with
  | [] => b
  | _ => a
  end.

(** The state hooks and the references. An [AbortController] is known
    by the number of controllers created before it; [aborted] lists the
    controllers whose [abort()] was called. The debounce reference is
    left out. *)
Record Component := {
  query : value;
  suggestions : list GeocodeResult;
  isLoadingSuggestions : bool;
  selectedResult : option GeocodeResult;
  status : option StatusMessage;
  isSearching : bool;
  searchAbortRef : option nat;
  mountedRef : bool;
  controllers : nat;
  aborted : list nat
}.

Definition setQuery (v : value) (st : Component) : Component :=
  {| query := v; suggestions := suggestions st;
     isLoadingSuggestions := isLoadingSuggestions st;
     selectedResult := selectedResult st; status := status st;
     isSearching := isSearching st; searchAbortRef := searchAbortRef st;
     mountedRef := mountedRef st; controllers := controllers st;
     aborted := aborted st |}.

Definition setSuggestions (l : list GeocodeResult) (st : Component) : Component :=
  {| query := query st; suggestions := l;
     isLoadingSuggestions := isLoadingSuggestions st;
     selectedResult := selectedResult st; status := status st;
     isSearching := isSearching st; searchAbortRef := searchAbortRef st;
     mountedRef := mountedRef st; controllers := controllers st;
     aborted := aborted st |}.

Definition setIsLoadingSuggestions (b : bool) (st : Component) : Component :=
  {| query := query st; suggestions := suggestions st;
     isLoadingSuggestions := b;
     selectedResult := selectedResult st; status := status st;
     isSearching := isSearching st; searchAbortRef := searchAbortRef st;
     mountedRef := mountedRef st; controllers := controllers st;
     aborted := aborted st |}.

Definition setSelectedResult (c : option GeocodeResult) (st : Component) : Component :=
  {| query := query st; suggestions := suggestions st;
     isLoadingSuggestions := isLoadingSuggestions st;
     selectedResult := c; status := status st;
     isSearching := isSearching st; searchAbortRef := searchAbortRef st;
     mountedRef := mountedRef st; controllers := controllers st;
     aborted := aborted st |}.

Definition setStatus (m : option StatusMessage) (st : Component) : Component :=
  {| query := query st; suggestions := suggestions st;
     isLoadingSuggestions := isLoadingSuggestions st;
     selectedResult := selectedResult st; status := m;
     isSearching := isSearching st; searchAbortRef := searchAbortRef st;
     mountedRef := mountedRef st; controllers := controllers st;
     aborted := aborted st |}.

Definition setIsSearching (b : bool) (st : Component) : Component :=
  {| query := query st; suggestions := suggestions st;
     isLoadingSuggestions := isLoadingSuggestions st;
     selectedResult := selectedResult st; status := status st;
     isSearching := b; searchAbortRef := searchAbortRef st;
     mountedRef := mountedRef st; controllers := controllers st;
     aborted := aborted st |}.

Definition set_mountedRef (b : bool) (st : Component) : Component :=
  {| query := query st; suggestions := suggestions st;
     isLoadingSuggestions := isLoadingSuggestions st;
     selectedResult := selectedResult st; status := status st;
     isSearching := isSearching st; searchAbortRef := searchAbortRef st;
     mountedRef := b; controllers := controllers st;
     aborted := aborted st |}.

(** [searchAbortRef.current?.abort()] *)
Definition abort_search (st : Component) : Component :=
  match searchAbortRef st with
  | None => st
  | Some c =>
    {| query := query st; suggestions := suggestions st;
       isLoadingSuggestions := isLoadingSuggestions st;
       selectedResult := selectedResult st; status := status st;
       isSearching := isSearching st; searchAbortRef := searchAbortRef st;
       mountedRef := mountedRef st; controllers := controllers st;
       aborted := c :: aborted st |}
  end.

(** [const controller = new AbortController();
     searchAbortRef.current = controller;] *)
Definition new_search_controller (st : Component) : Component :=
  {| query := query st; suggestions := suggestions st;
     isLoadingSuggestions := isLoadingSuggestions st;
     selectedResult := selectedResult st; status := status st;
     isSearching := isSearching st; searchAbortRef := Some (controllers st);
     mountedRef := mountedRef st; controllers := S (controllers st);
     aborted := aborted st |}.

(** The state of the first render, and the effect that runs on mount
    with its clean-up. *)
Definition initial (initialAddress : option jsstring) : Component :=
  {| query := str (match initialAddress with Some a => a | None => [] end);
     suggestions := []; isLoadingSuggestions := false;
     selectedResult := None; status := None; isSearching := false;
     searchAbortRef := None; mountedRef := false; controllers := 0%nat;
     aborted := [] |}.

Definition mount (st : Component) : Component := set_mountedRef true st.

Definition unmount (st : Component) : Component :=
  abort_search (set_mountedRef false st).

Definition formatCoordinate (value : value) : result jsstring :=
  match value with
  | Some (JNum x) => Ok (toFixed x 6)
  | _ => Throw TypeError
  end.

Definition resolvedProvider (env : Env) (provider : option Provider) : Provider :=
  match provider with
  | Some p => p
  | None => if configured (VITE_GOOGLE_KEY env) then google else nominatim
  end.

(** Where an [async] handler stands once the event is handled: it has
    returned; it has thrown, so that the promise it returns is rejected
    and nobody handles it; or it awaits a call made with the given
    text ([searchAddress(query, ...)], [writeText(value)]). *)
Inductive started :=
| Returned (st : Component)
| Threw (st : Component) (e : exn)
| Awaits (st : Component) (argument : jsstring).

Definition state_of (s : started) : Component :=
  match s with
  | Returned st | Threw st _ | Awaits st _ => st
  end.

Definition no_matches := u"No se encontraron coincidencias.".
Definition suggestions_failed :=
  u"Ocurrió un error al obtener sugerencias. Verifica tu conexión.".
Definition write_an_address := u"Escribe una dirección antes de buscar.".
Definition no_results_in_city :=
  u"No se encontraron resultados para esa dirección en Bogotá.".
Definition search_failed :=
  u"No se pudo completar la búsqueda. Revisa tu conexión e inténtalo de nuevo.".
Definition copied := u"Coordenadas copiadas al portapapeles.".
Definition copy_failed := u"No se pudieron copiar las coordenadas. Copia manualmente.".

Definition says (t : StatusType) (m : jsstring) : option StatusMessage :=
  Some {| type := t; text := m |}.

(** The [catch] clause the handlers share, up to the fallback text. *)
Definition caught (P : Platform) (fallback : jsstring) (e : exn)
  (st : Component) : Component :=
  if str_eqb (name e) (u"AbortError") then st
  else setStatus (says error (or_else (message P e) fallback)) st.

(** [fetchSuggestions(value)] up to its [await]. *)
Definition fetchSuggestions_start (value : value) (st : Component) : started :=
  let st := abort_search st in
  match value with
  | Some (JStr s) =>
    match trim s with
    | [] => Returned (setStatus None (setSuggestions [] st))
    | _ => Awaits (setIsLoadingSuggestions true (new_search_controller st)) s
    end
  | _ => Threw st TypeError
  end.

(** [fetchSuggestions] from the outcome of the search on: the rest of
    the [try] block or the [catch] clause, then the [finally] clause. *)
Definition fetchSuggestions_resume (P : Platform)
  (outcome : result (list GeocodeResult)) (st : Component) : Component :=
  let st :=
    match outcome with
    | Ok results =>
      if negb (mountedRef st) then st
      else
        let st := setSuggestions results st in
        match results with
        | [] => setStatus (says info no_matches) st
        | _ => setStatus None st
        end
    | Throw e => caught P suggestions_failed e st
    end in
  if mountedRef st then setIsLoadingSuggestions false st else st.

(** The effect that follows a change of the input, up to its timer:
    a blank text clears the suggestions and the status; any other text
    arms the timer, which will call [fetchSuggestions] with the text
    returned here. [query.trim()] throws when the input does not hold a
    string. *)
Definition query_effect (st : Component) : result (Component * option value) :=
  match query st with
  | Some (JStr s) =>
    match trim s with
    | [] => Ok (setStatus None (setSuggestions [] st), None)
    | _ => Ok (st, Some (query st))
    end
  | _ => Throw TypeError
  end.

Definition handleSuggestionClick (c : GeocodeResult) (st : Component) : Component :=
  setStatus None (setSuggestions [] (setQuery (label c) (setSelectedResult (Some c) st))).

(** [handleSearch(event)] up to its [await]. *)
Definition handleSearch_start (st : Component) : started :=
  let st := abort_search st in
  match query st with
  | Some (JStr s) =>
    match trim s with
    | [] => Returned (setStatus (says info write_an_address) st)
    | _ => Awaits (setIsSearching true (new_search_controller st)) s
    end
  | _ => Threw st TypeError
  end.

Definition handleSearch_resume (P : Platform)
  (outcome : result (list GeocodeResult)) (st : Component) : Component :=
  let st :=
    match outcome with
    | Ok results =>
      if negb (mountedRef st) then st
      else
        match results with
        | [] =>
          setSuggestions []
            (setSelectedResult None (setStatus (says info no_results_in_city) st))
        | first :: _ =>
          setStatus None
            (setSuggestions results
               (setQuery (label first) (setSelectedResult (Some first) st)))
        end
    | Throw e => caught P search_failed e st
    end in
  if mountedRef st then setIsSearching false st else st.

(** A handler that has run to its end: the state, the exception
    nobody handles if it threw, and the requests sent. *)
Record handled := {
  state : Component;
  unhandled : option exn;
  sent : list request
}.

(** The search a handler awaits, and the handler as a whole. [during]
    is what other handlers did to the state while the search was
    pending. *)
Definition search_options (env : Env) (provider : option Provider) : SearchOptions :=
  {| opt_provider := Some (resolvedProvider env provider); opt_limit := None |}.

Definition awaiting_search (env : Env) (provider : option Provider)
  (s : started) (resume : result (list GeocodeResult) -> Component -> Component)
  (during : Component -> Component) (w : World) : handled :=
  match s with
  | Returned st => {| state := st; unhandled := None; sent := [] |}
  | Threw st e => {| state := st; unhandled := Some e; sent := [] |}
  | Awaits st q =>
    let '(outcome, log) := run (searchAddress env q (search_options env provider)) w in
    {| state := resume outcome (during st); unhandled := None; sent := log |}
  end.

Definition fetchSuggestions (env : Env) (provider : option Provider) (P : Platform)
  (value : value) (during : Component -> Component) (st : Component) (w : World)
  : handled :=
  awaiting_search env provider (fetchSuggestions_start value st)
                  (fetchSuggestions_resume P) during w.

Definition handleSearch (env : Env) (provider : option Provider) (P : Platform)
  (during : Component -> Component) (st : Component) (w : World) : handled :=
  awaiting_search env provider (handleSearch_start st)
                  (handleSearch_resume P) during w.

(** [handleCopy] up to its [await]: the text to copy. *)
Definition handleCopy_start (st : Component) : started :=
  match selectedResult st with
  | None => Returned st
  | Some c =>
    match (la <- formatCoordinate (lat c) ;;
           lo <- formatCoordinate (lng c) ;;
           Ok (la ++ u"," ++ lo))%result with
    | Throw e => Threw st e
    | Ok value => Awaits st value
    end
  end.

(** [handleCopy] from the outcome of [writeText] on. *)
Definition handleCopy_resume (P : Platform) (outcome : result unit)
  (st : Component) : Component :=
  match outcome with
  | Ok _ => setStatus (says info copied) st
  | Throw e => setStatus (says error (or_else (message P e) copy_failed)) st
  end.

(** [handleCopy] as a whole: the state, the exception nobody handles
    and the text handed to the clipboard. Where [navigator.clipboard]
    is undefined the call throws inside the [try] block. *)
Record copy := {
  after : Component;
  uncaught : option exn;
  written : option jsstring
}.

Definition handleCopy (P : Platform) (during : Component -> Component)
  (st : Component) : copy :=
  match handleCopy_start st with
  | Returned st => {| after := st; uncaught := None; written := None |}
  | Threw st e => {| after := st; uncaught := Some e; written := None |}
  | Awaits st value =>
    match clipboard P with
    | None =>
      {| after := handleCopy_resume P (Throw TypeError) st;
         uncaught := None; written := None |}
    | Some writeText =>
      {| after := handleCopy_resume P (await (writeText value)) (during st);
         uncaught := None; written := Some value |}
    end
  end.

(** What the component shows of a search: the text of the input, the
    suggestions, the selected result and the status message. *)
Definition view (st : Component)
  : value * list GeocodeResult * option GeocodeResult * option StatusMessage :=
  (query st, suggestions st, selectedResult st, status st).

(** The states the component goes through: the handlers and the two
    halves of the [async] handlers, in any order and with any outcome
    of the calls they await. *)
Inductive reachable (P : Platform) : Component -> Prop :=
| reach_initial initialAddress : reachable P (initial initialAddress)
| reach_mount st : reachable P st -> reachable P (mount st)
| reach_unmount st : reachable P st -> reachable P (unmount st)
| reach_change st s : reachable P st -> reachable P (setQuery (str s) st)
| reach_click st c : reachable P st -> reachable P (handleSuggestionClick c st)
| reach_suggest st value :
    reachable P st -> reachable P (state_of (fetchSuggestions_start value st))
| reach_suggested st outcome :
    reachable P st -> reachable P (fetchSuggestions_resume P outcome st)
| reach_search st :
    reachable P st -> reachable P (state_of (handleSearch_start st))
| reach_searched st outcome :
    reachable P st -> reachable P (handleSearch_resume P outcome st)
| reach_copied st outcome :
    reachable P st -> reachable P (handleCopy_resume P outcome st)
| reach_query st st' armed :
    reachable P st -> query_effect st = Ok (st', armed) -> reachable P st'.

End Component.

(* ===================================================================== *)
(** ** Further worlds and states *)
(* ===================================================================== *)

Module Cases.

Import Scenario.

(** A network on which every call is rejected with the given name. *)
Definition rejecting (name : jsstring) : World :=
  {| net := fun _ _ => Rejects name; arrival := [] |}.

(** HTTP 429, with a body that is not JSON. *)
Definition too_many_requests : response :=
  {| Geocode.status := 429; body := Rejects (u"SyntaxError") |}.

(** The prediction call returns three predictions; the search is then
    aborted, so that every detail call is rejected. *)
Definition aborted_after_predictions : World :=
  {| net := fun n _ =>
       match n with
       | O => Fulfils (json_response 200 (autocomplete_ok three))
       | S _ => Rejects (u"AbortError")
       end;
     arrival := [1; 0; 2]%nat |}.

(** A platform: the messages of a browser, and a clipboard that
    accepts every text. *)
Definition browser : Component.Platform :=
  {| Component.TypeError_message := u"Cannot read properties of undefined";
     Component.Rejection_message :=
       fun name => if str_eqb name (u"AbortError")
                   then u"The user aborted a request."
                   else u"Failed to fetch";
     Component.clipboard := Some (fun _ => Fulfils tt) |}.

(** The mounted component with a text typed in the input. *)
Definition typing (s : jsstring) : Component.Component :=
  Component.setQuery (str s) (Component.mount (Component.initial None)).

(** A candidate whose label is missing. *)
Definition unlabelled : GeocodeResult :=
  {| id := str (u"4.6486,-74.0628"); label := None;
     lat := Some (JNum bogota_lat); lng := Some (JNum bogota_lng);
     raw := Some (JObj []); provider := nominatim; placeId := None |}.

End Cases.

(* ===================================================================== *)
(** * Properties *)
(* ===================================================================== *)

(** The coercions and accessors are kept folded by [simpl]; they are
    unfolded where a proof needs their cases. *)
#[local] Arguments truthy : simpl never.
#[local] Arguments is_string : simpl never.
#[local] Arguments get : simpl never.
#[local] Arguments get_opt : simpl never.
#[local] Arguments index0 : simpl never.
#[local] Arguments ok : simpl never.
#[local] Arguments decode_utf8 : simpl never.
#[local] Arguments encodeQuery : simpl never.
#[local] Arguments usv : simpl never.

(** ** The run-time functions on sample values *)

Example utf16_literal : u"Bogotá" = [66; 111; 103; 111; 116; 225]%N.
Proof. reflexivity. Qed.

Example trim_unicode :
  trim ([160; 9] ++ u"Cra 7" ++ [12288; 10])%N = u"Cra 7".
Proof. reflexivity. Qed.

Example number_of_literal :
  StringToNumber (u"4.6486") = S754_finite false 5233858306948622 (-50).
Proof. vm_compute. reflexivity. Qed.

Example number_to_string :
  NumberToString (StringToNumber (u"-74.0628")) = u"-74.0628"
  /\ NumberToString (of_Z 123456789) = u"123456789"
  /\ NumberToString (StringToNumber (u"0.1e-6")) = u"1e-7"
  /\ NumberToString (StringToNumber (u"1e21")) = u"1e+21"
  /\ NumberToString (StringToNumber (u"  0x1F ")) = u"31"
  /\ NumberToString (StringToNumber (u"4.90")) = u"4.9".
Proof. repeat split; vm_compute; reflexivity. Qed.

Example to_fixed :
  toFixed (StringToNumber (u"1.005")) 2 = u"1.00"
  /\ toFixed (StringToNumber (u"8.345")) 2 = u"8.35"
  /\ toFixed (StringToNumber (u"2.5")) 0 = u"3"
  /\ toFixed (StringToNumber (u"-0.0000001")) 6 = u"-0.000000"
  /\ toFixed (StringToNumber (u"1e21")) 6 = u"1e+21"
  /\ toFixed NaN 6 = u"NaN".
Proof. repeat split; vm_compute; reflexivity. Qed.

Example coercions :
  ToString (Some (JArr [JNum (of_Z 1); JNull; JStr (u"a")])) = Ok (u"1,,a")
  /\ ToString (Some (JObj [])) = Ok (u"[object Object]")
  /\ ToString (Some (JObj [(u"toString", JNull)])) = Throw TypeError
  /\ ToNumber (Some (JArr [JStr (u"7")])) = Ok (of_Z 7)
  /\ ToNumber None = Ok NaN
  /\ truthy (Some (JObj [])) = true
  /\ truthy (Some (JStr [])) = false.
Proof. repeat split; vm_compute; reflexivity. Qed.

Example slice_limits :
  slice0 [1; 2; 3]%nat DEFAULT_LIMIT = [1; 2; 3]%nat
  /\ slice0 [1; 2; 3]%nat (of_Z 2) = [1; 2]%nat
  /\ slice0 [1; 2; 3]%nat (of_Z (-1)) = [1; 2]%nat
  /\ slice0 [1; 2; 3]%nat NaN = [].
Proof. repeat split; vm_compute; reflexivity. Qed.

Example location_bias : locationbias = u"rectangle:4.47,-74.25|4.9,-73.99".
Proof. vm_compute. reflexivity. Qed.

(** ** [toFixed] on coordinates *)

Lemma magnitude_positive :
  forall m e, 0 < fst (magnitude m e) /\ 0 < snd (magnitude m e).
Proof.
  intros m [|k|k]; unfold magnitude; cbn [fst snd]; split; lia.
Qed.

(** The integer [toFixed] prints is the one nearest to the scaled
    magnitude, the larger one on a tie:
    [x * 10^f - 1/2 < n <= x * 10^f + 1/2] for [x = P / Q]. *)
Lemma fixed_integer_nearest :
  forall m e f,
    0 <= f ->
    let P := fst (magnitude m e) in
    let Q := snd (magnitude m e) in
    let n := fixed_integer m e f in
    2 * P * 10 ^ f - Q < 2 * Q * n <= 2 * P * 10 ^ f + Q.
Proof.
  intros m e f Hf P Q n.
  destruct (magnitude_positive m e) as [HP HQ]. fold P Q in HP, HQ.
  assert (Hn : n = (2 * P * 10 ^ f + Q) / (2 * Q)).
  { unfold n, fixed_integer, P, Q. now destruct (magnitude m e). }
  pose proof (Z.div_mod (2 * P * 10 ^ f + Q) (2 * Q) ltac:(lia)) as Hdiv.
  pose proof (Z.mod_pos_bound (2 * P * 10 ^ f + Q) (2 * Q) ltac:(lia)) as Hmod.
  rewrite <- Hn in Hdiv. lia.
Qed.

(** The digit string of a natural number denotes that number. *)
Lemma digits_value_acc :
  forall base ds acc,
    fold_left (fun a d => a * base + d) ds acc
    = acc * base ^ Z.of_nat (List.length ds) + digits_value base ds.
Proof.
  intros base ds. unfold digits_value.
  induction ds as [|d ds IH]; intros acc.
  - simpl. lia.
  - cbn [fold_left List.length]. rewrite IH, (IH (0 * base + d)).
    rewrite Nat2Z.inj_succ, Z.pow_succ_r by lia. ring.
Qed.

Lemma decimal_value_cons :
  forall c l,
    decimal_value (c :: l)
    = (Z.of_N c - 48) * 10 ^ Z.of_nat (List.length l) + decimal_value l.
Proof.
  intros c l. unfold decimal_value, digits_value. cbn [map fold_left].
  rewrite digits_value_acc, length_map. unfold digits_value. ring.
Qed.

Lemma digits_fuel_value :
  forall fuel n acc,
    (n < 2 ^ N.of_nat fuel)%N ->
    decimal_value (digits_fuel fuel n acc)
    = Z.of_N n * 10 ^ Z.of_nat (List.length acc) + decimal_value acc.
Proof.
  induction fuel as [|fuel IH]; intros n acc Hn.
  - simpl in Hn. assert (n = 0%N) as -> by lia. simpl. lia.
  - cbn [digits_fuel].
    assert (Hdm : Z.of_N n = 10 * Z.of_N (n / 10) + Z.of_N (n mod 10)).
    { rewrite (N.div_mod n 10) at 1 by lia.
      rewrite N2Z.inj_add, N2Z.inj_mul. reflexivity. }
    destruct (n <? 10)%N eqn:E.
    + apply N.ltb_lt in E. rewrite decimal_value_cons.
      rewrite N.mod_small by exact E. rewrite N2Z.inj_add. simpl (Z.of_N 48). ring.
    + apply N.ltb_ge in E. rewrite IH.
      * rewrite decimal_value_cons. cbn [List.length].
        rewrite Nat2Z.inj_succ, Z.pow_succ_r by lia.
        rewrite N2Z.inj_add. simpl (Z.of_N 48).
        set (q := Z.of_N (n / 10)) in *. set (m := Z.of_N (n mod 10)) in *.
        rewrite Hdm. ring.
      * rewrite Nat2N.inj_succ, N.pow_succ_r' in Hn.
        apply N.Div0.div_lt_upper_bound. lia.
Qed.

Lemma decimal_value_decimal :
  forall n, decimal_value (decimal n) = Z.of_N n.
Proof.
  intros n. unfold decimal. rewrite digits_fuel_value.
  - simpl. change (decimal_value []) with 0. lia.
  - rewrite Nat2N.inj_succ, N2Nat.id.
    destruct n as [|p]; [reflexivity|].
    apply N.log2_lt_pow2; lia.
Qed.

(** With six fraction digits the text is an integer part of at least
    one digit, a point, and exactly six digits. *)
Lemma fixed_layout_six :
  forall n,
    exists a b,
      fixed_layout n 6 = a ++ u"." ++ b
      /\ (1 <= List.length a)%nat /\ List.length b = 6%nat
      /\ a ++ b = zeros (7 - List.length (decimal (Z.to_N n))) ++ decimal (Z.to_N n).
Proof.
  intros n. unfold fixed_layout.
  set (m := zeros (7 - List.length (decimal (Z.to_N n))) ++ decimal (Z.to_N n)).
  assert (Hlen : (7 <= List.length m)%nat).
  { unfold m, zeros. rewrite length_app, repeat_length. lia. }
  exists (firstn (List.length m - 6) m), (skipn (List.length m - 6) m).
  repeat split.
  - rewrite length_firstn. lia.
  - rewrite length_skipn. lia.
  - apply firstn_skipn.
Qed.

(** Below [10^21] in magnitude, which covers every coordinate,
    [toFixed(6)] is the sign followed by that layout of the nearest
    integer of millionths. *)
Lemma toFixed_six :
  forall s m e,
    fst (magnitude m e) < 10 ^ 21 * snd (magnitude m e) ->
    toFixed (S754_finite s m e) 6
    = (if s then u"-" else []) ++ fixed_layout (fixed_integer m e 6) 6.
Proof.
  intros s m e H. unfold toFixed.
  destruct (magnitude m e) as [P Q]. cbn [fst snd] in H.
  destruct (10 ^ 21 * Q <=? P) eqn:E; [apply Z.leb_le in E; lia|reflexivity].
Qed.

(** ** Running computations *)

Lemma bind_lift_Ok :
  forall (A B : Type) (a : A) (k : A -> IO B) w log,
    bind (lift (Ok a)) k w log = k a w log.
Proof. reflexivity. Qed.

Lemma bind_fetch :
  forall (B : Type) (req : request) (r : response) (k : response -> IO B) w log,
    net w (List.length log) req = Fulfils r ->
    bind (fetch req) k w log = k r w (log ++ [req]).
Proof.
  intros B req r k w log H.
  unfold fetch, fetch_start, bind, lift. now rewrite H.
Qed.

Lemma bind_fetch_rejects :
  forall (B : Type) (req : request) (name : jsstring) (k : response -> IO B) w log,
    net w (List.length log) req = Rejects name ->
    bind (fetch req) k w log = (Throw (Rejection name), log ++ [req]).
Proof.
  intros B req name k w log H.
  unfold fetch, fetch_start, bind, lift. now rewrite H.
Qed.

(** ** Provider resolver *)

(** C4. An explicit provider preference is returned unchanged, whatever
    the credentials; without a preference the resolver returns the
    commercial provider exactly when the commercial credential is
    configured and the free provider otherwise. The resolver is a total
    function of the environment and the preference: it raises nothing
    and issues no request. *)
Theorem resolveProvider_spec :
  forall env : Env,
    (forall p : Provider, resolveProvider env (Some p) = p)
    /\ resolveProvider env None
       = (if configured (VITE_GOOGLE_KEY env) then google else nominatim).
Proof.
  intros env; split; [intros p|]; reflexivity.
Qed.

(** ** Blank queries and missing credentials *)

(** C10. A query whose trimmed form is empty yields the empty sequence
    at once: no request is issued and no credential is read, so no
    configuration error is raised whatever the environment holds. *)
Theorem searchAddress_blank :
  forall (env : Env) (w : World) (query : jsstring) (options : SearchOptions),
    trim query = [] ->
    run (searchAddress env query options) w = (Ok [], []).
Proof.
  intros env w query options H.
  unfold run, searchAddress. now rewrite H.
Qed.

(** C2. For a query whose trimmed form is not empty, a search
    dispatched to a provider whose credential is not configured fails
    with that provider's configuration error, and the log of requests
    is empty. *)
Theorem searchAddress_unconfigured :
  forall (env : Env) (w : World) (query : jsstring) (options : SearchOptions),
    trim query <> [] ->
    configured (credential env (resolveProvider env (opt_provider options))) = false ->
    run (searchAddress env query options) w
    = (Throw (configuration_error (resolveProvider env (opt_provider options))), []).
Proof.
  intros env w query options Hq Hc.
  unfold run, searchAddress.
  destruct (trim query) as [|c q] eqn:E; [congruence|].
  destruct (resolveProvider env (opt_provider options)); simpl in Hc.
  - unfold searchWithNominatim, bind, lift, getNominatimEmail.
    destruct (VITE_NOMINATIM_EMAIL env) as [[|]|]; simpl in *; congruence.
  - unfold searchWithGoogle, bind, lift, getGoogleKey.
    destruct (VITE_GOOGLE_KEY env) as [[|]|]; simpl in *; congruence.
Qed.

(** ** Reverse lookup *)

(** Splitting a request built for a provider into the credential and the
    adapter's own request. *)
Lemma reverse_request_nominatim :
  forall env la lo req,
    reverse_request env nominatim la lo = Ok req ->
    exists email, getNominatimEmail env = Ok email
                  /\ nominatim_reverse_request env email la lo = Ok req.
Proof.
  intros env la lo req H. unfold reverse_request in H.
  destruct (getNominatimEmail env) as [email|e]; simpl in H; [|discriminate].
  now exists email.
Qed.

Lemma reverse_request_google :
  forall env la lo req,
    reverse_request env google la lo = Ok req ->
    exists apiKey, getGoogleKey env = Ok apiKey
                   /\ google_reverse_request apiKey la lo = Ok req.
Proof.
  intros env la lo req H. unfold reverse_request in H.
  destruct (getGoogleKey env) as [apiKey|e]; simpl in H; [|discriminate].
  now exists apiKey.
Qed.

(** The adapters up to the response of their single request. *)
Lemma reverseWithNominatim_fetched :
  forall env w la lo req r,
    reverse_request env nominatim la lo = Ok req ->
    net w 0 req = Fulfils r ->
    run (reverseWithNominatim env la lo) w
    = (if negb (ok r) then Ok None
       else (payload <- await (body r) ;;
             if negb (truthy (Some payload)) then Ok None
             else c <- nominatim_reverse_candidate la lo payload ;;
                  Ok (Some c))%result,
       [req]).
Proof.
  intros env w la lo req r Hreq Hnet.
  apply reverse_request_nominatim in Hreq as (email & He & Hr).
  unfold run, reverseWithNominatim, bind, lift, fetch, fetch_start, ret.
  rewrite He, Hr. simpl. rewrite Hnet. simpl.
  destruct (ok r); simpl; [|reflexivity].
  destruct (body r) as [payload|name]; simpl; [|reflexivity].
  destruct (truthy (Some payload)); simpl; [|reflexivity].
  now destruct (nominatim_reverse_candidate la lo payload).
Qed.

Lemma reverseWithGoogle_fetched :
  forall env w la lo req r,
    reverse_request env google la lo = Ok req ->
    net w 0 req = Fulfils r ->
    run (reverseWithGoogle env la lo) w
    = (if negb (ok r) then Ok None
       else (payload <- await (body r) ;;
             st <- get (Some payload) (u"status") ;;
             if negb (is_string st (u"OK")) then Ok None
             else
               results <- get (Some payload) (u"results") ;;
               len <- get_opt results (u"length") ;;
               if negb (truthy len) then Ok None
               else
                 res <- index0 results ;;
                 c <- google_reverse_candidate la lo res ;;
                 Ok (Some c))%result,
       [req]).
Proof.
  intros env w la lo req r Hreq Hnet.
  apply reverse_request_google in Hreq as (apiKey & Hk & Hr).
  unfold run, reverseWithGoogle, bind, lift, fetch, fetch_start, ret.
  rewrite Hk, Hr. simpl. rewrite Hnet. simpl.
  destruct (ok r); simpl; [|reflexivity].
  destruct (body r) as [payload|name]; simpl; [|reflexivity].
  destruct (get (Some payload) _) as [st|e]; simpl; [|reflexivity].
  destruct (is_string st _); simpl; [|reflexivity].
  destruct (get (Some payload) _) as [results|e]; simpl; [|reflexivity].
  destruct (get_opt results _) as [len|e]; simpl; [|reflexivity].
  destruct (truthy len); simpl; [|reflexivity].
  destruct (index0 results) as [res|e]; simpl; [|reflexivity].
  now destruct (google_reverse_candidate la lo res).
Qed.

(** A value that has a property has every property: [get] fails on
    [null] and [undefined] only. *)
Lemma get_total :
  forall v key key' x, get v key = Ok x -> exists y, get v key' = Ok y.
Proof.
  intros [[| | | | |]|] key key' y H; unfold get in *; try discriminate; eauto;
    destruct (jsstring_eq_dec key' _); eauto.
Qed.

(** Where the soft failure stops: a rejected [fetch] (an abort, a
    network failure), a body that is not JSON and, for the commercial
    provider, a [null] payload make the reverse lookup fail. *)
Lemma reverseGeocode_rejected_fetch :
  forall env w la lo preferred req name,
    reverse_request env (resolveProvider env preferred) la lo = Ok req ->
    net w 0 req = Rejects name ->
    run (reverseGeocode env la lo preferred) w = (Throw (Rejection name), [req]).
Proof.
  intros env w la lo preferred req name Hreq Hnet.
  unfold reverseGeocode, run. destruct (resolveProvider env preferred).
  - apply reverse_request_nominatim in Hreq as (email & He & Hr).
    unfold reverseWithNominatim.
    rewrite He, bind_lift_Ok, Hr, bind_lift_Ok.
    now rewrite (bind_fetch_rejects _ _ name) by exact Hnet.
  - apply reverse_request_google in Hreq as (apiKey & Hk & Hr).
    unfold reverseWithGoogle.
    rewrite Hk, bind_lift_Ok, Hr, bind_lift_Ok.
    now rewrite (bind_fetch_rejects _ _ name) by exact Hnet.
Qed.





(** C8. In a successful free-provider reverse lookup, a payload without
    [display_name] gives the candidate the label made of the two input
    coordinates in [toFixed(6)] form, separated by a comma and a space;
    a payload without [lat] (or [lon]) gives it the input latitude (or
    longitude). At (4.6486, -74.0628) that label is
    "4.648600, -74.062800". *)
Theorem reverse_nominatim_fallbacks :
  (forall (env : Env) (w : World) (la lo : number) (preferred : option Provider)
          (req : request) (r : response) (payload : json)
          (c : GeocodeResult) (log : list request),
      resolveProvider env preferred = nominatim ->
      reverse_request env nominatim la lo = Ok req ->
      net w 0 req = Fulfils r ->
      body r = Fulfils payload ->
      run (reverseGeocode env la lo preferred) w = (Ok (Some c), log) ->
      (get (Some payload) (u"display_name") = Ok None ->
       label c = str (toFixed la 6 ++ u", " ++ toFixed lo 6))
      /\ (get (Some payload) (u"lat") = Ok None -> lat c = Some (JNum la))
      /\ (get (Some payload) (u"lon") = Ok None -> lng c = Some (JNum lo)))
  /\ toFixed (StringToNumber (u"4.6486")) 6 ++ u", "
     ++ toFixed (StringToNumber (u"-74.0628")) 6
     = u"4.648600, -74.062800".
Proof.
  split; [|vm_compute; reflexivity].
  intros env w la lo preferred req r payload c log Hp Hreq Hnet Hb Hrun.
  unfold reverseGeocode in Hrun. rewrite Hp in Hrun.
  rewrite (reverseWithNominatim_fetched _ _ _ _ _ _ Hreq Hnet) in Hrun.
  rewrite Hb in Hrun. simpl in Hrun.
  destruct (negb (ok r)); [discriminate|].
  destruct (negb (truthy (Some payload))); [discriminate|].
  unfold nominatim_reverse_candidate in Hrun.
  destruct (nominatim_id (Some payload)) as [i|e]; simpl in Hrun; [|discriminate].
  destruct (get (Some payload) (u"display_name")) as [name|e];
    simpl in Hrun; [|discriminate].
  destruct (get (Some payload) (u"lat")) as [pla|e]; simpl in Hrun; [|discriminate].
  destruct (ToNumber (nullish_or pla _)) as [la'|e] eqn:Ela;
    simpl in Hrun; [|discriminate].
  destruct (get (Some payload) (u"lon")) as [plo|e]; simpl in Hrun; [|discriminate].
  destruct (ToNumber (nullish_or plo _)) as [lo'|e] eqn:Elo;
    simpl in Hrun; [|discriminate].
  injection Hrun as Hc Hlog. subst c. simpl.
  repeat split; intros H; injection H as H; subst.
  - reflexivity.
  - simpl in Ela. congruence.
  - simpl in Elo. congruence.
Qed.

(** C9. In a successful commercial-provider reverse lookup the
    candidate's latitude and longitude are the input coordinates
    themselves, and its label is the [formatted_address] of the first
    element of the response's [results]. *)
Theorem reverse_google_echoes_input :
  forall (env : Env) (w : World) (la lo : number) (preferred : option Provider)
         (req : request) (r : response) (c : GeocodeResult) (log : list request),
    resolveProvider env preferred = google ->
    reverse_request env google la lo = Ok req ->
    net w 0 req = Fulfils r ->
    run (reverseGeocode env la lo preferred) w = (Ok (Some c), log) ->
    lat c = Some (JNum la) /\ lng c = Some (JNum lo)
    /\ exists (payload : json) (results first : value),
         body r = Fulfils payload
         /\ get (Some payload) (u"results") = Ok results
         /\ index0 results = Ok first
         /\ get first (u"formatted_address") = Ok (label c).
Proof.
  intros env w la lo preferred req r c log Hp Hreq Hnet Hrun.
  unfold reverseGeocode in Hrun. rewrite Hp in Hrun.
  rewrite (reverseWithGoogle_fetched _ _ _ _ _ _ Hreq Hnet) in Hrun.
  destruct (negb (ok r)); [discriminate|].
  destruct (body r) as [payload|name]; simpl in Hrun; [|discriminate].
  destruct (get (Some payload) (u"status")) as [st|e]; simpl in Hrun; [|discriminate].
  destruct (negb (is_string st _)); [discriminate|].
  destruct (get (Some payload) (u"results")) as [results|e] eqn:Er;
    simpl in Hrun; [|discriminate].
  destruct (get_opt results _) as [len|e]; simpl in Hrun; [|discriminate].
  destruct (negb (truthy len)); [discriminate|].
  destruct (index0 results) as [first|e] eqn:Ei; simpl in Hrun; [|discriminate].
  unfold google_reverse_candidate in Hrun.
  destruct (get first (u"place_id")) as [pid|e]; simpl in Hrun; [|discriminate].
  destruct (if is_nullish pid then _ else _) as [fallback|e];
    simpl in Hrun; [|discriminate].
  destruct (get first (u"formatted_address")) as [address|e] eqn:Ea;
    simpl in Hrun; [|discriminate].
  injection Hrun as Hc Hlog. subst c. simpl.
  repeat split. exists payload, results, first. auto.
Qed.

(** ** Promises *)

Section PromiseAll.

Variable A : Type.
Implicit Types (ps : list (promise A)) (order arrival : list nat).
Local Open Scope nat_scope.

(** The first rejection is the reason of a promise that rejects, and
    that promise comes in the order no later than any other that
    rejects. *)
Lemma first_rejection_is_first :
  forall ps order e,
    first_rejection ps order = Some e ->
    exists j, rejects_with ps j e
              /\ forall j' e', rejects_with ps j' e' ->
                               settles_no_later j j' order.
Proof.
  intros ps order e. induction order as [|i rest IH]; simpl; [discriminate|].
  destruct (option_map outcome (nth_error ps i)) as [[a|e0]|] eqn:E.
  - intros H. destruct (IH H) as (j & Hj & Hfirst). exists j. split; [exact Hj|].
    intros j' e' Hj'. apply settles_further; [|eauto].
    intros ->. unfold rejects_with in Hj'. congruence.
  - intros H. injection H as ->. exists i. split; [exact E|].
    intros j' e' _. apply settles_here.
  - intros H. destruct (IH H) as (j & Hj & Hfirst). exists j. split; [exact Hj|].
    intros j' e' Hj'. apply settles_further; [|eauto].
    intros ->. unfold rejects_with in Hj'. congruence.
Qed.

Lemma first_rejection_none :
  forall ps order i,
    first_rejection ps order = None -> In i order ->
    forall e, ~ rejects_with ps i e.
Proof.
  intros ps order i. induction order as [|k rest IH]; simpl; [tauto|].
  intros H [->|Hin] e Hr.
  - unfold rejects_with in Hr. rewrite Hr in H. discriminate.
  - destruct (option_map outcome (nth_error ps k)) as [[a|e0]|];
      try discriminate; exact (IH H Hin e Hr).
Qed.

(** Every position is in the settle order. *)
Lemma settle_order_complete :
  forall ps arrival i, i < List.length ps -> In i (settle_order ps arrival).
Proof.
  intros ps arrival i H. unfold settle_order.
  apply in_or_app; right. apply in_or_app; right.
  apply in_seq. lia.
Qed.

Lemma rejects_with_lt :
  forall ps i e, rejects_with ps i e -> i < List.length ps.
Proof.
  intros ps i e H. unfold rejects_with in H.
  apply nth_error_Some. destruct (nth_error ps i); [discriminate|discriminate].
Qed.

Lemma map_result_Ok_Forall2 :
  forall (B : Type) (f : B -> result A) (l : list B) (vs : list A),
    map_result f l = Ok vs -> Forall2 (fun x v => f x = Ok v) l vs.
Proof.
  intros B f. induction l as [|x l IH]; simpl; intros vs H.
  - injection H as <-. constructor.
  - destruct (f x) as [v|e] eqn:E; simpl in H; [|discriminate].
    destruct (map_result f l) as [vs'|e]; simpl in H; [|discriminate].
    injection H as <-. constructor; auto.
Qed.

(** [Promise.all] rejects as soon as one promise does, with the reason
    of the first promise to reject; it issues no request. *)
Lemma Promise_all_rejects :
  forall ps w log i e0,
    rejects_with ps i e0 ->
    exists j e,
      Promise_all ps w log = (Throw e, log)
      /\ rejects_with ps j e
      /\ forall j' e', rejects_with ps j' e' ->
                       settles_no_later j j' (settle_order ps (arrival w)).
Proof.
  intros ps w log i e0 Hi. unfold Promise_all.
  destruct (first_rejection ps (settle_order ps (arrival w))) as [e|] eqn:E.
  - destruct (first_rejection_is_first _ _ _ E) as (j & Hj & Hfirst).
    exists j, e. auto.
  - exfalso. eapply first_rejection_none; [exact E| |exact Hi].
    apply settle_order_complete. eapply rejects_with_lt; eauto.
Qed.

(** [Promise.all] fulfils exactly when every promise does, with the
    values in the order of the promises, whatever the arrival order. *)
Lemma Promise_all_fulfils :
  forall ps w log vs log',
    Promise_all ps w log = (Ok vs, log') ->
    log' = log
    /\ Forall2 (fun p v => outcome p = Ok v) ps vs
    /\ forall w' log'', Promise_all ps w' log'' = (Ok vs, log'').
Proof.
  intros ps w log vs log' H. unfold Promise_all in H.
  destruct (first_rejection ps (settle_order ps (arrival w))) eqn:E;
    [discriminate|].
  injection H as Hvs <-. split; [reflexivity|].
  pose proof (map_result_Ok_Forall2 _ _ _ _ Hvs) as Hall.
  split; [exact Hall|].
  intros w' log''. unfold Promise_all.
  destruct (first_rejection ps (settle_order ps (arrival w'))) as [e|] eqn:E'.
  - exfalso. destruct (first_rejection_is_first _ _ _ E') as (j & Hj & _).
    eapply first_rejection_none; [exact E| |exact Hj].
    apply settle_order_complete. eapply rejects_with_lt; eauto.
  - now rewrite Hvs.
Qed.

(** A promise that is rejected from the start wins over every pending
    one: [Promise.all] rejects with the reason of the first such
    promise, whatever the arrival order. *)
Lemma first_rejection_settled :
  forall ps' prefix i e rest,
    nth_error ps' i = Some (Settled (Throw e)) ->
    (forall j e', j < i -> nth_error ps' j <> Some (Settled (Throw e'))) ->
    first_rejection (prefix ++ ps')
                    (settled_positions (List.length prefix) ps' ++ rest)
    = Some e.
Proof.
  induction ps' as [|p ps' IH]; intros prefix i e rest Hi Hbefore.
  - destruct i; discriminate.
  - destruct i as [|i]; simpl in Hi.
    + injection Hi as ->. simpl.
      rewrite nth_error_app2, Nat.sub_diag by lia. reflexivity.
    + assert (Hp : forall e', p <> Settled (Throw e')).
      { intros e' ->. apply (Hbefore 0 e'); [lia|reflexivity]. }
      assert (Hrest : first_rejection (prefix ++ p :: ps')
                        (settled_positions (S (List.length prefix)) ps' ++ rest)
                      = Some e).
      { replace (prefix ++ p :: ps') with ((prefix ++ [p]) ++ ps')
          by (rewrite <- app_assoc; reflexivity).
        replace (S (List.length prefix)) with (List.length (prefix ++ [p]))
          by (rewrite length_app; simpl; lia).
        apply (IH _ i); [exact Hi|].
        intros j e' Hj. apply (Hbefore (S j) e'). lia. }
      destruct p as [[a|e0]|r]; simpl.
      * rewrite nth_error_app2, Nat.sub_diag by lia. simpl. exact Hrest.
      * exfalso. now apply (Hp e0).
      * exact Hrest.
Qed.

Lemma Promise_all_settled_first :
  forall ps w log i e,
    nth_error ps i = Some (Settled (Throw e)) ->
    (forall j e', j < i -> nth_error ps j <> Some (Settled (Throw e'))) ->
    Promise_all ps w log = (Throw e, log).
Proof.
  intros ps w log i e Hi Hbefore. unfold Promise_all, settle_order.
  now rewrite (first_rejection_settled ps [] i e _ Hi Hbefore).
Qed.

End PromiseAll.

(** ** Forward search: the adapters up to their first response *)

Lemma google_reverse_request_Ok :
  forall apiKey la lo, exists req, google_reverse_request apiKey la lo = Ok req.
Proof. intros apiKey la lo. eexists. reflexivity. Qed.

Lemma search_request_nominatim :
  forall env query limit req,
    search_request env nominatim query limit = Ok req ->
    exists email, getNominatimEmail env = Ok email
                  /\ nominatim_search_request env email query limit = Ok req.
Proof.
  intros env query limit req H. unfold search_request in H.
  destruct (getNominatimEmail env) as [email|e]; simpl in H; [|discriminate].
  now exists email.
Qed.

Lemma search_request_google :
  forall env query limit req,
    search_request env google query limit = Ok req ->
    exists apiKey, getGoogleKey env = Ok apiKey
                   /\ autocomplete_request apiKey query = Ok req.
Proof.
  intros env query limit req H. unfold search_request in H.
  destruct (getGoogleKey env) as [apiKey|e]; simpl in H; [|discriminate].
  now exists apiKey.
Qed.

Lemma searchWithNominatim_fetched :
  forall env w query limit req r,
    search_request env nominatim query limit = Ok req ->
    net w 0 req = Fulfils r ->
    run (searchWithNominatim env query limit) w
    = (if negb (ok r) then
         if status r =? 429 then Throw (Error rate_limited)
         else Throw (Error nominatim_failed)
       else
         (payload <- await (body r) ;;
          match payload with
          | JArr items => map_result nominatim_candidate items
          | _ => Throw TypeError
          end)%result,
       [req]).
Proof.
  intros env w query limit req r Hreq Hnet.
  apply search_request_nominatim in Hreq as (email & He & Hr).
  unfold run, searchWithNominatim.
  rewrite He, bind_lift_Ok, Hr, bind_lift_Ok, (bind_fetch _ _ r) by exact Hnet.
  simpl. destruct (ok r); simpl.
  - unfold bind, lift. destruct (body r) as [payload|name]; simpl; [|reflexivity].
    now destruct payload.
  - now destruct (status r =? 429).
Qed.

Lemma searchWithGoogle_fetched :
  forall env w query limit apiKey req r,
    getGoogleKey env = Ok apiKey ->
    autocomplete_request apiKey query = Ok req ->
    net w 0 req = Fulfils r ->
    run (searchWithGoogle env query limit) w
    = (if negb (ok r) then throw (Error autocomplete_failed)
       else
         autocompletePayload <- lift (await (body r)) ;;
         st <- lift (get (Some autocompletePayload) (u"status")) ;;
         if negb (is_string st (u"OK")) && negb (is_string st (u"ZERO_RESULTS"))
         then throw (Error (googleStatusMessage st))
         else
           p <- lift (get (Some autocompletePayload) (u"predictions")) ;;
           let predictions := nullish_or p (Some (JArr [])) in
           len <- lift (get predictions (u"length")) ;;
           if negb (truthy len) then ret []
           else
             match predictions with
             | Some (JArr items) =>
               geocodePromises <- mapIO (detail_task apiKey) (slice0 items limit) ;;
               Promise_all geocodePromises
             | _ => throw TypeError
             end)%io w [req].
Proof.
  intros env w query limit apiKey req r Hk Hreq Hnet.
  unfold run, searchWithGoogle.
  rewrite Hk, bind_lift_Ok, Hreq, bind_lift_Ok, (bind_fetch _ _ r) by exact Hnet.
  reflexivity.
Qed.

(** ** The detail phase of the commercial forward search *)

Lemma detail_request_place_id :
  forall apiKey prediction pid dreq,
    detail_request apiKey prediction = Ok (pid, dreq) ->
    get (Some prediction) (u"place_id") = Ok pid.
Proof.
  intros apiKey prediction pid dreq H. unfold detail_request in H.
  destruct (get (Some prediction) (u"place_id")) as [v|e]; simpl in H; [|discriminate].
  destruct (encodeQuery _) as [q|e]; simpl in H; [|discriminate].
  congruence.
Qed.

(** What a fulfilled detail call contributes: the prediction's place id
    and description, and the location of the first result. *)
Lemma detail_result_Ok :
  forall prediction pid fetched c,
    detail_result prediction pid fetched = Ok c ->
    id c = pid /\ placeId c = Some pid /\ provider c = google
    /\ get (Some prediction) (u"description") = Ok (label c)
    /\ exists r payload results,
         fetched = Fulfils r /\ ok r = true /\ body r = Fulfils payload
         /\ get (Some payload) (u"status") = Ok (str (u"OK"))
         /\ get (Some payload) (u"results") = Ok results
         /\ index0 results = Ok (raw c).
Proof.
  intros prediction pid fetched c H. unfold detail_result in H.
  destruct fetched as [r|name]; simpl in H; [|discriminate].
  destruct (ok r) eqn:Eok; simpl in H; [|discriminate].
  destruct (body r) as [payload|name] eqn:Eb; simpl in H; [|discriminate].
  destruct (get (Some payload) (u"status")) as [st|e] eqn:Es;
    simpl in H; [|discriminate].
  destruct (is_string st (u"OK")) eqn:Est; simpl in H; [|discriminate].
  destruct (get (Some payload) (u"results")) as [results|e] eqn:Er;
    simpl in H; [|discriminate].
  destruct (get_opt results (u"length")) as [len|e]; simpl in H; [|discriminate].
  destruct (truthy len); simpl in H; [|discriminate].
  destruct (index0 results) as [res|e] eqn:Ei; simpl in H; [|discriminate].
  destruct (get (Some prediction) (u"description")) as [d|e] eqn:Ed;
    simpl in H; [|discriminate].
  destruct (get res (u"geometry")) as [g|e]; simpl in H; [|discriminate].
  destruct (get g (u"location")) as [l|e]; simpl in H; [|discriminate].
  destruct (get l (u"lat")) as [la|e]; simpl in H; [|discriminate].
  destruct (get l (u"lng")) as [lo|e]; simpl in H; [|discriminate].
  injection H as <-. simpl. repeat split; auto.
  exists r, payload, results. repeat split; auto.
  unfold is_string, str_eqb in Est.
  destruct st as [[| | |s| |]|]; try discriminate.
  destruct (jsstring_eq_dec s (u"OK")); [subst; exact Es|discriminate].
Qed.

(** The coordinates of a detail candidate are the values at
    [geometry.location] of the result kept as [raw]. *)
Lemma detail_result_coordinates :
  forall prediction pid fetched c,
    detail_result prediction pid fetched = Ok c ->
    exists geometry location,
      get (raw c) (u"geometry") = Ok geometry
      /\ get geometry (u"location") = Ok location
      /\ get location (u"lat") = Ok (lat c)
      /\ get location (u"lng") = Ok (lng c).
Proof.
  intros prediction pid fetched c H. unfold detail_result in H.
  destruct fetched as [r|name]; cbn [await rbind] in H; [|discriminate H].
  destruct (negb (ok r)); [discriminate H|].
  destruct (body r) as [payload|name]; cbn [await rbind] in H; [|discriminate H].
  destruct (get (Some payload) (u"status")) as [st|e0]; cbn [rbind] in H;
    [|discriminate H].
  destruct (negb (is_string st (u"OK"))); [discriminate H|].
  destruct (get (Some payload) (u"results")) as [results|e0]; cbn [rbind] in H;
    [|discriminate H].
  destruct (get_opt results (u"length")) as [len|e0]; cbn [rbind] in H;
    [|discriminate H].
  destruct (negb (truthy len)); [discriminate H|].
  destruct (index0 results) as [res|e0]; cbn [rbind] in H; [|discriminate H].
  destruct (get (Some prediction) (u"description")) as [d|e0]; cbn [rbind] in H;
    [|discriminate H].
  destruct (get res (u"geometry")) as [g|e0] eqn:E6; cbn [rbind] in H;
    [|discriminate H].
  destruct (get g (u"location")) as [l|e0] eqn:E7; cbn [rbind] in H;
    [|discriminate H].
  destruct (get l (u"lat")) as [la|e0] eqn:E8; cbn [rbind] in H; [|discriminate H].
  destruct (get l (u"lng")) as [lo|e0] eqn:E9; cbn [rbind] in H; [|discriminate H].
  injection H as <-. exists g, l. auto.
Qed.

(** A detail call answered by a response that is not a success rejects:
    with the fixed message on a non-success HTTP status, and with the
    message of the status table otherwise. *)
Lemma detail_result_not_success :
  forall prediction pid r,
    not_success google r ->
    (ok r = false
     /\ detail_result prediction pid (Fulfils r) = Throw (Error detail_failed))
    \/ (exists payload st,
          body r = Fulfils payload
          /\ get (Some payload) (u"status") = Ok st
          /\ detail_result prediction pid (Fulfils r)
             = Throw (Error (googleStatusMessage st))).
Proof.
  intros prediction pid r H. unfold detail_result. simpl.
  destruct (ok r) eqn:Eok; simpl; [|now left].
  right. inversion H as [p r' Hok | | r' payload st Hb Hs Hn
                         | r' payload results len Hb Hr Hl Ht]; subst.
  - congruence.
  - exists payload, st. rewrite Hb; simpl. rewrite Hs; simpl. rewrite Hn; simpl.
    auto.
  - destruct (get_total _ _ (u"status") _ Hr) as [st Hs].
    exists payload, st. rewrite Hb; simpl. rewrite Hs; simpl.
    destruct (is_string st (u"OK")); simpl; [|auto].
    rewrite Hr; simpl. rewrite Hl; simpl. rewrite Ht; simpl. auto.
Qed.

Section DetailTasks.

Variables (apiKey : jsstring) (w : World).
Local Open Scope nat_scope.

Lemma mapIO_cons :
  forall (A B : Type) (f : A -> IO B) (x : A) (rest : list A) log,
    mapIO f (x :: rest) w log
    = match f x w log with
      | (Ok y, log1) =>
        match mapIO f rest w log1 with
        | (Ok ys, log2) => (Ok (y :: ys), log2)
        | (Throw e, log2) => (Throw e, log2)
        end
      | (Throw e, log1) => (Throw e, log1)
      end.
Proof. reflexivity. Qed.

(** Starting a detail call never throws: a failure before the request
    is issued gives a promise that is rejected from the start. *)
Lemma detail_task_run :
  forall prediction log,
    detail_task apiKey prediction w log
    = match detail_request apiKey prediction with
      | Throw e => (Ok (Settled (Throw e)), log)
      | Ok (pid, dreq) =>
        (Ok (Pending (detail_result prediction pid (net w (List.length log) dreq))),
         log ++ [dreq])
      end.
Proof.
  intros prediction log. unfold detail_task.
  now destruct (detail_request apiKey prediction) as [[pid dreq]|e].
Qed.

Lemma detail_tasks_total :
  forall l log,
    exists ps log', mapIO (detail_task apiKey) l w log = (Ok ps, log').
Proof.
  induction l as [|prediction l IH]; intros log.
  - now exists [], log.
  - rewrite mapIO_cons, detail_task_run.
    destruct (detail_request apiKey prediction) as [[pid dreq]|e].
    + destruct (IH (log ++ [dreq])) as (ps & log' & ->). eauto.
    + destruct (IH log) as (ps & log' & ->). eauto.
Qed.

(** A retained prediction whose detail call is answered by a failing
    response leaves a rejecting promise among the tasks. *)
Lemma detail_tasks_rejecting :
  forall l log ps log' prediction pid dreq r e,
    mapIO (detail_task apiKey) l w log = (Ok ps, log') ->
    In prediction l ->
    detail_request apiKey prediction = Ok (pid, dreq) ->
    (forall n, net w n dreq = Fulfils r) ->
    detail_result prediction pid (Fulfils r) = Throw e ->
    exists i, rejects_with ps i e.
Proof.
  induction l as [|x l IH]; intros log ps log' prediction pid dreq r e Hrun Hin Hreq Hnet Hres;
    [contradiction|].
  rewrite mapIO_cons, detail_task_run in Hrun.
  destruct Hin as [->|Hin].
  - rewrite Hreq, Hnet in Hrun.
    destruct (mapIO _ l w _) as [[ps'|e'] log1]; [|discriminate].
    injection Hrun as <- _. exists 0. unfold rejects_with; simpl. now rewrite Hres.
  - destruct (detail_request apiKey x) as [[pid' dreq']|e'];
      (destruct (mapIO _ l w _) as [[ps'|e''] log1] eqn:E; [|discriminate]);
      injection Hrun as <- _;
      destruct (IH _ _ _ _ _ _ _ _ E Hin Hreq Hnet Hres) as [i Hi];
      exists (S i); exact Hi.
Qed.

(** When every task fulfils, each retained prediction has issued its
    detail request, at the position of the prediction after the
    requests already logged, and its candidate is built from that
    prediction and from the answer to that request. *)
Lemma detail_tasks_fulfilled :
  forall l log ps log' cs,
    mapIO (detail_task apiKey) l w log = (Ok ps, log') ->
    Forall2 (fun p c => outcome p = Ok c) ps cs ->
    exists reqs,
      log' = log ++ reqs
      /\ List.length cs = List.length l
      /\ forall i prediction,
           nth_error l i = Some prediction ->
           exists pid dreq c,
             detail_request apiKey prediction = Ok (pid, dreq)
             /\ nth_error reqs i = Some dreq
             /\ detail_result prediction pid (net w (List.length log + i) dreq) = Ok c
             /\ nth_error cs i = Some c.
Proof.
  induction l as [|x l IH]; intros log ps log' cs Hrun Hall.
  - injection Hrun as <- <-. inversion Hall; subst.
    exists []. rewrite app_nil_r. repeat split.
    intros [|i] prediction H; discriminate.
  - rewrite mapIO_cons, detail_task_run in Hrun.
    destruct (detail_request apiKey x) as [[pid dreq]|e] eqn:Ereq.
    + destruct (mapIO _ l w _) as [[ps'|e'] log1] eqn:E; [|discriminate].
      injection Hrun as <- <-.
      inversion Hall as [|p c ps0 cs' Hc Hall']; subst. simpl in Hc.
      destruct (IH _ _ _ _ E Hall') as (reqs & -> & Hlen & Hnth).
      exists (dreq :: reqs). rewrite <- app_assoc. simpl.
      repeat split; [congruence|].
      intros [|i] prediction H; simpl in H.
      * injection H as <-. exists pid, dreq, c.
        rewrite Nat.add_0_r. auto.
      * destruct (Hnth i prediction H) as (pid' & dreq' & c' & H1 & H2 & H3 & H4).
        exists pid', dreq', c'. repeat split; auto.
        rewrite length_app in H3. simpl in H3.
        now replace (List.length log + S i) with (List.length log + 1 + i) by lia.
    + destruct (mapIO _ l w _) as [[ps'|e'] log1] eqn:E; [|discriminate].
      injection Hrun as <- <-.
      inversion Hall as [|p c ps0 cs' Hc Hall']; subst. discriminate.
Qed.

End DetailTasks.

(** ** Commercial forward search *)

(** The Number of a positive integer is neither a zero nor NaN. *)
Lemma truthy_of_positive :
  forall neg p, truthy (Some (JNum (of_positive neg p))) = true.
Proof.
  intros neg p. unfold of_positive.
  destruct (Zpos (digits2_pos p) <=? prec); [reflexivity|].
  repeat match goal with
         | |- context [if ?c then _ else _] => destruct c
         | |- context [match ?c with Eq => _ | Lt => _ | Gt => _ end] => destruct c
         end; reflexivity.
Qed.

(** The [length] of an array is truthy exactly when the array has an
    element. *)
Lemma truthy_length :
  forall (items : list json) (len : value),
    get (Some (JArr items)) (u"length") = Ok len ->
    truthy len = match items with [] => false | _ => true end.
Proof.
  intros items len H. unfold get in H.
  destruct (jsstring_eq_dec (u"length") (u"length")); [|congruence].
  injection H as <-. destruct items as [|x items]; [reflexivity|].
  change (List.length (x :: items)) with (S (List.length items)).
  rewrite Nat2Z.inj_succ. unfold Z.succ.
  destruct (Z.of_nat (List.length items)) eqn:E; try apply truthy_of_positive.
  lia.
Qed.

Lemma get_length_array :
  forall items : list json,
    exists len, get (Some (JArr items)) (u"length") = Ok len.
Proof.
  intros items. unfold get. destruct (jsstring_eq_dec _ _); eauto.
Qed.

Lemma slice0_nil : forall (A : Type) (e : number), slice0 (@nil A) e = [].
Proof. intros A e. unfold slice0. apply firstn_nil. Qed.

(** Only the network of the world matters to the detail calls. *)
Lemma detail_tasks_net :
  forall apiKey w w' l log,
    net w' = net w ->
    mapIO (detail_task apiKey) l w' log = mapIO (detail_task apiKey) l w log.
Proof.
  intros apiKey w w' l. induction l as [|x l IH]; intros log Hnet; [reflexivity|].
  rewrite !mapIO_cons, !detail_task_run, Hnet.
  destruct (detail_request apiKey x) as [[pid dreq]|e]; now rewrite IH.
Qed.

(** When the prediction phase succeeds with an array of predictions of
    which some are retained, the search is the detail phase. *)
Lemma searchWithGoogle_detail_phase :
  forall env w query limit apiKey req r payload st,
    getGoogleKey env = Ok apiKey ->
    autocomplete_request apiKey query = Ok req ->
    net w 0 req = Fulfils r ->
    ok r = true ->
    body r = Fulfils payload ->
    get (Some payload) (u"status") = Ok st ->
    is_string st (u"OK") || is_string st (u"ZERO_RESULTS") = true ->
    predictions_of payload <> [] ->
    run (searchWithGoogle env query limit) w
    = (geocodePromises <- mapIO (detail_task apiKey)
                                (slice0 (predictions_of payload) limit) ;;
       Promise_all geocodePromises)%io w [req].
Proof.
  intros env w query limit apiKey req r payload st Hk Hreq Hnet Hok Hb Hs Hst Hne.
  rewrite (searchWithGoogle_fetched _ _ _ _ _ _ _ Hk Hreq Hnet).
  rewrite Hok, Hb. simpl. rewrite bind_lift_Ok, Hs, bind_lift_Ok.
  replace (negb (is_string st (u"OK")) && negb (is_string st (u"ZERO_RESULTS")))
    with false
    by (destruct (is_string st (u"OK")), (is_string st (u"ZERO_RESULTS"));
        simpl in *; congruence).
  unfold predictions_of in *.
  destruct (get (Some payload) (u"predictions")) as [[[| | | |items|]|]|e];
    try congruence.
  rewrite bind_lift_Ok. simpl.
  change (nullish_or (Some (JArr items)) (Some (JArr []))) with (Some (JArr items)).
  destruct (get_length_array items) as [len Hlen].
  rewrite Hlen, bind_lift_Ok, (truthy_length _ _ Hlen).
  destruct items; [congruence|reflexivity].
Qed.

(** C1. In a commercial-provider forward search that reaches the detail
    phase, if the detail call of a retained prediction is answered by a
    response that is not a success (non-success HTTP status, status
    other than OK, or no result), the whole search fails: it returns no
    candidate sequence, and the error it raises is the rejection of a
    detail call, the first one to reject in the order in which the calls
    settle. *)
Theorem search_fails_on_detail_failure :
  forall (env : Env) (w : World) (query : jsstring) (options : SearchOptions)
         (apiKey : jsstring) (req : request) (r : response) (payload : json)
         (st : value) (prediction : json) (pid : value) (dreq : request)
         (dr : response),
    resolveProvider env (opt_provider options) = google ->
    trim query <> [] ->
    getGoogleKey env = Ok apiKey ->
    autocomplete_request apiKey query = Ok req ->
    net w 0 req = Fulfils r ->
    ok r = true ->
    body r = Fulfils payload ->
    get (Some payload) (u"status") = Ok st ->
    is_string st (u"OK") || is_string st (u"ZERO_RESULTS") = true ->
    In prediction (slice0 (predictions_of payload) (limit_of options)) ->
    detail_request apiKey prediction = Ok (pid, dreq) ->
    (forall n, net w n dreq = Fulfils dr) ->
    not_success google dr ->
    exists (ps : list (promise GeocodeResult)) (log : list request)
           (j : nat) (e : exn),
      mapIO (detail_task apiKey)
            (slice0 (predictions_of payload) (limit_of options)) w [req]
      = (Ok ps, log)
      /\ run (searchAddress env query options) w = (Throw e, log)
      /\ rejects_with ps j e
      /\ forall j' e', rejects_with ps j' e' ->
                       settles_no_later j j' (settle_order ps (arrival w)).
Proof.
  intros env w query options apiKey req r payload st prediction pid dreq dr
         Hp Hq Hk Hreq Hnet Hok Hb Hs Hst Hin Hdreq Hdnet Hns.
  assert (Hne : predictions_of payload <> []).
  { intros E. rewrite E, slice0_nil in Hin. contradiction. }
  destruct (detail_tasks_total apiKey w
              (slice0 (predictions_of payload) (limit_of options)) [req])
    as (ps & log & Hps).
  assert (Hrej : exists e0, detail_result prediction pid (Fulfils dr) = Throw e0).
  { destruct (detail_result_not_success prediction pid dr Hns)
      as [[_ H]|(p' & st' & _ & _ & H)]; eauto. }
  destruct Hrej as [e0 He0].
  destruct (detail_tasks_rejecting _ _ _ _ _ _ _ _ _ _ _ Hps Hin Hdreq Hdnet He0)
    as [i Hi].
  destruct (Promise_all_rejects _ ps w log i e0 Hi) as (j & e & Hall & Hj & Hfirst).
  exists ps, log, j, e. split; [exact Hps|]. split; [|auto].
  unfold searchAddress. rewrite Hp.
  destruct (trim query) as [|c q]; [congruence|].
  rewrite (searchWithGoogle_detail_phase _ _ _ _ _ _ _ _ _
             Hk Hreq Hnet Hok Hb Hs Hst Hne).
  unfold bind. now rewrite Hps.
Qed.

(** A successful commercial search: the detail calls of the retained
    predictions were all started and all fulfilled, and the same search
    succeeds with the same candidates in any world with the same
    network, whatever its arrival order. *)
Lemma searchWithGoogle_Ok :
  forall env w query limit apiKey req r cs log,
    getGoogleKey env = Ok apiKey ->
    autocomplete_request apiKey query = Ok req ->
    net w 0 req = Fulfils r ->
    run (searchWithGoogle env query limit) w = (Ok cs, log) ->
    exists payload ps,
      body r = Fulfils payload
      /\ mapIO (detail_task apiKey) (slice0 (predictions_of payload) limit) w [req]
         = (Ok ps, log)
      /\ Forall2 (fun p c => outcome p = Ok c) ps cs
      /\ forall w', net w' = net w ->
                    run (searchWithGoogle env query limit) w' = (Ok cs, log).
Proof.
  intros env w query limit apiKey req r cs log Hk Hreq Hnet Hrun.
  rewrite (searchWithGoogle_fetched _ _ _ _ _ _ _ Hk Hreq Hnet) in Hrun.
  match type of Hrun with ?K w [req] = _ =>
    cut (exists payload ps,
            body r = Fulfils payload
            /\ mapIO (detail_task apiKey) (slice0 (predictions_of payload) limit)
                     w [req] = (Ok ps, log)
            /\ Forall2 (fun p c => outcome p = Ok c) ps cs
            /\ forall w', net w' = net w -> K w' [req] = (Ok cs, log))
  end.
  { intros (payload & ps & H1 & H2 & H3 & H4). exists payload, ps.
    repeat split; auto. intros w' Hw'.
    rewrite (searchWithGoogle_fetched _ w' _ _ _ _ r Hk Hreq) by now rewrite Hw'.
    now apply H4. }
  revert Hrun. unfold predictions_of, bind, lift, throw, ret.
  destruct (negb (ok r)); [discriminate|].
  destruct (body r) as [payload|name]; simpl; [|discriminate].
  destruct (get (Some payload) (u"status")) as [st|e]; [|discriminate].
  destruct (negb (is_string st (u"OK")) && negb (is_string st (u"ZERO_RESULTS")));
    [discriminate|].
  destruct (get (Some payload) (u"predictions")) as [p|e] eqn:Ep; [|discriminate].
  destruct (get (nullish_or p (Some (JArr []))) (u"length")) as [len|e] eqn:Elen;
    [|discriminate].
  destruct (negb (truthy len)) eqn:Et.
  - intros H; injection H as <- <-. exists payload, [].
    assert (Hnil : slice0 match p with Some (JArr items) => items | _ => [] end limit
                   = []).
    { destruct p as [[| | | |items|]|]; try apply slice0_nil.
      change (nullish_or (Some (JArr items)) (Some (JArr []))) with (Some (JArr items))
        in Elen.
      rewrite (truthy_length _ _ Elen) in Et.
      destruct items; [apply slice0_nil|discriminate]. }
    rewrite Ep, Hnil. repeat split; auto.
  - assert (Hnull : nullish_or p (Some (JArr [])) = Some (JArr []) -> False).
    { intros E. rewrite E in Elen. rewrite (truthy_length _ _ Elen) in Et.
      discriminate. }
    destruct p as [[| | | |items|]|]; simpl; try discriminate;
      try (exfalso; apply Hnull; reflexivity).
    destruct (mapIO (detail_task apiKey) (slice0 items limit) w [req])
      as [[ps|e] log1] eqn:Eps; [|discriminate].
    intros H. destruct (Promise_all_fulfils _ _ _ _ _ _ H) as (-> & Hall & Hany).
    exists payload, ps. rewrite Ep. repeat split; auto.
    intros w' Hw'. rewrite (detail_tasks_net _ _ _ _ _ Hw'), Eps. apply Hany.
Qed.

Lemma nominatim_candidate_raw :
  forall item c, nominatim_candidate item = Ok c -> raw c = Some item.
Proof.
  intros item c H. unfold nominatim_candidate in H.
  destruct (nominatim_id (Some item)); simpl in H; [|discriminate].
  destruct (get (Some item) (u"display_name")); simpl in H; [|discriminate].
  destruct (get (Some item) (u"lat")) as [la|]; simpl in H; [|discriminate].
  destruct (ToNumber la); simpl in H; [|discriminate].
  destruct (get (Some item) (u"lon")) as [lo|]; simpl in H; [|discriminate].
  destruct (ToNumber lo); simpl in H; [|discriminate].
  now injection H as <-.
Qed.

(** What an item of the free provider contributes to its candidate. *)
Lemma nominatim_candidate_Ok :
  forall item c,
    nominatim_candidate item = Ok c ->
    provider c = nominatim
    /\ placeId c = None
    /\ get (Some item) (u"display_name") = Ok (label c)
    /\ (exists s, nominatim_id (Some item) = Ok s /\ id c = str s)
    /\ (exists la x, get (Some item) (u"lat") = Ok la
                     /\ ToNumber la = Ok x /\ lat c = Some (JNum x))
    /\ (exists lo y, get (Some item) (u"lon") = Ok lo
                     /\ ToNumber lo = Ok y /\ lng c = Some (JNum y)).
Proof.
  intros item c H. unfold nominatim_candidate in H.
  destruct (nominatim_id (Some item)) as [s|]; cbn [rbind] in H; [|discriminate H].
  destruct (get (Some item) (u"display_name")) as [name|]; cbn [rbind] in H;
    [|discriminate H].
  destruct (get (Some item) (u"lat")) as [la|]; cbn [rbind] in H; [|discriminate H].
  destruct (ToNumber la) as [x|] eqn:Ex; cbn [rbind] in H; [|discriminate H].
  destruct (get (Some item) (u"lon")) as [lo|]; cbn [rbind] in H; [|discriminate H].
  destruct (ToNumber lo) as [y|] eqn:Ey; cbn [rbind] in H; [|discriminate H].
  injection H as <-. cbn [provider placeId label id lat lng].
  split; [reflexivity|]. split; [reflexivity|]. split; [reflexivity|].
  split; [exists s; split; reflexivity|].
  split; [exists la, x|exists lo, y]; (split; [reflexivity|]); split;
    try reflexivity; assumption.
Qed.

(** A successful free-provider search: the payload is an array and the
    candidates are its items, converted one by one in order. *)
Lemma searchWithNominatim_Ok :
  forall env w query limit req r cs log,
    search_request env nominatim query limit = Ok req ->
    net w 0 req = Fulfils r ->
    run (searchWithNominatim env query limit) w = (Ok cs, log) ->
    exists items,
      body r = Fulfils (JArr items)
      /\ Forall2 (fun item c => nominatim_candidate item = Ok c) items cs.
Proof.
  intros env w query limit req r cs log Hreq Hnet Hrun.
  rewrite (searchWithNominatim_fetched _ _ _ _ _ _ Hreq Hnet) in Hrun.
  destruct (negb (ok r)); [destruct (status r =? 429); discriminate|].
  destruct (body r) as [payload|name]; simpl in Hrun; [|discriminate].
  destruct payload as [| | | |items|]; try discriminate.
  exists items. split; [reflexivity|].
  apply map_result_Ok_Forall2. congruence.
Qed.

(** ** Order of the candidates *)

(** C3. A successful forward search returns its candidates in the
    provider's order. Free provider: the candidates are the items of the
    payload converted one by one, the i-th candidate from the i-th item:
    its raw value is the item, its label the item's [display_name], its
    identifier the one derived from the item and its coordinates the
    Numbers of the item's [lat] and [lon].
    Commercial provider: there is one candidate per retained prediction,
    and the i-th candidate is built from the i-th retained prediction
    and from the answer to the detail request issued for it: its
    identifier and place id are the prediction's [place_id], its label
    the prediction's [description], its raw value the first result of
    that answer and its coordinates the [geometry.location] of that
    result. The candidates are the same whatever the order in which the
    detail responses arrive. *)
Theorem search_preserves_order :
  (forall (env : Env) (w : World) (query : jsstring) (options : SearchOptions)
          (req : request) (r : response) (items : list json)
          (cs : list GeocodeResult) (log : list request),
      resolveProvider env (opt_provider options) = nominatim ->
      trim query <> [] ->
      search_request env nominatim query (limit_of options) = Ok req ->
      net w 0 req = Fulfils r ->
      body r = Fulfils (JArr items) ->
      run (searchAddress env query options) w = (Ok cs, log) ->
      Forall2 (fun item c =>
                 nominatim_candidate item = Ok c
                 /\ raw c = Some item
                 /\ provider c = nominatim
                 /\ get (Some item) (u"display_name") = Ok (label c)
                 /\ (exists s, nominatim_id (Some item) = Ok s /\ id c = str s)
                 /\ (exists la x, get (Some item) (u"lat") = Ok la
                                  /\ ToNumber la = Ok x
                                  /\ lat c = Some (JNum x))
                 /\ (exists lo y, get (Some item) (u"lon") = Ok lo
                                  /\ ToNumber lo = Ok y
                                  /\ lng c = Some (JNum y)))
              items cs)
  /\ (forall (env : Env) (w : World) (query : jsstring) (options : SearchOptions)
             (apiKey : jsstring) (req : request) (r : response) (payload : json)
             (cs : list GeocodeResult) (log : list request),
      resolveProvider env (opt_provider options) = google ->
      trim query <> [] ->
      getGoogleKey env = Ok apiKey ->
      autocomplete_request apiKey query = Ok req ->
      net w 0 req = Fulfils r ->
      body r = Fulfils payload ->
      run (searchAddress env query options) w = (Ok cs, log) ->
      let sliced := slice0 (predictions_of payload) (limit_of options) in
      List.length cs = List.length sliced
      /\ (forall (i : nat) (prediction : json),
            nth_error sliced i = Some prediction ->
            exists (pid : value) (dreq : request) (c : GeocodeResult),
              detail_request apiKey prediction = Ok (pid, dreq)
              /\ nth_error log (S i) = Some dreq
              /\ detail_result prediction pid (net w (S i) dreq) = Ok c
              /\ nth_error cs i = Some c
              /\ get (Some prediction) (u"place_id") = Ok (id c)
              /\ get (Some prediction) (u"description") = Ok (label c)
              /\ placeId c = Some (id c)
              /\ provider c = google
              /\ exists (dr : response) (dpayload : json)
                        (results geometry location : value),
                   net w (S i) dreq = Fulfils dr
                   /\ ok dr = true
                   /\ body dr = Fulfils dpayload
                   /\ get (Some dpayload) (u"status") = Ok (str (u"OK"))
                   /\ get (Some dpayload) (u"results") = Ok results
                   /\ index0 results = Ok (raw c)
                   /\ get (raw c) (u"geometry") = Ok geometry
                   /\ get geometry (u"location") = Ok location
                   /\ get location (u"lat") = Ok (lat c)
                   /\ get location (u"lng") = Ok (lng c))
      /\ forall arrival' : list nat,
           run (searchAddress env query options)
               {| net := net w; arrival := arrival' |} = (Ok cs, log)).
Proof.
  split.
  - intros env w query options req r items cs log Hp Hq Hreq Hnet Hb Hrun.
    unfold searchAddress in Hrun. rewrite Hp in Hrun.
    destruct (trim query) as [|c q]; [congruence|].
    destruct (searchWithNominatim_Ok _ _ _ _ _ _ _ _ Hreq Hnet Hrun)
      as (items' & Hb' & Hall).
    assert (items' = items) as -> by congruence.
    eapply Forall2_impl; [|exact Hall].
    intros item c0 H. split; [exact H|].
    split; [now apply nominatim_candidate_raw|].
    destruct (nominatim_candidate_Ok _ _ H) as (H1 & _ & H3 & H4 & H5 & H6).
    split; [exact H1|]. split; [exact H3|]. split; [exact H4|].
    split; [exact H5|exact H6].
  - intros env w query options apiKey req r payload cs log
           Hp Hq Hk Hreq Hnet Hb Hrun sliced.
    unfold searchAddress in *. rewrite Hp in *.
    destruct (trim query) as [|c q]; [congruence|].
    destruct (searchWithGoogle_Ok _ _ _ _ _ _ _ _ _ Hk Hreq Hnet Hrun)
      as (payload' & ps & Hb' & Hps & Hall & Hany).
    assert (payload' = payload) as -> by congruence.
    destruct (detail_tasks_fulfilled _ _ _ _ _ _ _ Hps Hall)
      as (reqs & -> & Hlen & Hnth).
    split; [exact Hlen|]. split.
    + intros i prediction Hi.
      destruct (Hnth i prediction Hi) as (pid & dreq & c0 & H1 & H2 & H3 & H4).
      cbn [List.length Nat.add] in H3.
      destruct (detail_result_Ok _ _ _ _ H3)
        as (Hid & Hplace & Hprov & Hlabel & dr & dpayload & results
            & Hfetched & Hok & Hbody & Hst & Hres & Hraw).
      destruct (detail_result_coordinates _ _ _ _ H3)
        as (geometry & location & Hg & Hl & Hla & Hlo).
      exists pid, dreq, c0.
      split; [exact H1|]. split; [exact H2|]. split; [exact H3|].
      split; [exact H4|].
      split; [rewrite Hid; exact (detail_request_place_id _ _ _ _ H1)|].
      split; [exact Hlabel|].
      split; [rewrite Hid; exact Hplace|].
      split; [exact Hprov|].
      exists dr, dpayload, results, geometry, location.
      split; [exact Hfetched|]. split; [exact Hok|]. split; [exact Hbody|].
      split; [exact Hst|]. split; [exact Hres|]. split; [exact Hraw|].
      split; [exact Hg|]. split; [exact Hl|]. split; [exact Hla|exact Hlo].
    + intros arrival'. now apply Hany.
Qed.

(** ** Identifiers *)

Lemma Forall2_of_nth_error :
  forall (A B : Type) (R : A -> B -> Prop) (l : list A) (l' : list B),
    List.length l' = List.length l ->
    (forall i x, nth_error l i = Some x ->
                 exists y, nth_error l' i = Some y /\ R x y) ->
    Forall2 R l l'.
Proof.
  intros A B R. induction l as [|x l IH]; intros [|y l'] Hlen H;
    try discriminate; constructor.
  - destruct (H O x eq_refl) as (y' & Hy & HR). now injection Hy as <-.
  - apply IH; [now injection Hlen|].
    intros i x' Hi. exact (H (S i) x' Hi).
Qed.

Lemma NoDup_map_str :
  forall pids : list jsstring, NoDup pids -> NoDup (map str pids).
Proof.
  induction 1 as [|pid pids Hnotin Hnodup IH]; simpl; constructor; [|exact IH].
  rewrite in_map_iff. intros (pid' & E & Hin). injection E as ->. contradiction.
Qed.

Lemma Forall2_nth_error :
  forall (A B : Type) (R : A -> B -> Prop) (l : list A) (l' : list B),
    Forall2 R l l' ->
    forall i x y, nth_error l i = Some x -> nth_error l' i = Some y -> R x y.
Proof.
  intros A B R l l' H. induction H as [|a b l l' HR H IH]; intros [|i] x y Hx Hy;
    try discriminate.
  - injection Hx as <-. injection Hy as <-. exact HR.
  - exact (IH i x y Hx Hy).
Qed.

(** A printed coordinate pair holds a comma. *)
Lemma coordinate_pair_nonempty :
  forall item s, coordinate_pair item = Ok s -> s <> [].
Proof.
  intros item s H. unfold coordinate_pair in H.
  destruct (get (Some item) (u"lat")) as [la|]; cbn [rbind] in H; [|discriminate H].
  destruct (get (Some item) (u"lon")) as [lo|]; cbn [rbind] in H; [|discriminate H].
  unfold pair_string in H.
  destruct (ToString la) as [x|]; cbn [rbind] in H; [|discriminate H].
  destruct (ToString lo) as [y|]; cbn [rbind] in H; [|discriminate H].
  injection H as <-. intros E.
  apply app_eq_nil in E as [_ E]. discriminate E.
Qed.

(** The identifier of a free-provider candidate is a string: the string
    form of the place id when the item has one, and the printed
    coordinate pair when the place id is absent or [null]. *)
Lemma nominatim_candidate_id :
  forall item c,
    nominatim_candidate item = Ok c ->
    exists s,
      id c = str s
      /\ (forall s', has_place_id item s' -> s = s')
      /\ (lacks_place_id item -> coordinate_pair item = Ok s).
Proof.
  intros item c H. unfold nominatim_candidate in H.
  destruct (nominatim_id (Some item)) as [s|e] eqn:Eid; simpl in H; [|discriminate].
  destruct (get (Some item) (u"display_name")); simpl in H; [|discriminate].
  destruct (get (Some item) (u"lat")) as [la|]; simpl in H; [|discriminate].
  destruct (ToNumber la); simpl in H; [|discriminate].
  destruct (get (Some item) (u"lon")) as [lo|]; simpl in H; [|discriminate].
  destruct (ToNumber lo); simpl in H; [|discriminate].
  injection H as <-. exists s. simpl. split; [reflexivity|].
  unfold nominatim_id in Eid. split.
  - intros s' (pid & Hpid & Hnn & Hs'). rewrite Hpid in Eid.
    destruct pid; try congruence; cbn [rbind toString_opt] in Eid;
      rewrite Hs' in Eid; cbn [rbind] in Eid; congruence.
  - intros (pid & Hpid & Hnull). rewrite Hpid in Eid. cbn [rbind] in Eid.
    assert (E : toString_opt pid = Ok None).
    { destruct pid as [[| | | | |]|]; try discriminate Hnull; reflexivity. }
    rewrite E in Eid. cbn [rbind] in Eid. exact Eid.
Qed.

(** C6, as amended. The identifiers of a batch are derived item by
    item and are not de-duplicated. Free provider: every identifier is
    a string; the one of an item with a place id is the string form of
    the place id; the one of an item whose place id is absent or [null]
    is the printed coordinate pair of the item, which is not empty, so
    that two such items whose coordinate pairs print the same share
    their identifier; and when the items carry place ids whose string forms
    are non-empty and pairwise distinct, the identifiers are these
    string forms, non-empty and pairwise distinct. Commercial provider:
    the identifier of the i-th candidate is the place id of the i-th
    retained prediction, as it came, so the identifiers are pairwise
    distinct when these place ids are. *)
Theorem search_identifiers :
  (forall (env : Env) (w : World) (query : jsstring) (options : SearchOptions)
          (req : request) (r : response) (items : list json)
          (cs : list GeocodeResult) (log : list request),
      resolveProvider env (opt_provider options) = nominatim ->
      trim query <> [] ->
      search_request env nominatim query (limit_of options) = Ok req ->
      net w 0 req = Fulfils r ->
      body r = Fulfils (JArr items) ->
      run (searchAddress env query options) w = (Ok cs, log) ->
      Forall2 (fun item c =>
                 exists s, id c = str s
                           /\ (forall s', has_place_id item s' -> s = s')
                           /\ (lacks_place_id item ->
                               coordinate_pair item = Ok s /\ s <> []))
              items cs
      /\ (forall (i j : nat) (item item' : json) (c c' : GeocodeResult),
            nth_error items i = Some item -> nth_error cs i = Some c ->
            nth_error items j = Some item' -> nth_error cs j = Some c' ->
            lacks_place_id item -> lacks_place_id item' ->
            coordinate_pair item = coordinate_pair item' ->
            id c = id c')
      /\ forall pids : list jsstring,
           Forall2 has_place_id items pids ->
           NoDup pids -> Forall (fun pid => pid <> []) pids ->
           map id cs = map str pids
           /\ NoDup (map id cs)
           /\ Forall (fun i => exists s, i = str s /\ s <> []) (map id cs))
  /\ (forall (env : Env) (w : World) (query : jsstring) (options : SearchOptions)
             (apiKey : jsstring) (req : request) (r : response) (payload : json)
             (cs : list GeocodeResult) (log : list request),
      resolveProvider env (opt_provider options) = google ->
      trim query <> [] ->
      getGoogleKey env = Ok apiKey ->
      autocomplete_request apiKey query = Ok req ->
      net w 0 req = Fulfils r ->
      body r = Fulfils payload ->
      run (searchAddress env query options) w = (Ok cs, log) ->
      Forall2 (fun prediction c => get (Some prediction) (u"place_id") = Ok (id c))
              (slice0 (predictions_of payload) (limit_of options)) cs
      /\ forall pids : list value,
           Forall2 (fun prediction pid =>
                      get (Some prediction) (u"place_id") = Ok pid)
                   (slice0 (predictions_of payload) (limit_of options)) pids ->
           NoDup pids ->
           map id cs = pids /\ NoDup (map id cs)).
Proof.
  split.
  - intros env w query options req r items cs log Hp Hq Hreq Hnet Hb Hrun.
    unfold searchAddress in Hrun. rewrite Hp in Hrun.
    destruct (trim query) as [|c q]; [congruence|].
    destruct (searchWithNominatim_Ok _ _ _ _ _ _ _ _ Hreq Hnet Hrun)
      as (items' & Hb' & Hall).
    assert (items' = items) as -> by congruence. clear Hrun Hb Hb'.
    split; [|split].
    + eapply Forall2_impl; [|exact Hall]. intros item c0 H.
      destruct (nominatim_candidate_id _ _ H) as (s & Hs & Hhas & Hpair).
      exists s. split; [exact Hs|]. split; [exact Hhas|]. intros Hlacks.
      split; [exact (Hpair Hlacks)|].
      exact (coordinate_pair_nonempty _ _ (Hpair Hlacks)).
    + intros i j item item' c0 c' Hi Hci Hj Hcj Hl Hl' Hsame.
      pose proof (Forall2_nth_error _ _ _ _ _ Hall i item c0 Hi Hci) as Hc.
      pose proof (Forall2_nth_error _ _ _ _ _ Hall j item' c' Hj Hcj) as Hc'.
      destruct (nominatim_candidate_id _ _ Hc) as (s & Hs & _ & Hpair).
      destruct (nominatim_candidate_id _ _ Hc') as (s' & Hs' & _ & Hpair').
      specialize (Hpair Hl). specialize (Hpair' Hl').
      rewrite Hs, Hs'. congruence.
    + intros pids Hpids Hnodup Hne.
      assert (E : map id cs = map str pids).
      { clear Hne. revert pids Hpids Hnodup.
        induction Hall as [|item c0 items cs Hc Hall IH]; intros pids Hpids Hnodup;
          inversion Hpids as [|? pid ? pids' Hpid Hpids']; subst; [reflexivity|].
        simpl. destruct (nominatim_candidate_id _ _ Hc) as (s & Hs & Hsame & _).
        rewrite Hs, (Hsame pid Hpid). f_equal. apply IH; [exact Hpids'|].
        now inversion Hnodup. }
      split; [exact E|]. rewrite E. split; [now apply NoDup_map_str|].
      apply Forall_map. eapply Forall_impl; [|exact Hne]. simpl. eauto.
  - intros env w query options apiKey req r payload cs log
           Hp Hq Hk Hreq Hnet Hb Hrun.
    unfold searchAddress in Hrun. rewrite Hp in Hrun.
    destruct (trim query) as [|c q]; [congruence|].
    destruct (searchWithGoogle_Ok _ _ _ _ _ _ _ _ _ Hk Hreq Hnet Hrun)
      as (payload' & ps & Hb' & Hps & Hall & _).
    assert (payload' = payload) as -> by congruence.
    destruct (detail_tasks_fulfilled _ _ _ _ _ _ _ Hps Hall)
      as (reqs & _ & Hlen & Hnth).
    assert (Hids : Forall2 (fun prediction c0 =>
                              get (Some prediction) (u"place_id") = Ok (id c0))
                           (slice0 (predictions_of payload) (limit_of options)) cs).
    { apply Forall2_of_nth_error; [exact Hlen|].
      intros i prediction Hi.
      destruct (Hnth i prediction Hi) as (pid & dreq & c0 & H1 & _ & H3 & H4).
      exists c0. split; [exact H4|].
      apply detail_result_Ok in H3 as (-> & _).
      eapply detail_request_place_id; eauto. }
    split; [exact Hids|].
    intros pids Hpids Hnodup.
    assert (E : map id cs = pids).
    { clear - Hids Hpids. revert pids Hpids.
      induction Hids as [|prediction c0 l cs Hc Hids IH]; intros pids Hpids;
        inversion Hpids as [|? pid ? pids' Hpid Hpids']; subst; [reflexivity|].
      simpl. f_equal; [congruence|]. now apply IH. }
    split; [exact E|]. now rewrite E.
Qed.

(** ** Status messages *)

Lemma get_throws :
  forall v key e, get v key = Throw e -> e = TypeError.
Proof.
  intros [[| | | | |]|] key e; unfold get; try congruence;
    destruct (jsstring_eq_dec key _); congruence.
Qed.

Lemma get_opt_throws :
  forall v key e, get_opt v key = Throw e -> e = TypeError.
Proof.
  intros v key e. unfold get_opt. destruct (is_nullish v); [discriminate|].
  apply get_throws.
Qed.

Lemma index0_throws :
  forall v e, index0 v = Throw e -> e = TypeError.
Proof. intros [[| | | | |]|] e; unfold index0; congruence. Qed.

(** The commercial reverse lookup raises nothing but the configuration
    error, a TypeError of the run time, or the rejection of its [fetch]
    or of [response.json()]. *)
Lemma reverseWithGoogle_throws :
  forall env w la lo e log,
    run (reverseWithGoogle env la lo) w = (Throw e, log) ->
    e = Error missing_key \/ e = TypeError \/ exists name, e = Rejection name.
Proof.
  intros env w la lo e log Hrun.
  destruct (getGoogleKey env) as [apiKey|e0] eqn:Hk.
  - destruct (google_reverse_request_Ok apiKey la lo) as [req Hreq].
    destruct (net w 0 req) as [r|name] eqn:Hnet.
    + assert (Hrr : reverse_request env google la lo = Ok req)
        by (unfold reverse_request; now rewrite Hk).
      rewrite (reverseWithGoogle_fetched _ _ _ _ _ _ Hrr Hnet) in Hrun.
      destruct (negb (ok r)); [discriminate|].
      destruct (body r) as [payload|name]; simpl in Hrun;
        [|injection Hrun as <- _; eauto].
      destruct (get (Some payload) (u"status")) as [st|e1] eqn:E1; simpl in Hrun;
        [|injection Hrun as <- _; apply get_throws in E1; auto].
      destruct (negb (is_string st (u"OK"))); [discriminate|].
      destruct (get (Some payload) (u"results")) as [results|e2] eqn:E2;
        simpl in Hrun; [|injection Hrun as <- _; apply get_throws in E2; auto].
      destruct (get_opt results (u"length")) as [len|e3] eqn:E3; simpl in Hrun;
        [|injection Hrun as <- _; apply get_opt_throws in E3; auto].
      destruct (negb (truthy len)); [discriminate|].
      destruct (index0 results) as [res|e4] eqn:E4; simpl in Hrun;
        [|injection Hrun as <- _; apply index0_throws in E4; auto].
      unfold google_reverse_candidate, pair_string in Hrun.
      cbn [ToString ToStringJ rbind] in Hrun.
      destruct (get res (u"place_id")) as [pid|e5] eqn:E5; simpl in Hrun;
        [|injection Hrun as <- _; apply get_throws in E5; auto].
      destruct (is_nullish pid); simpl in Hrun;
        (destruct (get res (u"formatted_address")) as [address|e6] eqn:E6;
         simpl in Hrun;
         [discriminate|injection Hrun as <- _; apply get_throws in E6; auto]).
    + unfold run, reverseWithGoogle in Hrun.
      rewrite Hk, bind_lift_Ok, Hreq, bind_lift_Ok in Hrun.
      rewrite (bind_fetch_rejects _ _ name) in Hrun by exact Hnet.
      injection Hrun as <- _. eauto.
  - unfold run, reverseWithGoogle, bind, lift in Hrun. rewrite Hk in Hrun.
    injection Hrun as <- _. left.
    unfold getGoogleKey in Hk.
    destruct (VITE_GOOGLE_KEY env) as [[|c k]|]; congruence.
Qed.

(** The configuration error is not an entry of the status table. *)
Lemma missing_key_not_in_table :
  forall st, missing_key <> googleStatusMessage st.
Proof.
  intros st. unfold googleStatusMessage.
  repeat match goal with
         | |- context [if ?c then _ else _] => destruct c
         end;
    intros H; vm_compute in H; discriminate.
Qed.

(** Of two positions each of which settles no later than the other,
    there is one. *)
Lemma settles_no_later_antisym :
  forall (i j : nat) (order : list nat),
    settles_no_later i j order -> settles_no_later j i order -> i = j.
Proof.
  intros i j order H. induction H as [rest|k rest Hk H IH]; intros H'.
  - inversion H' as [rest'|k' rest' Hk' _]; congruence.
  - inversion H' as [rest'|k' rest' Hk' H'']; [congruence|]. now apply IH.
Qed.

(** C5, as amended. The status table (no result, quota exceeded,
    request denied, malformed request, unknown error, and one fallback
    message for every other status) serves the commercial forward
    search, in both of its phases. A prediction-phase status other than
    OK and ZERO_RESULTS fails the call with the table's message for
    that status. A detail call answered with a status other than OK (or
    with an empty result set) rejects with the table's message for its
    status; the search then fails with the rejection of the detail call
    that rejects first in the order in which the calls settle, which is
    that message when this detail call settles no later than every
    rejecting one, and so when it is the only one to reject. The
    commercial reverse lookup never raises a message of the table:
    answered with a status other than OK, it returns the absent
    value. *)
Theorem status_table_use :
  (googleStatusMessage (str (u"ZERO_RESULTS"))
   = u"No se encontraron resultados en Google para esa búsqueda."
   /\ googleStatusMessage (str (u"OVER_QUERY_LIMIT"))
      = u"Se alcanzó el límite de cuota de Google Maps."
   /\ googleStatusMessage (str (u"REQUEST_DENIED"))
      = u"La API de Google Maps rechazó la solicitud. Revisa la clave y restricciones."
   /\ googleStatusMessage (str (u"INVALID_REQUEST"))
      = u"Solicitud inválida enviada a Google Maps."
   /\ googleStatusMessage (str (u"UNKNOWN_ERROR"))
      = u"Error desconocido en la API de Google Maps. Intenta de nuevo."
   /\ forall st : value,
        is_string st (u"ZERO_RESULTS") = false ->
        is_string st (u"OVER_QUERY_LIMIT") = false ->
        is_string st (u"REQUEST_DENIED") = false ->
        is_string st (u"INVALID_REQUEST") = false ->
        is_string st (u"UNKNOWN_ERROR") = false ->
        googleStatusMessage st
        = u"No se pudo completar la petición con Google Maps.")
  /\ (forall (env : Env) (w : World) (query : jsstring) (options : SearchOptions)
             (req : request) (r : response) (payload : json) (st : value),
      resolveProvider env (opt_provider options) = google ->
      trim query <> [] ->
      search_request env google query (limit_of options) = Ok req ->
      net w 0 req = Fulfils r ->
      ok r = true ->
      body r = Fulfils payload ->
      get (Some payload) (u"status") = Ok st ->
      is_string st (u"OK") = false ->
      is_string st (u"ZERO_RESULTS") = false ->
      run (searchAddress env query options) w
      = (Throw (Error (googleStatusMessage st)), [req]))
  /\ (forall (prediction : json) (pid : value) (dr : response),
      ok dr = true ->
      not_success google dr ->
      exists (payload : json) (st : value),
        body dr = Fulfils payload
        /\ get (Some payload) (u"status") = Ok st
        /\ detail_result prediction pid (Fulfils dr)
           = Throw (Error (googleStatusMessage st)))
  /\ (forall (env : Env) (w : World) (query : jsstring) (options : SearchOptions)
             (apiKey : jsstring) (req : request) (r : response) (payload : json)
             (st : value) (prediction : json) (pid : value) (dreq : request)
             (dr : response),
      resolveProvider env (opt_provider options) = google ->
      trim query <> [] ->
      getGoogleKey env = Ok apiKey ->
      autocomplete_request apiKey query = Ok req ->
      net w 0 req = Fulfils r ->
      ok r = true ->
      body r = Fulfils payload ->
      get (Some payload) (u"status") = Ok st ->
      is_string st (u"OK") || is_string st (u"ZERO_RESULTS") = true ->
      In prediction (slice0 (predictions_of payload) (limit_of options)) ->
      detail_request apiKey prediction = Ok (pid, dreq) ->
      (forall n, net w n dreq = Fulfils dr) ->
      ok dr = true ->
      not_success google dr ->
      exists (dpayload : json) (dst : value)
             (ps : list (promise GeocodeResult)) (log : list request)
             (i j : nat) (e : exn),
        body dr = Fulfils dpayload
        /\ get (Some dpayload) (u"status") = Ok dst
        /\ mapIO (detail_task apiKey)
                 (slice0 (predictions_of payload) (limit_of options)) w [req]
           = (Ok ps, log)
        /\ rejects_with ps i (Error (googleStatusMessage dst))
        /\ run (searchAddress env query options) w = (Throw e, log)
        /\ rejects_with ps j e
        /\ (forall j' e', rejects_with ps j' e' ->
                          settles_no_later j j' (settle_order ps (arrival w)))
        /\ ((forall j' e', rejects_with ps j' e' ->
                           settles_no_later i j' (settle_order ps (arrival w))) ->
            e = Error (googleStatusMessage dst))
        /\ ((forall j' e', rejects_with ps j' e' -> j' = i) ->
            e = Error (googleStatusMessage dst)))
  /\ (forall (env : Env) (w : World) (la lo : number) (st : value),
      fst (run (reverseWithGoogle env la lo) w)
      <> Throw (Error (googleStatusMessage st)))
  /\ (forall (env : Env) (w : World) (la lo : number) (req : request)
             (r : response) (payload : json) (st : value),
      reverse_request env google la lo = Ok req ->
      net w 0 req = Fulfils r ->
      body r = Fulfils payload ->
      get (Some payload) (u"status") = Ok st ->
      is_string st (u"OK") = false ->
      run (reverseWithGoogle env la lo) w = (Ok None, [req])).
Proof.
  split; [|split; [|split; [|split; [|split]]]].
  - repeat split; try (vm_compute; reflexivity).
    intros st H1 H2 H3 H4 H5. unfold googleStatusMessage.
    now rewrite H1, H2, H3, H4, H5.
  - intros env w query options req r payload st Hp Hq Hreq Hnet Hok Hb Hs Hn Hz.
    unfold searchAddress. rewrite Hp.
    destruct (trim query) as [|c q]; [congruence|].
    apply search_request_google in Hreq as (apiKey & Hk & Hreq).
    rewrite (searchWithGoogle_fetched _ _ _ _ _ _ _ Hk Hreq Hnet).
    rewrite Hok, Hb. simpl. rewrite bind_lift_Ok, Hs, bind_lift_Ok, Hn, Hz.
    reflexivity.
  - intros prediction pid dr Hok Hns.
    destruct (detail_result_not_success prediction pid dr Hns)
      as [[Hno _]|H]; [congruence|exact H].
  - intros env w query options apiKey req r payload st prediction pid dreq dr
           Hp Hq Hk Hreq Hnet Hok Hb Hs Hst Hin Hdreq Hdnet Hdok Hns.
    assert (Hne : predictions_of payload <> []).
    { intros E. rewrite E, slice0_nil in Hin. contradiction. }
    destruct (detail_tasks_total apiKey w
                (slice0 (predictions_of payload) (limit_of options)) [req])
      as (ps & log & Hps).
    destruct (detail_result_not_success prediction pid dr Hns)
      as [[Hno _]|(dpayload & dst & Hdb & Hds & Hthrow)]; [congruence|].
    destruct (detail_tasks_rejecting _ _ _ _ _ _ _ _ _ _ _
                Hps Hin Hdreq Hdnet Hthrow) as [i Hi].
    destruct (Promise_all_rejects _ ps w log i _ Hi)
      as (j & e & Hall & Hj & Hfirst).
    exists dpayload, dst, ps, log, i, j, e.
    split; [exact Hdb|]. split; [exact Hds|]. split; [exact Hps|].
    split; [exact Hi|]. split.
    { unfold searchAddress. rewrite Hp.
      destruct (trim query) as [|c q]; [congruence|].
      rewrite (searchWithGoogle_detail_phase _ _ _ _ _ _ _ _ _
                 Hk Hreq Hnet Hok Hb Hs Hst Hne).
      unfold bind. now rewrite Hps. }
    split; [exact Hj|]. split; [exact Hfirst|].
    assert (Hsame : j = i -> e = Error (googleStatusMessage dst)).
    { intros ->. unfold rejects_with in Hi, Hj. rewrite Hi in Hj.
      now injection Hj. }
    split.
    + intros Hearly. apply Hsame.
      exact (settles_no_later_antisym _ _ _ (Hfirst _ _ Hi) (Hearly _ _ Hj)).
    + intros Honly. apply Hsame. exact (Honly _ _ Hj).
  - intros env w la lo st H.
    destruct (run (reverseWithGoogle env la lo) w) as [res log] eqn:E.
    simpl in H. subst res.
    destruct (reverseWithGoogle_throws _ _ _ _ _ _ E) as [H|[H|[name H]]];
      try discriminate.
    injection H as H. exact (missing_key_not_in_table st (eq_sym H)).
  - intros env w la lo req r payload st Hreq Hnet Hb Hs Hn.
    rewrite (reverseWithGoogle_fetched _ _ _ _ _ _ Hreq Hnet).
    rewrite Hb. simpl. rewrite Hs. simpl. rewrite Hn. simpl.
    now destruct (ok r).
Qed.

(** ** Instances *)

Import Scenario.

(** A query of white space only, with no credential configured. *)
Lemma searchAddress_blank_witness :
  trim blank = []
  /\ run (searchAddress env_none blank no_options) (always (json_response 500 JNull))
     = (Ok [], []).
Proof.
  split; [reflexivity|].
  apply searchAddress_blank. reflexivity.
Defined.

(** The commercial provider requested explicitly, without its key. *)
Lemma searchAddress_unconfigured_witness :
  trim (u"Cra 7 # 72-41") <> []
  /\ configured (credential env_none google) = false
  /\ run (searchAddress env_none (u"Cra 7 # 72-41") (with_options google))
         (always (json_response 200 zero_results))
     = (Throw (Error missing_key), []).
Proof.
  split; [vm_compute; discriminate|].
  split; [reflexivity|].
  apply (searchAddress_unconfigured env_none _ (u"Cra 7 # 72-41") (with_options google)).
  - vm_compute; discriminate.
  - reflexivity.
Defined.



(** A free-provider reverse lookup at (4.6486, -74.0628) answered with
    HTTP 200 and an object without [display_name], [lat] and [lon]. *)
Lemma reverse_nominatim_fallbacks_witness :
  exists (c : GeocodeResult) (log : list request),
    run (reverseGeocode env_email bogota_lat bogota_lng None)
        (always (json_response 200 (JObj []))) = (Ok (Some c), log)
    /\ label c = str (u"4.648600, -74.062800")
    /\ lat c = Some (JNum bogota_lat)
    /\ lng c = Some (JNum bogota_lng).
Proof.
  do 2 eexists. split; [vm_compute; reflexivity|].
  destruct reverse_nominatim_fallbacks as [general at_bogota].
  edestruct (general env_email (always (json_response 200 (JObj [])))
                     bogota_lat bogota_lng None) as (Hlabel & Hlat & Hlng).
  - reflexivity.
  - vm_compute; reflexivity.
  - reflexivity.
  - reflexivity.
  - vm_compute; reflexivity.
  - split; [|split].
    + rewrite <- at_bogota. apply Hlabel. reflexivity.
    + apply Hlat. reflexivity.
    + apply Hlng. reflexivity.
Defined.

(** A commercial reverse lookup answered with one result, whose own
    location differs from the input point. *)
Lemma reverse_google_echoes_input_witness :
  exists (c : GeocodeResult) (log : list request),
    run (reverseGeocode env_key bogota_lat bogota_lng None)
        (always (json_response 200 (geocode_ok [chapinero]))) = (Ok (Some c), log)
    /\ lat c = Some (JNum bogota_lat)
    /\ lng c = Some (JNum bogota_lng)
    /\ label c = str (u"Cra. 7 #72-41, Bogotá, Colombia").
Proof.
  do 2 eexists. split; [vm_compute; reflexivity|].
  edestruct (reverse_google_echoes_input env_key
               (always (json_response 200 (geocode_ok [chapinero])))
               bogota_lat bogota_lng None)
    as (Hlat & Hlng & payload & results & first & Hb & Hr & Hi & Ha).
  - reflexivity.
  - vm_compute; reflexivity.
  - reflexivity.
  - vm_compute; reflexivity.
  - split; [exact Hlat|]. split; [exact Hlng|]. reflexivity.
Defined.

(** With three retained predictions and a failing second detail call
    the search fails with the error of that call: no two-of-three
    result comes out. *)
Lemma search_fails_on_detail_failure_witness :
  exists log : list request,
    run (searchAddress env_key (u"Cra 7 # 72-41") (with_options google)) second_fails
    = (Throw (Error (u"Se alcanzó el límite de cuota de Google Maps.")), log)
    /\ List.length log = 4%nat.
Proof.
  destruct (search_fails_on_detail_failure
              env_key second_fails (u"Cra 7 # 72-41") (with_options google)
              (u"AIza-key")
              {| endpoint := GOOGLE_AUTOCOMPLETE_URL;
                 params := [(u"input", u"Cra 7 # 72-41"); (u"language", u"es");
                            (u"types", u"geocode"); (u"key", u"AIza-key");
                            (u"components", u"country:CO");
                            (u"locationbias", u"rectangle:4.47,-74.25|4.9,-73.99")];
                 headers := [] |}
              (json_response 200 (autocomplete_ok three))
              (autocomplete_ok three) (str (u"OK"))
              second (str (u"ChIJ-b"))
              {| endpoint := GOOGLE_GEOCODE_URL;
                 params := [(u"place_id", u"ChIJ-b"); (u"key", u"AIza-key")];
                 headers := [] |}
              (json_response 200 over_query_limit))
    as (ps & log & j & e & Hps & Hrun & Hj & Hfirst).
  - reflexivity.
  - vm_compute; discriminate.
  - reflexivity.
  - vm_compute; reflexivity.
  - vm_compute; reflexivity.
  - reflexivity.
  - reflexivity.
  - vm_compute; reflexivity.
  - vm_compute; reflexivity.
  - vm_compute. right; left; reflexivity.
  - vm_compute; reflexivity.
  - intros n. vm_compute; reflexivity.
  - apply status_not_ok with (payload := over_query_limit)
                             (st := str (u"OVER_QUERY_LIMIT"));
      vm_compute; reflexivity.
  - exists log. vm_compute in Hps. injection Hps as <- <-.
    destruct j as [|[|[|[|j]]]]; vm_compute in Hj; try discriminate Hj.
    injection Hj as <-. split; [exact Hrun|reflexivity].
Defined.

(** The same holds in whatever order the three detail responses
    arrive. *)
Lemma second_of_three_fails :
  forall order : list nat,
    exists log : list request,
      run (searchAddress env_key (u"Cra 7 # 72-41") (with_options google))
          (second_fails_in order)
      = (Throw (Error (u"Se alcanzó el límite de cuota de Google Maps.")), log).
Proof.
  intros order.
  pose (req := {| endpoint := GOOGLE_AUTOCOMPLETE_URL;
                  params := [(u"input", u"Cra 7 # 72-41"); (u"language", u"es");
                             (u"types", u"geocode"); (u"key", u"AIza-key");
                             (u"components", u"country:CO");
                             (u"locationbias", u"rectangle:4.47,-74.25|4.9,-73.99")];
                  headers := [] |}).
  assert (Hrun : run (searchAddress env_key (u"Cra 7 # 72-41") (with_options google))
                     (second_fails_in order)
                 = (geocodePromises <- mapIO (detail_task (u"AIza-key")) three ;;
                    Promise_all geocodePromises)%io (second_fails_in order) [req]).
  { change (searchAddress env_key (u"Cra 7 # 72-41") (with_options google))
      with (searchWithGoogle env_key (u"Cra 7 # 72-41") DEFAULT_LIMIT).
    rewrite (searchWithGoogle_detail_phase env_key (second_fails_in order)
               (u"Cra 7 # 72-41") DEFAULT_LIMIT (u"AIza-key") req
               (json_response 200 (autocomplete_ok three))
               (autocomplete_ok three) (str (u"OK")));
      [reflexivity
      |first [vm_compute; reflexivity | vm_compute; discriminate] ..]. }
  rewrite Hrun. unfold bind.
  destruct (mapIO (detail_task (u"AIza-key")) three (second_fails_in order) [req])
    as [[ps|e] log] eqn:Hps; vm_compute in Hps; [|discriminate].
  injection Hps as <- <-.
  match goal with |- context [Promise_all ?ps ?w ?log] =>
    destruct (Promise_all_rejects _ ps w log 1
                (Error (u"Se alcanzó el límite de cuota de Google Maps.")))
      as (j & e & Hall & Hj & _); [vm_compute; reflexivity|]
  end.
  destruct j as [|[|[|[|j]]]]; vm_compute in Hj; try discriminate Hj.
  injection Hj as <-. eexists. exact Hall.
Qed.

(** Two items from the free provider; three predictions from the
    commercial provider, with the detail responses arriving in two
    different orders: the second candidate is the one of the second
    prediction. *)
Lemma search_preserves_order_witness :
  (exists (cs : list GeocodeResult) (log : list request),
      run (searchAddress env_email (u"Cra 7 # 72-41") no_options)
          (always (json_response 200 (JArr street))) = (Ok cs, log)
      /\ Forall2 (fun item c => nominatim_candidate item = Ok c /\ raw c = Some item)
                 street cs)
  /\ (exists (cs : list GeocodeResult) (log : list request),
         run (searchAddress env_key (u"Cra 7 # 72-41") no_options)
             (all_succeed [2; 0; 1]%nat) = (Ok cs, log)
         /\ List.length cs = 3%nat
         /\ (exists c : GeocodeResult,
               nth_error cs 1 = Some c
               /\ id c = str (u"ChIJ-b")
               /\ label c = str (u"Cra. 7 #72-41, Chía")
               /\ raw c = Some chapinero
               /\ lat c = Some (JNum (StringToNumber (u"4.6571"))))
         /\ run (searchAddress env_key (u"Cra 7 # 72-41") no_options)
                (all_succeed [1; 2; 0]%nat) = (Ok cs, log)).
Proof.
  destruct search_preserves_order as [free commercial]. split.
  - do 2 eexists. split; [vm_compute; reflexivity|].
    eapply Forall2_impl;
      [|eapply (free env_email (always (json_response 200 (JArr street)))
                     (u"Cra 7 # 72-41") no_options)].
    + intros item c (Hc & Hraw & _). split; [exact Hc|exact Hraw].
    + reflexivity.
    + vm_compute; discriminate.
    + vm_compute; reflexivity.
    + reflexivity.
    + reflexivity.
    + vm_compute; reflexivity.
  - do 2 eexists. split; [vm_compute; reflexivity|].
    edestruct (commercial env_key (all_succeed [2; 0; 1]%nat)
                          (u"Cra 7 # 72-41") no_options (u"AIza-key"))
      as (Hlen & Hnth & Hany).
    + reflexivity.
    + vm_compute; discriminate.
    + reflexivity.
    + vm_compute; reflexivity.
    + reflexivity.
    + reflexivity.
    + vm_compute; reflexivity.
    + split; [exact Hlen|]. split; [|exact (Hany [1; 2; 0]%nat)].
      destruct (Hnth 1%nat second)
        as (pid & dreq & c & Hreq & _ & _ & Hc & Hid & Hlabel & _ & _
            & dr & dpayload & results & geometry & location
            & Hnet & _ & Hbody & _ & Hres & Hraw & Hg & Hl & Hla & _).
      { vm_compute; reflexivity. }
      exists c. split; [exact Hc|].
      assert (E1 : get (Some second) (u"place_id") = Ok (str (u"ChIJ-b")))
        by (vm_compute; reflexivity).
      assert (E2 : get (Some second) (u"description")
                   = Ok (str (u"Cra. 7 #72-41, Chía")))
        by (vm_compute; reflexivity).
      rewrite E1 in Hid. rewrite E2 in Hlabel.
      injection Hid as <-. injection Hlabel as <-.
      split; [reflexivity|]. split; [reflexivity|].
      assert (Edr : dr = json_response 200 (geocode_ok [chapinero])).
      { assert (E : net (all_succeed [2; 0; 1]%nat) 2 dreq
                    = Fulfils (json_response 200 (geocode_ok [chapinero]))).
        { unfold all_succeed, details. cbn [net].
          destruct (jsstring_eq_dec (endpoint dreq) GOOGLE_AUTOCOMPLETE_URL) as [Ee|_];
            [|reflexivity].
          exfalso. vm_compute in Hreq. injection Hreq as _ <-.
          vm_compute in Ee. discriminate Ee. }
        rewrite E in Hnet. now injection Hnet. }
      subst dr. cbn [json_response body] in Hbody. injection Hbody as <-.
      assert (E3 : get (Some (geocode_ok [chapinero])) (u"results")
                   = Ok (Some (JArr [chapinero])))
        by (vm_compute; reflexivity).
      rewrite E3 in Hres. injection Hres as <-.
      assert (E4 : index0 (Some (JArr [chapinero])) = Ok (Some chapinero))
        by (vm_compute; reflexivity).
      rewrite E4 in Hraw. injection Hraw as Hraw.
      split; [symmetry; exact Hraw|].
      rewrite <- Hraw in Hg.
      assert (E5 : get (Some chapinero) (u"geometry")
                   = Ok (Some (JObj [(u"location",
                                      JObj [(u"lat", JNum (StringToNumber (u"4.6571")));
                                            (u"lng", JNum (StringToNumber (u"-74.0577")))])])))
        by (vm_compute; reflexivity).
      rewrite E5 in Hg. injection Hg as <-.
      assert (E6 : get (Some (JObj [(u"location",
                                      JObj [(u"lat", JNum (StringToNumber (u"4.6571")));
                                            (u"lng", JNum (StringToNumber (u"-74.0577")))])]))
                       (u"location")
                   = Ok (Some (JObj [(u"lat", JNum (StringToNumber (u"4.6571")));
                                     (u"lng", JNum (StringToNumber (u"-74.0577")))])))
        by (vm_compute; reflexivity).
      rewrite E6 in Hl. injection Hl as <-.
      assert (E7 : get (Some (JObj [(u"lat", JNum (StringToNumber (u"4.6571")));
                                     (u"lng", JNum (StringToNumber (u"-74.0577")))]))
                       (u"lat")
                   = Ok (Some (JNum (StringToNumber (u"4.6571")))))
        by (vm_compute; reflexivity).
      rewrite E7 in Hla. injection Hla as <-. reflexivity.
Defined.

(** C5, a status the reverse lookup does not translate: answered with
    the status REQUEST_DENIED, the commercial reverse lookup returns
    the absent value where the table has the message of a rejected
    request. *)
Lemma reverse_status_not_translated :
  fst (run (reverseGeocode env_key bogota_lat bogota_lng (Some google))
           (always (json_response 200 request_denied)))
  = Ok None
  /\ googleStatusMessage (str (u"REQUEST_DENIED"))
     = u"La API de Google Maps rechazó la solicitud. Revisa la clave y restricciones.".
Proof. split; vm_compute; reflexivity. Qed.

(** A prediction phase answered with REQUEST_DENIED, and a detail phase
    in which the second of three detail calls, the only one to reject,
    hits the quota. *)
Lemma status_table_use_witness :
  (exists req : request,
      run (searchAddress env_key (u"Cra 7 # 72-41") no_options)
          (always (json_response 200 request_denied))
      = (Throw (Error (u"La API de Google Maps rechazó la solicitud. Revisa la clave y restricciones.")),
         [req]))
  /\ exists log : list request,
       run (searchAddress env_key (u"Cra 7 # 72-41") (with_options google))
           second_fails
       = (Throw (Error (googleStatusMessage (str (u"OVER_QUERY_LIMIT")))), log).
Proof.
  destruct status_table_use
    as (table & prediction_phase & detail_phase & detail_call & reverse & soft).
  split.
  - eexists.
    rewrite <- (proj1 (proj2 (proj2 table))).
    eapply (prediction_phase env_key (always (json_response 200 request_denied))
              (u"Cra 7 # 72-41") no_options).
    + reflexivity.
    + vm_compute; discriminate.
    + vm_compute; reflexivity.
    + reflexivity.
    + reflexivity.
    + reflexivity.
    + vm_compute; reflexivity.
    + vm_compute; reflexivity.
    + vm_compute; reflexivity.
  - destruct (detail_call
                env_key second_fails (u"Cra 7 # 72-41") (with_options google)
                (u"AIza-key")
                {| endpoint := GOOGLE_AUTOCOMPLETE_URL;
                   params := [(u"input", u"Cra 7 # 72-41"); (u"language", u"es");
                              (u"types", u"geocode"); (u"key", u"AIza-key");
                              (u"components", u"country:CO");
                              (u"locationbias", u"rectangle:4.47,-74.25|4.9,-73.99")];
                   headers := [] |}
                (json_response 200 (autocomplete_ok three))
                (autocomplete_ok three) (str (u"OK"))
                second (str (u"ChIJ-b"))
                {| endpoint := GOOGLE_GEOCODE_URL;
                   params := [(u"place_id", u"ChIJ-b"); (u"key", u"AIza-key")];
                   headers := [] |}
                (json_response 200 over_query_limit))
      as (dpayload & dst & ps & log & i & j & e
          & Hdb & Hds & Hps & Hi & Hrun & Hj & _ & _ & Honly).
    + reflexivity.
    + vm_compute; discriminate.
    + reflexivity.
    + vm_compute; reflexivity.
    + vm_compute; reflexivity.
    + reflexivity.
    + reflexivity.
    + vm_compute; reflexivity.
    + vm_compute; reflexivity.
    + vm_compute. right; left; reflexivity.
    + vm_compute; reflexivity.
    + intros n. vm_compute; reflexivity.
    + reflexivity.
    + apply status_not_ok with (payload := over_query_limit)
                               (st := str (u"OVER_QUERY_LIMIT"));
        vm_compute; reflexivity.
    + exists log. cbn [json_response body] in Hdb. injection Hdb as <-.
      assert (Est : get (Some over_query_limit) (u"status")
                    = Ok (str (u"OVER_QUERY_LIMIT")))
        by (vm_compute; reflexivity).
      rewrite Est in Hds. injection Hds as <-.
      rewrite Hrun. rewrite Honly; [reflexivity|].
      vm_compute in Hps. injection Hps as <- <-.
      intros j' e' Hj'.
      destruct i as [|[|[|[|i]]]]; vm_compute in Hi; try discriminate Hi.
      destruct j' as [|[|[|[|j']]]]; vm_compute in Hj'; try discriminate Hj'.
      reflexivity.
Defined.

(** C6, a batch with a repeated identifier: two items of the free
    provider without place id and with the same coordinate pair get the
    same identifier, derived from that pair. And identifiers that are
    not non-empty strings: a free-provider item whose place id is the
    empty string gets the empty identifier, and a prediction of the
    commercial provider without place id gives a candidate whose
    identifier is [undefined]. *)
Lemma duplicate_identifiers :
  (exists (c1 c2 : GeocodeResult),
      fst (run (searchAddress env_email (u"Cra 7 # 72-41") no_options)
               (always (json_response 200 (JArr tower))))
      = Ok [c1; c2]
      /\ id c1 = str (u"4.6486,-74.0628")
      /\ id c2 = str (u"4.6486,-74.0628")
      /\ ~ NoDup (map id [c1; c2]))
  /\ (exists c : GeocodeResult,
         fst (run (searchAddress env_email (u"Cra 7 # 72-41") no_options)
                  (always (json_response 200
                             (JArr [place (Some (JStr [])) (u"Cra. 7 #72-41")
                                          (u"4.6571") (u"-74.0577")]))))
         = Ok [c]
         /\ id c = str [])
  /\ (exists c : GeocodeResult,
         fst (run (searchAddress env_key (u"Cra 7 # 72-41") no_options)
                  (details [JObj [(u"description", JStr (u"Cra. 7 #72-41, Bogotá"))]]
                           (fun _ => geocode_ok [chapinero]) []))
         = Ok [c]
         /\ id c = None).
Proof.
  split; [|split].
  - do 2 eexists. split; [vm_compute; reflexivity|].
    split; [vm_compute; reflexivity|]. split; [vm_compute; reflexivity|].
    intros H. inversion H as [|x l Hnotin _]. apply Hnotin. left. reflexivity.
  - eexists. split; vm_compute; reflexivity.
  - eexists. split; vm_compute; reflexivity.
Qed.

(** Two free-provider items with the numeric place ids 101 and 102;
    two free-provider items without place id at the same coordinates;
    three predictions with distinct place ids. *)
Lemma search_identifiers_witness :
  (exists (cs : list GeocodeResult) (log : list request),
      run (searchAddress env_email (u"Cra 7 # 72-41") no_options)
          (always (json_response 200 (JArr street))) = (Ok cs, log)
      /\ map id cs = [str (u"101"); str (u"102")]
      /\ NoDup (map id cs))
  /\ (exists (cs : list GeocodeResult) (log : list request)
             (c c' : GeocodeResult),
         run (searchAddress env_email (u"Cra 7 # 72-41") no_options)
             (always (json_response 200 (JArr tower))) = (Ok cs, log)
         /\ nth_error cs 0 = Some c
         /\ nth_error cs 1 = Some c'
         /\ id c = id c')
  /\ (exists (cs : list GeocodeResult) (log : list request),
         run (searchAddress env_key (u"Cra 7 # 72-41") no_options)
             (all_succeed [2; 0; 1]%nat) = (Ok cs, log)
         /\ map id cs = [str (u"ChIJ-a"); str (u"ChIJ-b"); str (u"ChIJ-c")]
         /\ NoDup (map id cs)).
Proof.
  destruct search_identifiers as [free commercial]. split; [|split].
  - do 2 eexists. split; [vm_compute; reflexivity|].
    edestruct (free env_email (always (json_response 200 (JArr street)))
                    (u"Cra 7 # 72-41") no_options)
      as (_ & _ & Hpids).
    + reflexivity.
    + vm_compute; discriminate.
    + vm_compute; reflexivity.
    + reflexivity.
    + reflexivity.
    + vm_compute; reflexivity.
    + destruct (Hpids [u"101"; u"102"]) as (E & Hnodup & _).
      * repeat constructor;
          (eexists; split; [vm_compute; reflexivity|];
           split; [discriminate|vm_compute; reflexivity]).
      * repeat constructor; simpl; intros H; repeat destruct H as [H|H];
          try (vm_compute in H; discriminate); exact H.
      * repeat constructor; vm_compute; discriminate.
      * split; [exact E|exact Hnodup].
  - do 4 eexists. split; [vm_compute; reflexivity|].
    split; [reflexivity|]. split; [reflexivity|].
    edestruct (free env_email (always (json_response 200 (JArr tower)))
                    (u"Cra 7 # 72-41") no_options)
      as (_ & Hshare & _).
    + reflexivity.
    + vm_compute; discriminate.
    + vm_compute; reflexivity.
    + reflexivity.
    + reflexivity.
    + vm_compute; reflexivity.
    + eapply (Hshare 0%nat 1%nat).
      * reflexivity.
      * reflexivity.
      * reflexivity.
      * reflexivity.
      * exists None. split; vm_compute; reflexivity.
      * exists None. split; vm_compute; reflexivity.
      * vm_compute; reflexivity.
  - do 2 eexists. split; [vm_compute; reflexivity|].
    edestruct (commercial env_key (all_succeed [2; 0; 1]%nat)
                          (u"Cra 7 # 72-41") no_options (u"AIza-key"))
      as (_ & Hpids).
    + reflexivity.
    + vm_compute; discriminate.
    + reflexivity.
    + vm_compute; reflexivity.
    + reflexivity.
    + reflexivity.
    + vm_compute; reflexivity.
    + destruct (Hpids [str (u"ChIJ-a"); str (u"ChIJ-b"); str (u"ChIJ-c")])
        as (E & Hnodup).
      * repeat constructor.
      * repeat constructor; simpl; intros H; repeat destruct H as [H|H];
          try (vm_compute in H; discriminate); exact H.
      * split; [exact E|exact Hnodup].
Defined.

(** A prediction that fails before its detail call is issued decides the
    error, in whatever order the issued calls complete: the TypeError of
    the [null] prediction comes out, not the quota error of the second
    call, and one detail request only was sent. *)
Lemma null_prediction_fails_first :
  forall order : list nat,
    exists req dreq : request,
      run (searchAddress env_key (u"Cra 7 # 72-41") (with_options google))
          (null_first order)
      = (Throw TypeError, [req; dreq]).
Proof.
  intros order.
  pose (req := {| endpoint := GOOGLE_AUTOCOMPLETE_URL;
                  params := [(u"input", u"Cra 7 # 72-41"); (u"language", u"es");
                             (u"types", u"geocode"); (u"key", u"AIza-key");
                             (u"components", u"country:CO");
                             (u"locationbias", u"rectangle:4.47,-74.25|4.9,-73.99")];
                  headers := [] |}).
  assert (Hrun : run (searchAddress env_key (u"Cra 7 # 72-41") (with_options google))
                     (null_first order)
                 = (geocodePromises <- mapIO (detail_task (u"AIza-key")) [JNull; second] ;;
                    Promise_all geocodePromises)%io (null_first order) [req]).
  { change (searchAddress env_key (u"Cra 7 # 72-41") (with_options google))
      with (searchWithGoogle env_key (u"Cra 7 # 72-41") DEFAULT_LIMIT).
    rewrite (searchWithGoogle_detail_phase env_key (null_first order)
               (u"Cra 7 # 72-41") DEFAULT_LIMIT (u"AIza-key") req
               (json_response 200 (autocomplete_ok [JNull; second]))
               (autocomplete_ok [JNull; second]) (str (u"OK")));
      [reflexivity
      |first [vm_compute; reflexivity | vm_compute; discriminate] ..]. }
  rewrite Hrun. unfold bind.
  destruct (mapIO (detail_task (u"AIza-key")) [JNull; second] (null_first order) [req])
    as [[ps|e] log] eqn:Hps; vm_compute in Hps; [|discriminate].
  injection Hps as <- <-.
  do 2 eexists.
  apply (Promise_all_settled_first _ _ _ _ 0%nat TypeError); [reflexivity|].
  intros j e' Hj. inversion Hj.
Qed.

(* ===================================================================== *)
(** * Further properties of the geocoding client *)
(* ===================================================================== *)

Lemma bind_lift_Throw :
  forall (A B : Type) (e : exn) (k : A -> IO B) w log,
    bind (lift (@Throw A e)) k w log = (Throw e, log).
Proof. reflexivity. Qed.

(** A request is built whenever the credential is configured: the
    values [encodeQuery] receives are strings and numbers. *)
Lemma search_request_Ok :
  forall env p query limit,
    configured (credential env p) = true ->
    exists req, search_request env p query limit = Ok req.
Proof.
  intros env p query limit H. unfold search_request.
  destruct p; simpl in H.
  - unfold getNominatimEmail.
    destruct (VITE_NOMINATIM_EMAIL env) as [[|c s]|]; try discriminate.
    eexists. reflexivity.
  - unfold getGoogleKey.
    destruct (VITE_GOOGLE_KEY env) as [[|c s]|]; try discriminate.
    eexists. reflexivity.
Qed.

Lemma reverse_request_Ok :
  forall env p la lo,
    configured (credential env p) = true ->
    exists req, reverse_request env p la lo = Ok req.
Proof.
  intros env p la lo H. unfold reverse_request.
  destruct p; simpl in H.
  - unfold getNominatimEmail.
    destruct (VITE_NOMINATIM_EMAIL env) as [[|c s]|]; try discriminate.
    eexists. reflexivity.
  - unfold getGoogleKey.
    destruct (VITE_GOOGLE_KEY env) as [[|c s]|]; try discriminate.
    eexists. reflexivity.
Qed.

Lemma credential_missing :
  forall env p,
    configured (credential env p) = false ->
    match p with
    | nominatim => getNominatimEmail env = Throw (Error missing_email)
    | google => getGoogleKey env = Throw (Error missing_key)
    end.
Proof.
  intros env [|] H; simpl in H.
  - unfold getNominatimEmail.
    now destruct (VITE_NOMINATIM_EMAIL env) as [[|c s]|].
  - unfold getGoogleKey.
    now destruct (VITE_GOOGLE_KEY env) as [[|c s]|].
Qed.

(** ** Free-provider forward search: HTTP failures *)

(** X1. A free-provider forward search answered with a non-success HTTP
    status fails with the rate-limit message when the status is 429 and
    with the generic Nominatim message for every other status; one
    request was sent and the body is not read. *)
Theorem nominatim_search_http_errors :
  forall (env : Env) (w : World) (query : jsstring) (options : SearchOptions)
         (req : request) (r : response),
    resolveProvider env (opt_provider options) = nominatim ->
    trim query <> [] ->
    search_request env nominatim query (limit_of options) = Ok req ->
    net w 0 req = Fulfils r ->
    ok r = false ->
    run (searchAddress env query options) w
    = (Throw (Error (if Geocode.status r =? 429 then rate_limited else nominatim_failed)),
       [req]).
Proof.
  intros env w query options req r Hp Hq Hreq Hnet Hok.
  unfold searchAddress. rewrite Hp.
  destruct (trim query) as [|c q]; [congruence|].
  rewrite (searchWithNominatim_fetched _ _ _ _ _ _ Hreq Hnet), Hok. simpl.
  now destruct (Geocode.status r =? 429).
Qed.

(** ** Commercial forward search: no prediction *)

(** X2. A commercial forward search whose prediction call succeeds with
    status OK or ZERO_RESULTS and brings no prediction (the property
    is absent, [null] or an empty array) returns the empty sequence
    after that single request: no detail call is made. *)
Theorem google_search_no_predictions :
  forall (env : Env) (w : World) (query : jsstring) (options : SearchOptions)
         (req : request) (r : response) (payload : json) (st p : value),
    resolveProvider env (opt_provider options) = google ->
    trim query <> [] ->
    search_request env google query (limit_of options) = Ok req ->
    net w 0 req = Fulfils r ->
    ok r = true ->
    body r = Fulfils payload ->
    get (Some payload) (u"status") = Ok st ->
    is_string st (u"OK") || is_string st (u"ZERO_RESULTS") = true ->
    get (Some payload) (u"predictions") = Ok p ->
    is_nullish p = true \/ p = Some (JArr []) ->
    run (searchAddress env query options) w = (Ok [], [req]).
Proof.
  intros env w query options req r payload st p Hp Hq Hreq Hnet Hok Hb Hs Hst Hpr Hempty.
  unfold searchAddress. rewrite Hp.
  destruct (trim query) as [|c q]; [congruence|].
  apply search_request_google in Hreq as (apiKey & Hk & Hreq).
  rewrite (searchWithGoogle_fetched _ _ _ _ _ _ _ Hk Hreq Hnet).
  rewrite Hok, Hb. simpl. rewrite bind_lift_Ok, Hs, bind_lift_Ok.
  replace (negb (is_string st (u"OK")) && negb (is_string st (u"ZERO_RESULTS")))
    with false
    by (destruct (is_string st (u"OK")), (is_string st (u"ZERO_RESULTS"));
        simpl in *; congruence).
  rewrite Hpr, bind_lift_Ok.
  assert (E : nullish_or p (Some (JArr [])) = Some (JArr [])).
  { destruct Hempty as [H| ->]; [|reflexivity]. unfold nullish_or. now rewrite H. }
  cbv zeta. rewrite E.
  destruct (get_length_array []) as [len Hlen].
  rewrite Hlen, bind_lift_Ok, (truthy_length _ _ Hlen). reflexivity.
Qed.

(** ** Reverse lookup: credentials and requests *)

(** X3. A reverse lookup dispatched to a provider whose credential is
    not configured fails with that provider's configuration error, and
    no request is sent: the soft failure of the reverse lookup does not
    cover a missing credential. *)
Theorem reverseGeocode_unconfigured :
  forall (env : Env) (w : World) (la lo : number) (preferred : option Provider),
    configured (credential env (resolveProvider env preferred)) = false ->
    run (reverseGeocode env la lo preferred) w
    = (Throw (configuration_error (resolveProvider env preferred)), []).
Proof.
  intros env w la lo preferred H.
  apply credential_missing in H. unfold reverseGeocode, run.
  destruct (resolveProvider env preferred).
  - unfold reverseWithNominatim. now rewrite H.
  - unfold reverseWithGoogle. now rewrite H.
Qed.

(** X4. Whatever the network does, a reverse lookup with a configured
    credential sends exactly one request, the reverse request of the
    resolved provider; it never retries and never calls the other
    provider. *)
Theorem reverseGeocode_single_request :
  forall (env : Env) (w : World) (la lo : number) (preferred : option Provider)
         (req : request),
    reverse_request env (resolveProvider env preferred) la lo = Ok req ->
    snd (run (reverseGeocode env la lo preferred) w) = [req].
Proof.
  intros env w la lo preferred req Hreq.
  destruct (net w 0 req) as [r|name] eqn:Hnet.
  - unfold reverseGeocode. destruct (resolveProvider env preferred).
    + now rewrite (reverseWithNominatim_fetched _ _ _ _ _ _ Hreq Hnet).
    + now rewrite (reverseWithGoogle_fetched _ _ _ _ _ _ Hreq Hnet).
  - now rewrite (reverseGeocode_rejected_fetch _ _ _ _ _ _ _ Hreq Hnet).
Qed.

(** ** The requests of an operation *)

Lemma search_request_Throw :
  forall env p query limit e,
    search_request env p query limit = Throw e ->
    configured (credential env p) = false.
Proof.
  intros env p query limit e H.
  destruct (configured (credential env p)) eqn:E; [|reflexivity].
  destruct (search_request_Ok env p query limit E) as [req Hreq]. congruence.
Qed.

Lemma reverse_request_Throw :
  forall env p la lo e,
    reverse_request env p la lo = Throw e ->
    configured (credential env p) = false.
Proof.
  intros env p la lo e H.
  destruct (configured (credential env p)) eqn:E; [|reflexivity].
  destruct (reverse_request_Ok env p la lo E) as [req Hreq]. congruence.
Qed.

Lemma searchWithNominatim_rejected :
  forall env w query limit req name,
    search_request env nominatim query limit = Ok req ->
    net w 0 req = Rejects name ->
    run (searchWithNominatim env query limit) w = (Throw (Rejection name), [req]).
Proof.
  intros env w query limit req name Hreq Hnet.
  apply search_request_nominatim in Hreq as (email & He & Hr).
  unfold run, searchWithNominatim.
  rewrite He, bind_lift_Ok, Hr, bind_lift_Ok.
  now rewrite (bind_fetch_rejects _ _ name) by exact Hnet.
Qed.

Lemma searchWithGoogle_rejected :
  forall env w query limit req name,
    search_request env google query limit = Ok req ->
    net w 0 req = Rejects name ->
    run (searchWithGoogle env query limit) w = (Throw (Rejection name), [req]).
Proof.
  intros env w query limit req name Hreq Hnet.
  apply search_request_google in Hreq as (apiKey & Hk & Hr).
  unfold run, searchWithGoogle.
  rewrite Hk, bind_lift_Ok, Hr, bind_lift_Ok.
  now rewrite (bind_fetch_rejects _ _ name) by exact Hnet.
Qed.

Lemma searchWithNominatim_unconfigured :
  forall env w query limit,
    configured (credential env nominatim) = false ->
    run (searchWithNominatim env query limit) w = (Throw (Error missing_email), []).
Proof.
  intros env w query limit H. apply credential_missing in H.
  unfold run, searchWithNominatim. now rewrite H.
Qed.

Lemma searchWithGoogle_unconfigured :
  forall env w query limit,
    configured (credential env google) = false ->
    run (searchWithGoogle env query limit) w = (Throw (Error missing_key), []).
Proof.
  intros env w query limit H. apply credential_missing in H.
  unfold run, searchWithGoogle. now rewrite H.
Qed.

(** The free provider is asked once. *)
Lemma searchWithNominatim_log :
  forall env w query limit,
    snd (run (searchWithNominatim env query limit) w)
    = match search_request env nominatim query limit with
      | Ok req => [req]
      | Throw _ => []
      end.
Proof.
  intros env w query limit.
  destruct (search_request env nominatim query limit) as [req|e] eqn:Hreq.
  - destruct (net w 0 req) as [r|name] eqn:Hnet.
    + now rewrite (searchWithNominatim_fetched _ _ _ _ _ _ Hreq Hnet).
    + now rewrite (searchWithNominatim_rejected _ _ _ _ _ _ Hreq Hnet).
  - apply search_request_Throw in Hreq.
    now rewrite searchWithNominatim_unconfigured.
Qed.

Lemma reverseGeocode_log :
  forall env w la lo preferred,
    snd (run (reverseGeocode env la lo preferred) w)
    = match reverse_request env (resolveProvider env preferred) la lo with
      | Ok req => [req]
      | Throw _ => []
      end.
Proof.
  intros env w la lo preferred.
  destruct (reverse_request env (resolveProvider env preferred) la lo)
    as [req|e] eqn:Hreq.
  - destruct (net w 0 req) as [r|name] eqn:Hnet.
    + unfold reverseGeocode. destruct (resolveProvider env preferred).
      * now rewrite (reverseWithNominatim_fetched _ _ _ _ _ _ Hreq Hnet).
      * now rewrite (reverseWithGoogle_fetched _ _ _ _ _ _ Hreq Hnet).
    + now rewrite (reverseGeocode_rejected_fetch _ _ _ _ _ _ _ Hreq Hnet).
  - apply reverse_request_Throw, credential_missing in Hreq.
    unfold reverseGeocode, run. destruct (resolveProvider env preferred).
    + unfold reverseWithNominatim. now rewrite Hreq.
    + unfold reverseWithGoogle. now rewrite Hreq.
Qed.

Lemma Promise_all_log :
  forall (A : Type) (ps : list (promise A)) w log,
    snd (Promise_all ps w log) = log.
Proof.
  intros A ps w log. unfold Promise_all.
  now destruct (first_rejection ps (settle_order ps (arrival w))).
Qed.

(** [slice(0, n)] keeps the first [n] elements, or all of them. *)
Lemma slice0_length :
  forall (A : Type) (items : list A) (e : number) (n : Z),
    ToIntegerOrInfinity e = Integer n -> 0 <= n ->
    Z.of_nat (List.length (slice0 items e)) = Z.min n (Z.of_nat (List.length items)).
Proof.
  intros A items e n H Hn. unfold slice0. rewrite H.
  destruct (n <? 0) eqn:E; [apply Z.ltb_lt in E; lia|].
  rewrite length_firstn. lia.
Qed.

(** The detail phase sends at most one request for each retained
    prediction, each built by [detail_request]. *)
Lemma detail_tasks_log :
  forall apiKey w l log ps log',
    mapIO (detail_task apiKey) l w log = (Ok ps, log') ->
    exists reqs,
      log' = log ++ reqs
      /\ (List.length reqs <= List.length l)%nat
      /\ List.length ps = List.length l
      /\ Forall (fun d => exists prediction pid,
                            In prediction l
                            /\ detail_request apiKey prediction = Ok (pid, d)) reqs.
Proof.
  intros apiKey w. induction l as [|x l IH]; intros log ps log' Hrun.
  - injection Hrun as <- <-. exists []. rewrite app_nil_r. auto.
  - rewrite mapIO_cons, detail_task_run in Hrun.
    destruct (detail_request apiKey x) as [[pid dreq]|e] eqn:Ereq;
      (destruct (mapIO _ l w _) as [[ps'|e'] log1] eqn:E; [|discriminate]);
      injection Hrun as <- <-;
      destruct (IH _ _ _ E) as (reqs & -> & Hlen & Hps & Hall).
    + exists (dreq :: reqs). rewrite <- app_assoc. simpl.
      repeat split; [lia|lia|].
      constructor; [exists x, pid; auto|].
      eapply Forall_impl; [|exact Hall].
      intros d (prediction & pid' & Hin & Hd). exists prediction, pid'. auto.
    + exists reqs. simpl. repeat split; [lia|lia|].
      eapply Forall_impl; [|exact Hall].
      intros d (prediction & pid' & Hin & Hd). exists prediction, pid'. auto.
Qed.

(** The commercial search sends the prediction request and then detail
    requests only, no more than [slice] retains predictions. *)
Lemma searchWithGoogle_log :
  forall env w query limit apiKey req,
    getGoogleKey env = Ok apiKey ->
    autocomplete_request apiKey query = Ok req ->
    exists reqs,
      snd (run (searchWithGoogle env query limit) w) = req :: reqs
      /\ Forall (fun d => exists prediction pid,
                            detail_request apiKey prediction = Ok (pid, d)) reqs
      /\ forall bound : nat,
           (forall items : list json, List.length (slice0 items limit) <= bound)%nat ->
           (List.length reqs <= bound)%nat.
Proof.
  intros env w query limit apiKey req Hk Hreq.
  assert (Hnone : exists reqs : list request,
             [req] = req :: reqs
             /\ Forall (fun d => exists prediction pid,
                                   detail_request apiKey prediction = Ok (pid, d)) reqs
             /\ forall bound : nat,
                  (forall items : list json,
                      List.length (slice0 items limit) <= bound)%nat ->
                  (List.length reqs <= bound)%nat).
  { exists []. repeat split; [constructor|]. intros; simpl; lia. }
  destruct (net w 0 req) as [r|name] eqn:Hnet.
  - rewrite (searchWithGoogle_fetched _ _ _ _ _ _ _ Hk Hreq Hnet).
    unfold bind, lift, throw, ret.
    destruct (negb (ok r)); [exact Hnone|].
    destruct (body r) as [payload|name]; simpl; [|exact Hnone].
    destruct (get (Some payload) (u"status")) as [st|e]; [|exact Hnone].
    destruct (negb (is_string st (u"OK")) && negb (is_string st (u"ZERO_RESULTS")));
      [exact Hnone|].
    destruct (get (Some payload) (u"predictions")) as [p|e]; [|exact Hnone].
    destruct (get (nullish_or p (Some (JArr []))) (u"length")) as [len|e];
      [|exact Hnone].
    destruct (negb (truthy len)); [exact Hnone|].
    destruct (nullish_or p (Some (JArr []))) as [[| | | |items|]|]; try exact Hnone.
    destruct (detail_tasks_total apiKey w (slice0 items limit) [req])
      as (ps & log' & Hps).
    rewrite Hps, Promise_all_log.
    destruct (detail_tasks_log _ _ _ _ _ _ Hps) as (reqs & -> & Hlen & _ & Hall).
    exists reqs. repeat split.
    + eapply Forall_impl; [|exact Hall].
      intros d (prediction & pid & _ & Hd). eauto.
    + intros bound Hb. specialize (Hb items). lia.
  - assert (Hsr : search_request env google query limit = Ok req)
      by (unfold search_request; now rewrite Hk).
    rewrite (searchWithGoogle_rejected _ _ _ _ _ _ Hsr Hnet). exact Hnone.
Qed.

(** X5. A forward search with a limit that is a whole number [n >= 0]
    sends at most one request to the free provider and at most [1 + n]
    requests to the commercial provider (the prediction call and one
    detail call for each retained prediction), whatever the network
    answers; and it returns at most [n] candidates from the commercial
    provider. *)
Theorem search_request_budget :
  forall (env : Env) (w : World) (query : jsstring) (options : SearchOptions)
         (n : Z),
    ToIntegerOrInfinity (limit_of options) = Integer n ->
    0 <= n ->
    match resolveProvider env (opt_provider options) with
    | nominatim =>
      (List.length (snd (run (searchAddress env query options) w)) <= 1)%nat
    | google =>
      Z.of_nat (List.length (snd (run (searchAddress env query options) w))) <= 1 + n
      /\ forall cs, fst (run (searchAddress env query options) w) = Ok cs ->
                    Z.of_nat (List.length cs) <= n
    end.
Proof.
  intros env w query options n Hlim Hn.
  assert (Hslice : forall items : list json,
             (List.length (slice0 items (limit_of options)) <= Z.to_nat n)%nat).
  { intros items. pose proof (slice0_length _ items _ _ Hlim Hn). lia. }
  unfold searchAddress.
  destruct (resolveProvider env (opt_provider options)).
  - destruct (trim query); [simpl; lia|].
    rewrite searchWithNominatim_log.
    destruct (search_request env nominatim query (limit_of options)); simpl; lia.
  - destruct (trim query) as [|c q].
    { unfold run, ret. cbn [fst snd List.length]. split; [lia|].
      intros cs H. injection H as <-. cbn [List.length]. lia. }
    destruct (configured (credential env google)) eqn:Hc.
    + destruct (search_request_Ok env google query (limit_of options) Hc)
        as [req Hreq].
      pose proof Hreq as Hreq'.
      apply search_request_google in Hreq' as (apiKey & Hk & Hr).
      destruct (searchWithGoogle_log env w query (limit_of options) _ _ Hk Hr)
        as (reqs & Hlog & _ & Hbound).
      specialize (Hbound _ Hslice). split.
      * rewrite Hlog. cbn [List.length]. lia.
      * intros cs Hcs.
        destruct (run (searchWithGoogle env query (limit_of options)) w)
          as [res log] eqn:Hrun.
        simpl in Hcs. subst res.
        destruct (net w 0 req) as [r|name] eqn:Hnet.
        -- destruct (searchWithGoogle_Ok _ _ _ _ _ _ _ _ _ Hk Hr Hnet Hrun)
             as (payload & ps & _ & Hps & Hall & _).
           destruct (detail_tasks_log _ _ _ _ _ _ Hps) as (reqs' & _ & _ & Hlen & _).
           apply Forall2_length in Hall.
           specialize (Hslice (predictions_of payload)). lia.
        -- rewrite (searchWithGoogle_rejected _ _ _ _ _ _ Hreq Hnet) in Hrun.
           discriminate Hrun.
    + rewrite (searchWithGoogle_unconfigured _ _ _ _ Hc). cbn [fst snd List.length].
      split; [lia|].
      intros cs H. discriminate H.
Qed.

(** ** Where the requests go *)

Lemma search_request_shape :
  forall env p query limit req,
    search_request env p query limit = Ok req ->
    match p with
    | nominatim =>
      endpoint req = NOMINATIM_BASE ++ u"/search"
      /\ exists email, getNominatimEmail env = Ok email
                       /\ headers req = nominatim_headers env email
    | google => endpoint req = GOOGLE_AUTOCOMPLETE_URL /\ headers req = []
    end.
Proof.
  intros env [|] query limit req H.
  - apply search_request_nominatim in H as (email & He & Hr).
    unfold nominatim_search_request in Hr.
    destruct (encodeQuery _) as [q|e]; [|discriminate Hr].
    injection Hr as <-. split; [reflexivity|]. now exists email.
  - apply search_request_google in H as (apiKey & Hk & Hr).
    unfold autocomplete_request in Hr.
    destruct (encodeQuery _) as [q|e]; [|discriminate Hr].
    injection Hr as <-. now split.
Qed.

Lemma reverse_request_shape :
  forall env p la lo req,
    reverse_request env p la lo = Ok req ->
    match p with
    | nominatim =>
      endpoint req = NOMINATIM_BASE ++ u"/reverse"
      /\ exists email, getNominatimEmail env = Ok email
                       /\ headers req = nominatim_headers env email
    | google => endpoint req = GOOGLE_GEOCODE_URL /\ headers req = []
    end.
Proof.
  intros env [|] la lo req H.
  - apply reverse_request_nominatim in H as (email & He & Hr).
    unfold nominatim_reverse_request in Hr.
    destruct (encodeQuery _) as [q|e]; [|discriminate Hr].
    injection Hr as <-. split; [reflexivity|]. now exists email.
  - apply reverse_request_google in H as (apiKey & Hk & Hr).
    unfold google_reverse_request in Hr.
    destruct (pair_string _ _) as [latlng|e]; [|discriminate Hr].
    cbn [rbind] in Hr.
    destruct (encodeQuery _) as [q|e]; [|discriminate Hr].
    injection Hr as <-. now split.
Qed.

Lemma detail_request_shape :
  forall apiKey prediction pid d,
    detail_request apiKey prediction = Ok (pid, d) ->
    endpoint d = GOOGLE_GEOCODE_URL /\ headers d = [].
Proof.
  intros apiKey prediction pid d H. unfold detail_request in H.
  destruct (get (Some prediction) (u"place_id")) as [p|e]; [|discriminate H].
  cbn [rbind] in H.
  destruct (encodeQuery _) as [q|e]; [|discriminate H].
  injection H as _ <-. now split.
Qed.

(** X6. Every request of a forward search or of a reverse lookup goes
    to an endpoint of the provider the call resolves to, whatever the
    network answers: the free provider is never called on behalf of the
    commercial one, nor the other way round, and nothing is retried
    elsewhere after a failure. *)
Theorem requests_stay_with_provider :
  forall (env : Env) (w : World) (query : jsstring) (options : SearchOptions)
         (la lo : number) (preferred : option Provider),
    Forall (fun req => In (endpoint req)
                          (provider_endpoints
                             (resolveProvider env (opt_provider options))))
           (snd (run (searchAddress env query options) w))
    /\ Forall (fun req => In (endpoint req)
                             (provider_endpoints (resolveProvider env preferred)))
              (snd (run (reverseGeocode env la lo preferred) w)).
Proof.
  intros env w query options la lo preferred. split.
  - unfold searchAddress.
    destruct (trim query) as [|c q]; [constructor|].
    destruct (resolveProvider env (opt_provider options)) eqn:Hp.
    + rewrite searchWithNominatim_log.
      destruct (search_request env nominatim query (limit_of options))
        as [req|e] eqn:Hreq; [|constructor].
      apply search_request_shape in Hreq as [He _].
      constructor; [|constructor]. rewrite He. left; reflexivity.
    + destruct (configured (credential env google)) eqn:Hc.
      * destruct (search_request_Ok env google query (limit_of options) Hc)
          as [req Hreq].
        pose proof Hreq as Hshape. apply search_request_shape in Hshape as [He _].
        apply search_request_google in Hreq as (apiKey & Hk & Hr).
        destruct (searchWithGoogle_log env w query (limit_of options) _ _ Hk Hr)
          as (reqs & -> & Hall & _).
        constructor; [rewrite He; left; reflexivity|].
        eapply Forall_impl; [|exact Hall].
        intros d (prediction & pid & Hd).
        apply detail_request_shape in Hd as [-> _]. right; left; reflexivity.
      * rewrite (searchWithGoogle_unconfigured _ _ _ _ Hc). constructor.
  - rewrite reverseGeocode_log.
    destruct (reverse_request env (resolveProvider env preferred) la lo)
      as [req|e] eqn:Hreq; [|constructor].
    apply reverse_request_shape in Hreq.
    destruct (resolveProvider env preferred); destruct Hreq as [He _];
      (constructor; [|constructor]); rewrite He; right; left; reflexivity.
Qed.

Lemma nominatim_headers_lookup :
  forall env email,
    lookup (u"User-Agent") (nominatim_headers env email)
    = Some (u"GeoBogota/1.0 (" ++ email ++ u")")
    /\ lookup (u"From") (nominatim_headers env email) = Some email
    /\ lookup (u"Accept-Language") (nominatim_headers env email) = Some (u"es")
    /\ lookup (u"Referer") (nominatim_headers env email) = window_origin env.
Proof.
  intros env email. unfold nominatim_headers.
  destruct (window_origin env) as [origin|]; repeat split; vm_compute; reflexivity.
Qed.

(** X7. Every request sent to the free provider, by a forward search
    or by a reverse lookup, identifies the client: its [User-Agent] is
    ["GeoBogota/1.0 (<email>)"] with the configured contact address,
    [From] is that address, [Accept-Language] is ["es"], and [Referer]
    is the origin of the window, or is absent when there is none. *)
Theorem free_provider_requests_identified :
  forall (env : Env) (w : World) (query : jsstring) (options : SearchOptions)
         (la lo : number) (preferred : option Provider) (email : jsstring)
         (req : request),
    VITE_NOMINATIM_EMAIL env = Some email ->
    (resolveProvider env (opt_provider options) = nominatim
     /\ In req (snd (run (searchAddress env query options) w)))
    \/ (resolveProvider env preferred = nominatim
        /\ In req (snd (run (reverseGeocode env la lo preferred) w))) ->
    lookup (u"User-Agent") (headers req) = Some (u"GeoBogota/1.0 (" ++ email ++ u")")
    /\ lookup (u"From") (headers req) = Some email
    /\ lookup (u"Accept-Language") (headers req) = Some (u"es")
    /\ lookup (u"Referer") (headers req) = window_origin env.
Proof.
  intros env w query options la lo preferred email req Hemail Hin.
  assert (Hh : exists email', getNominatimEmail env = Ok email'
                              /\ headers req = nominatim_headers env email').
  { destruct Hin as [[Hp Hin]|[Hp Hin]].
    - unfold searchAddress in Hin. rewrite Hp in Hin.
      destruct (trim query) as [|c q]; [contradiction|].
      rewrite searchWithNominatim_log in Hin.
      destruct (search_request env nominatim query (limit_of options))
        as [req'|e] eqn:Hreq; [|contradiction].
      destruct Hin as [<-|[]].
      now apply search_request_shape in Hreq as [_ H].
    - rewrite reverseGeocode_log, Hp in Hin.
      destruct (reverse_request env nominatim la lo) as [req'|e] eqn:Hreq;
        [|contradiction].
      destruct Hin as [<-|[]].
      now apply reverse_request_shape in Hreq as [_ H]. }
  destruct Hh as (email' & He & ->).
  unfold getNominatimEmail in He. rewrite Hemail in He.
  destruct email as [|c s]; [discriminate He|]. injection He as <-.
  apply nominatim_headers_lookup.
Qed.

(** ** Rejected calls *)

(** X8. When the first call of a forward search is rejected (a network
    failure, or an abort: the name is then ["AbortError"]), or when its
    successful response has a body that cannot be read, the search
    rejects with that same rejection, after that single request. *)
Theorem search_rejection_propagates :
  forall (env : Env) (w : World) (query : jsstring) (options : SearchOptions)
         (req : request) (name : jsstring),
    trim query <> [] ->
    search_request env (resolveProvider env (opt_provider options)) query
                   (limit_of options) = Ok req ->
    net w 0 req = Rejects name
    \/ (exists r, net w 0 req = Fulfils r /\ ok r = true /\ body r = Rejects name) ->
    run (searchAddress env query options) w = (Throw (Rejection name), [req]).
Proof.
  intros env w query options req name Hq Hreq Hnet.
  unfold searchAddress.
  destruct (trim query) as [|c q]; [congruence|].
  destruct (resolveProvider env (opt_provider options)).
  - destruct Hnet as [Hnet|(r & Hnet & Hok & Hb)].
    + now apply searchWithNominatim_rejected.
    + rewrite (searchWithNominatim_fetched _ _ _ _ _ _ Hreq Hnet).
      now rewrite Hok, Hb.
  - destruct Hnet as [Hnet|(r & Hnet & Hok & Hb)].
    + now apply searchWithGoogle_rejected.
    + apply search_request_google in Hreq as (apiKey & Hk & Hr).
      rewrite (searchWithGoogle_fetched _ _ _ _ _ _ _ Hk Hr Hnet).
      now rewrite Hok, Hb.
Qed.

(** ** What the conversions raise *)

Lemma ToStringJ_throws :
  forall j e, ToStringJ j = Throw e -> e = TypeError.
Proof.
  fix IH 1. intros j e.
  destruct j as [| [|] | x | s | items | fields]; simpl; try discriminate.
  - revert e. induction items as [|x rest IHrest]; intros e; [discriminate|].
    pose proof (IH x) as Hx.
    assert (Helem : match x with JNull => Ok [] | _ => ToStringJ x end = Throw e ->
                    e = TypeError).
    { destruct x; try discriminate; apply Hx. }
    destruct rest as [|y rest]; [exact Helem|].
    intros H.
    destruct (match x with JNull => Ok [] | _ => ToStringJ x end) as [s|e0].
    + cbn [rbind] in H.
      match type of H with rbind ?J _ = _ => destruct J as [r|e1] end.
      * discriminate H.
      * cbn [rbind] in H. exact (IHrest _ H).
    + exact (Helem H).
  - destruct (assoc (u"toString") fields); [|discriminate].
    intros H. now injection H as <-.
Qed.

Lemma ToString_throws :
  forall v e, ToString v = Throw e -> e = TypeError.
Proof.
  intros [j|] e H; [exact (ToStringJ_throws _ _ H)|discriminate H].
Qed.

Lemma ToNumber_throws :
  forall v e, ToNumber v = Throw e -> e = TypeError.
Proof.
  intros [[| b | x | s | items | fields]|] e H; try discriminate H;
    unfold ToNumber in H;
    match type of H with rbind ?T _ = _ => destruct T as [s|e0] eqn:E end;
    try discriminate H; injection H as <-; exact (ToStringJ_throws _ _ E).
Qed.

Lemma toString_opt_throws :
  forall v e, toString_opt v = Throw e -> e = TypeError.
Proof.
  intros [j|] e H; [|discriminate H].
  destruct j; try discriminate H; unfold toString_opt in H;
    match type of H with rbind ?T _ = _ => destruct T as [s|e0] eqn:E end;
    try discriminate H; injection H as <-; exact (ToStringJ_throws _ _ E).
Qed.

Lemma pair_string_throws :
  forall a b e, pair_string a b = Throw e -> e = TypeError.
Proof.
  intros a b e H. unfold pair_string in H.
  destruct (ToString a) as [x|e0] eqn:Ea; cbn [rbind] in H;
    [|injection H as <-; exact (ToString_throws _ _ Ea)].
  destruct (ToString b) as [y|e0] eqn:Eb; cbn [rbind] in H;
    [discriminate H|injection H as <-; exact (ToString_throws _ _ Eb)].
Qed.

Lemma encodeQuery_throws :
  forall entries e, encodeQuery entries = Throw e -> e = TypeError.
Proof.
  induction entries as [|[key [j|]] rest IH]; intros e H.
  - discriminate H.
  - change (encodeQuery ((key, Some j) :: rest))
      with (s <- ToStringJ j ;; q <- encodeQuery rest ;;
            Ok ((usv key, usv s) :: q))%result
      in H.
    destruct (ToStringJ j) as [s|e0] eqn:E; cbn [rbind] in H;
      [|injection H as <-; exact (ToStringJ_throws _ _ E)].
    destruct (encodeQuery rest) as [q|e0]; cbn [rbind] in H;
      [discriminate H|injection H as <-; now apply IH].
  - apply IH. exact H.
Qed.

Lemma nominatim_id_throws :
  forall item e, nominatim_id item = Throw e -> e = TypeError.
Proof.
  intros item e H. unfold nominatim_id in H.
  destruct (get item (u"place_id")) as [pid|e0] eqn:E1; cbn [rbind] in H;
    [|injection H as <-; exact (get_throws _ _ _ E1)].
  destruct (toString_opt pid) as [[s|]|e0] eqn:E2; cbn [rbind] in H;
    [discriminate H| |injection H as <-; exact (toString_opt_throws _ _ E2)].
  destruct (get item (u"lat")) as [la|e0] eqn:E3; cbn [rbind] in H;
    [|injection H as <-; exact (get_throws _ _ _ E3)].
  destruct (get item (u"lon")) as [lo|e0] eqn:E4; cbn [rbind] in H;
    [|injection H as <-; exact (get_throws _ _ _ E4)].
  exact (pair_string_throws _ _ _ H).
Qed.

Lemma nominatim_candidate_throws :
  forall item e, nominatim_candidate item = Throw e -> e = TypeError.
Proof.
  intros item e H. unfold nominatim_candidate in H.
  destruct (nominatim_id (Some item)) as [i|e0] eqn:E1; cbn [rbind] in H;
    [|injection H as <-; exact (nominatim_id_throws _ _ E1)].
  destruct (get (Some item) (u"display_name")) as [name|e0] eqn:E2; cbn [rbind] in H;
    [|injection H as <-; exact (get_throws _ _ _ E2)].
  destruct (get (Some item) (u"lat")) as [la|e0] eqn:E3; cbn [rbind] in H;
    [|injection H as <-; exact (get_throws _ _ _ E3)].
  destruct (ToNumber la) as [x|e0] eqn:E4; cbn [rbind] in H;
    [|injection H as <-; exact (ToNumber_throws _ _ E4)].
  destruct (get (Some item) (u"lon")) as [lo|e0] eqn:E5; cbn [rbind] in H;
    [|injection H as <-; exact (get_throws _ _ _ E5)].
  destruct (ToNumber lo) as [y|e0] eqn:E6; cbn [rbind] in H;
    [discriminate H|injection H as <-; exact (ToNumber_throws _ _ E6)].
Qed.

Lemma nominatim_reverse_candidate_throws :
  forall la lo payload e,
    nominatim_reverse_candidate la lo payload = Throw e -> e = TypeError.
Proof.
  intros la lo payload e H. unfold nominatim_reverse_candidate in H.
  destruct (nominatim_id (Some payload)) as [i|e0] eqn:E1; cbn [rbind] in H;
    [|injection H as <-; exact (nominatim_id_throws _ _ E1)].
  destruct (get (Some payload) (u"display_name")) as [name|e0] eqn:E2;
    cbn [rbind] in H; [|injection H as <-; exact (get_throws _ _ _ E2)].
  destruct (get (Some payload) (u"lat")) as [pla|e0] eqn:E3; cbn [rbind] in H;
    [|injection H as <-; exact (get_throws _ _ _ E3)].
  destruct (ToNumber (nullish_or pla (Some (JNum la)))) as [x|e0] eqn:E4;
    cbn [rbind] in H; [|injection H as <-; exact (ToNumber_throws _ _ E4)].
  destruct (get (Some payload) (u"lon")) as [plo|e0] eqn:E5; cbn [rbind] in H;
    [|injection H as <-; exact (get_throws _ _ _ E5)].
  destruct (ToNumber (nullish_or plo (Some (JNum lo)))) as [y|e0] eqn:E6;
    cbn [rbind] in H;
    [discriminate H|injection H as <-; exact (ToNumber_throws _ _ E6)].
Qed.

Lemma map_result_Throw :
  forall (A B : Type) (f : A -> result B) (l : list A) (e : exn),
    map_result f l = Throw e -> exists x, In x l /\ f x = Throw e.
Proof.
  intros A B f. induction l as [|x l IH]; intros e H; [discriminate H|].
  cbn [map_result] in H.
  destruct (f x) as [y|e0] eqn:E; cbn [rbind] in H.
  - destruct (map_result f l) as [ys|e1]; cbn [rbind] in H; [discriminate H|].
    injection H as <-. destruct (IH _ eq_refl) as (x' & Hin & Hx).
    exists x'. split; [now right|exact Hx].
  - injection H as <-. exists x. split; [now left|exact E].
Qed.

Lemma detail_request_throws :
  forall apiKey prediction e,
    detail_request apiKey prediction = Throw e -> e = TypeError.
Proof.
  intros apiKey prediction e H. unfold detail_request in H.
  destruct (get (Some prediction) (u"place_id")) as [pid|e0] eqn:E1;
    cbn [rbind] in H; [|injection H as <-; exact (get_throws _ _ _ E1)].
  destruct (encodeQuery _) as [q|e0] eqn:E2; cbn [rbind] in H;
    [discriminate H|injection H as <-; exact (encodeQuery_throws _ _ E2)].
Qed.

(** What a detail call fails with: the rejection of its [fetch] or of
    the reading of the body, the detail message, a message of the
    status table, or a TypeError of the run time. *)
Lemma detail_result_throws :
  forall prediction pid fetched e,
    detail_result prediction pid fetched = Throw e ->
    (exists name, e = Rejection name)
    \/ e = Error detail_failed
    \/ (exists st, e = Error (googleStatusMessage st))
    \/ e = TypeError.
Proof.
  intros prediction pid fetched e H. unfold detail_result in H.
  destruct fetched as [r|name]; cbn [await rbind] in H;
    [|injection H as <-; eauto].
  destruct (negb (ok r)); [injection H as <-; auto|].
  destruct (body r) as [payload|name]; cbn [await rbind] in H;
    [|injection H as <-; eauto].
  destruct (get (Some payload) (u"status")) as [st|e0] eqn:E1; cbn [rbind] in H;
    [|injection H as <-; apply get_throws in E1; auto].
  destruct (negb (is_string st (u"OK"))); [injection H as <-; eauto|].
  destruct (get (Some payload) (u"results")) as [results|e0] eqn:E2;
    cbn [rbind] in H; [|injection H as <-; apply get_throws in E2; auto].
  destruct (get_opt results (u"length")) as [len|e0] eqn:E3; cbn [rbind] in H;
    [|injection H as <-; apply get_opt_throws in E3; auto].
  destruct (negb (truthy len)); [injection H as <-; eauto|].
  destruct (index0 results) as [res|e0] eqn:E4; cbn [rbind] in H;
    [|injection H as <-; apply index0_throws in E4; auto].
  destruct (get (Some prediction) (u"description")) as [d|e0] eqn:E5;
    cbn [rbind] in H; [|injection H as <-; apply get_throws in E5; auto].
  destruct (get res (u"geometry")) as [g|e0] eqn:E6; cbn [rbind] in H;
    [|injection H as <-; apply get_throws in E6; auto].
  destruct (get g (u"location")) as [l|e0] eqn:E7; cbn [rbind] in H;
    [|injection H as <-; apply get_throws in E7; auto].
  destruct (get l (u"lat")) as [la|e0] eqn:E8; cbn [rbind] in H;
    [|injection H as <-; apply get_throws in E8; auto].
  destruct (get l (u"lng")) as [lo|e0] eqn:E9; cbn [rbind] in H;
    [discriminate H|injection H as <-; apply get_throws in E9; auto].
Qed.


(** Every promise of the detail phase is either rejected from the start
    by a failed [detail_request], or pending on the detail call of its
    prediction, issued after the requests already logged. *)
Lemma detail_tasks_outcomes :
  forall apiKey w l log ps log',
    mapIO (detail_task apiKey) l w log = (Ok ps, log') ->
    Forall (fun p =>
              (exists prediction e,
                  detail_request apiKey prediction = Throw e
                  /\ p = Settled (Throw e))
              \/ (exists prediction pid d n,
                     detail_request apiKey prediction = Ok (pid, d)
                     /\ (List.length log <= n)%nat
                     /\ p = Pending (detail_result prediction pid (net w n d)))) ps.
Proof.
  intros apiKey w. induction l as [|x l IH]; intros log ps log' Hrun.
  - injection Hrun as <- _. constructor.
  - rewrite mapIO_cons, detail_task_run in Hrun.
    destruct (detail_request apiKey x) as [[pid dreq]|e] eqn:Ereq;
      (destruct (mapIO _ l w _) as [[ps'|e'] log1] eqn:E; [|discriminate]);
      injection Hrun as <- _; specialize (IH _ _ _ E).
    + constructor.
      * right. exists x, pid, dreq, (List.length log). auto.
      * eapply Forall_impl; [|exact IH].
        intros p [H|(prediction & pid' & d & n & H1 & H2 & H3)]; [now left|].
        right. exists prediction, pid', d, n. repeat split; auto.
        rewrite length_app in H2. simpl in H2. lia.
    + constructor; [left; eauto|exact IH].
Qed.

Lemma Forall2_Forall_r :
  forall (A B : Type) (R : A -> B -> Prop) (P : A -> Prop) (Q : B -> Prop)
         (l : list A) (l' : list B),
    Forall2 R l l' -> Forall P l ->
    (forall x y, P x -> R x y -> Q y) ->
    Forall Q l'.
Proof.
  intros A B R P Q l l' H2. induction H2 as [|x y l l' HR H2 IH]; intros HP HQ.
  - constructor.
  - inversion HP; subst. constructor; eauto.
Qed.

(** A forward search that succeeds was either blank, or got a response
    to the first request of the resolved provider. *)
Lemma searchAddress_Ok_inv :
  forall env w query options cs log,
    run (searchAddress env query options) w = (Ok cs, log) ->
    (trim query = [] /\ cs = [] /\ log = [])
    \/ (trim query <> []
        /\ exists req r,
             search_request env (resolveProvider env (opt_provider options)) query
                            (limit_of options) = Ok req
             /\ net w 0 req = Fulfils r).
Proof.
  intros env w query options cs log H. unfold searchAddress in H.
  destruct (trim query) as [|c q]; [left; injection H as <- <-; auto|].
  right. split; [discriminate|].
  destruct (configured (credential env (resolveProvider env (opt_provider options))))
    eqn:Hc.
  - destruct (search_request_Ok env _ query (limit_of options) Hc) as [req Hreq].
    exists req. destruct (net w 0 req) as [r|name] eqn:Hnet; [eauto|].
    destruct (resolveProvider env (opt_provider options)).
    + rewrite (searchWithNominatim_rejected _ _ _ _ _ _ Hreq Hnet) in H.
      discriminate H.
    + rewrite (searchWithGoogle_rejected _ _ _ _ _ _ Hreq Hnet) in H.
      discriminate H.
  - destruct (resolveProvider env (opt_provider options)).
    + rewrite (searchWithNominatim_unconfigured _ _ _ _ Hc) in H. discriminate H.
    + rewrite (searchWithGoogle_unconfigured _ _ _ _ Hc) in H. discriminate H.
Qed.

Lemma nominatim_candidate_fields :
  forall item c,
    nominatim_candidate item = Ok c ->
    provider c = nominatim /\ placeId c = None
    /\ (exists s, id c = str s)
    /\ (exists x, lat c = Some (JNum x)) /\ (exists y, lng c = Some (JNum y)).
Proof.
  intros item c H. unfold nominatim_candidate in H.
  destruct (nominatim_id (Some item)); cbn [rbind] in H; [|discriminate H].
  destruct (get (Some item) (u"display_name")); cbn [rbind] in H; [|discriminate H].
  destruct (get (Some item) (u"lat")) as [la|]; cbn [rbind] in H; [|discriminate H].
  destruct (ToNumber la); cbn [rbind] in H; [|discriminate H].
  destruct (get (Some item) (u"lon")) as [lo|]; cbn [rbind] in H; [|discriminate H].
  destruct (ToNumber lo); cbn [rbind] in H; [|discriminate H].
  injection H as <-. cbn. eauto 10.
Qed.

(** The candidates of a successful commercial search, one by one. *)
Lemma searchWithGoogle_candidates :
  forall env w query limit apiKey req r cs log,
    getGoogleKey env = Ok apiKey ->
    autocomplete_request apiKey query = Ok req ->
    net w 0 req = Fulfils r ->
    run (searchWithGoogle env query limit) w = (Ok cs, log) ->
    Forall (fun c => exists prediction pid fetched,
                       detail_result prediction pid fetched = Ok c) cs.
Proof.
  intros env w query limit apiKey req r cs log Hk Hreq Hnet Hrun.
  destruct (searchWithGoogle_Ok _ _ _ _ _ _ _ _ _ Hk Hreq Hnet Hrun)
    as (payload & ps & _ & Hps & Hall & _).
  apply detail_tasks_outcomes in Hps.
  eapply Forall2_Forall_r; [exact Hall|exact Hps|].
  intros p c [(prediction & e & _ & ->)|(prediction & pid & d & n & _ & _ & ->)] Hc;
    simpl in Hc; [discriminate Hc|eauto].
Qed.

Lemma reverseGeocode_unconfigured_run :
  forall env w la lo preferred,
    configured (credential env (resolveProvider env preferred)) = false ->
    run (reverseGeocode env la lo preferred) w
    = (Throw (configuration_error (resolveProvider env preferred)), []).
Proof.
  intros env w la lo preferred H.
  apply credential_missing in H. unfold reverseGeocode, run.
  destruct (resolveProvider env preferred).
  - unfold reverseWithNominatim. now rewrite H.
  - unfold reverseWithGoogle. now rewrite H.
Qed.

(** A reverse lookup that returns a candidate got it from the literal
    of the resolved provider's adapter. *)
Lemma reverseGeocode_Some_inv :
  forall env w la lo preferred c log,
    run (reverseGeocode env la lo preferred) w = (Ok (Some c), log) ->
    match resolveProvider env preferred with
    | nominatim => exists payload, nominatim_reverse_candidate la lo payload = Ok c
    | google => exists res, google_reverse_candidate la lo res = Ok c
    end.
Proof.
  intros env w la lo preferred c log H.
  destruct (reverse_request env (resolveProvider env preferred) la lo)
    as [req|e] eqn:Hreq.
  - destruct (net w 0 req) as [r|name] eqn:Hnet;
      [|rewrite (reverseGeocode_rejected_fetch _ _ _ _ _ _ _ Hreq Hnet) in H;
        discriminate H].
    unfold reverseGeocode in H. destruct (resolveProvider env preferred).
    + rewrite (reverseWithNominatim_fetched _ _ _ _ _ _ Hreq Hnet) in H.
      destruct (negb (ok r)); [discriminate H|].
      destruct (body r) as [payload|name]; cbn [await rbind] in H; [|discriminate H].
      destruct (negb (truthy (Some payload))); [discriminate H|].
      destruct (nominatim_reverse_candidate la lo payload) as [c'|e] eqn:E;
        cbn [rbind] in H; [|discriminate H].
      exists payload. congruence.
    + rewrite (reverseWithGoogle_fetched _ _ _ _ _ _ Hreq Hnet) in H.
      destruct (negb (ok r)); [discriminate H|].
      destruct (body r) as [payload|name]; cbn [await rbind] in H; [|discriminate H].
      destruct (get (Some payload) (u"status")) as [st|e]; cbn [rbind] in H;
        [|discriminate H].
      destruct (negb (is_string st (u"OK"))); [discriminate H|].
      destruct (get (Some payload) (u"results")) as [results|e]; cbn [rbind] in H;
        [|discriminate H].
      destruct (get_opt results (u"length")) as [len|e]; cbn [rbind] in H;
        [|discriminate H].
      destruct (negb (truthy len)); [discriminate H|].
      destruct (index0 results) as [res|e]; cbn [rbind] in H; [|discriminate H].
      destruct (google_reverse_candidate la lo res) as [c'|e] eqn:E;
        cbn [rbind] in H; [|discriminate H].
      exists res. congruence.
  - apply reverse_request_Throw in Hreq.
    rewrite reverseGeocode_unconfigured_run in H by exact Hreq. discriminate H.
Qed.

Lemma nominatim_reverse_candidate_fields :
  forall la lo payload c,
    nominatim_reverse_candidate la lo payload = Ok c ->
    provider c = nominatim /\ placeId c = None
    /\ (exists x, lat c = Some (JNum x)) /\ (exists y, lng c = Some (JNum y)).
Proof.
  intros la lo payload c H. unfold nominatim_reverse_candidate in H.
  destruct (nominatim_id (Some payload)); cbn [rbind] in H; [|discriminate H].
  destruct (get (Some payload) (u"display_name")); cbn [rbind] in H;
    [|discriminate H].
  destruct (get (Some payload) (u"lat")) as [pla|]; cbn [rbind] in H;
    [|discriminate H].
  destruct (ToNumber (nullish_or pla _)); cbn [rbind] in H; [|discriminate H].
  destruct (get (Some payload) (u"lon")) as [plo|]; cbn [rbind] in H;
    [|discriminate H].
  destruct (ToNumber (nullish_or plo _)); cbn [rbind] in H; [|discriminate H].
  injection H as <-. cbn. eauto 10.
Qed.

Lemma google_reverse_candidate_fields :
  forall la lo res c,
    google_reverse_candidate la lo res = Ok c ->
    provider c = google
    /\ lat c = Some (JNum la) /\ lng c = Some (JNum lo)
    /\ exists pid, get res (u"place_id") = Ok pid
                   /\ placeId c = Some pid
                   /\ (is_nullish pid = false -> id c = pid)
                   /\ (is_nullish pid = true ->
                       exists s, pair_string (Some (JNum la)) (Some (JNum lo)) = Ok s
                                 /\ id c = str s).
Proof.
  intros la lo res c H. unfold google_reverse_candidate in H.
  destruct (get res (u"place_id")) as [pid|]; cbn [rbind] in H; [|discriminate H].
  destruct (is_nullish pid) eqn:Hn.
  - destruct (pair_string _ _) as [s|]; cbn [rbind] in H; [|discriminate H].
    destruct (get res (u"formatted_address")); cbn [rbind] in H; [|discriminate H].
    injection H as <-. cbn.
    split; [reflexivity|]. split; [reflexivity|]. split; [reflexivity|].
    exists pid. split; [reflexivity|]. split; [reflexivity|].
    split; [intros Hf; congruence|].
    intros _. exists s. auto.
  - cbn [rbind] in H.
    destruct (get res (u"formatted_address")); cbn [rbind] in H; [|discriminate H].
    injection H as <-. cbn.
    split; [reflexivity|]. split; [reflexivity|]. split; [reflexivity|].
    exists pid. split; [reflexivity|]. split; [reflexivity|].
    split; [reflexivity|]. intros Hf; congruence.
Qed.

Lemma google_reverse_candidate_raw :
  forall la lo res c,
    google_reverse_candidate la lo res = Ok c ->
    raw c = res /\ get res (u"formatted_address") = Ok (label c).
Proof.
  intros la lo res c H. unfold google_reverse_candidate in H.
  destruct (get res (u"place_id")) as [pid|]; cbn [rbind] in H; [|discriminate H].
  destruct (if is_nullish pid then _ else _) as [fallback|]; cbn [rbind] in H;
    [|discriminate H].
  destruct (get res (u"formatted_address")) as [address|]; cbn [rbind] in H;
    [|discriminate H].
  injection H as <-. split; reflexivity.
Qed.

(** The candidate of a commercial reverse lookup is made from the first
    result of the response to the request of the lookup. *)
Lemma reverseWithGoogle_Some_inv :
  forall env w la lo c log,
    run (reverseWithGoogle env la lo) w = (Ok (Some c), log) ->
    exists req r payload results,
      reverse_request env google la lo = Ok req
      /\ log = [req]
      /\ net w 0 req = Fulfils r
      /\ ok r = true
      /\ body r = Fulfils payload
      /\ get (Some payload) (u"results") = Ok results
      /\ index0 results = Ok (raw c)
      /\ google_reverse_candidate la lo (raw c) = Ok c.
Proof.
  intros env w la lo c log H.
  destruct (reverse_request env google la lo) as [req|e] eqn:Hreq.
  - destruct (net w 0 req) as [r|name] eqn:Hnet.
    + rewrite (reverseWithGoogle_fetched _ _ _ _ _ _ Hreq Hnet) in H.
      destruct (ok r) eqn:Hok; [|discriminate H]. cbn [negb] in H.
      destruct (body r) as [payload|name] eqn:Hb; cbn [await rbind] in H;
        [|discriminate H].
      destruct (get (Some payload) (u"status")) as [st|e]; cbn [rbind] in H;
        [|discriminate H].
      destruct (negb (is_string st (u"OK"))); [discriminate H|].
      destruct (get (Some payload) (u"results")) as [results|e] eqn:Hr;
        cbn [rbind] in H; [|discriminate H].
      destruct (get_opt results (u"length")) as [len|e]; cbn [rbind] in H;
        [|discriminate H].
      destruct (negb (truthy len)); [discriminate H|].
      destruct (index0 results) as [res|e] eqn:Hi; cbn [rbind] in H;
        [|discriminate H].
      destruct (google_reverse_candidate la lo res) as [c'|e] eqn:E;
        cbn [rbind] in H; [|discriminate H].
      assert (c' = c) as -> by congruence.
      assert (log = [req]) as -> by congruence.
      destruct (google_reverse_candidate_raw _ _ _ _ E) as [Hraw _].
      exists req, r, payload, results. rewrite Hraw.
      split; [reflexivity|]. split; [reflexivity|]. split; [exact Hnet|].
      split; [exact Hok|]. split; [exact Hb|]. split; [exact Hr|].
      split; [exact Hi|exact E].
    + pose proof (reverseGeocode_rejected_fetch env w la lo (Some google) req name
                    Hreq Hnet) as Hrej.
      unfold reverseGeocode in Hrej. cbn [resolveProvider] in Hrej.
      rewrite Hrej in H. discriminate H.
  - apply (reverse_request_Throw env google) in Hreq.
    pose proof (reverseGeocode_unconfigured_run env w la lo (Some google) Hreq)
      as Hun.
    unfold reverseGeocode in Hun. cbn [resolveProvider] in Hun.
    rewrite Hun in H. discriminate H.
Qed.

(** ** Fields of the candidates *)

(** X9. Every candidate an operation returns is tagged with the
    provider the call resolved to. A candidate of the free provider has
    no [placeId]; a candidate of a commercial forward search has its
    [id] as [placeId]; a candidate of a commercial reverse lookup has
    as [raw] the first result of the response to the request of the
    lookup and as [placeId] the [place_id] of that result, which is also
    its [id] unless it is [null] or missing, when the [id] is the two
    input coordinates joined by a comma. *)
Theorem candidates_carry_provider :
  (forall (env : Env) (w : World) (query : jsstring) (options : SearchOptions)
          (cs : list GeocodeResult) (log : list request),
      run (searchAddress env query options) w = (Ok cs, log) ->
      Forall (fun c => provider c = resolveProvider env (opt_provider options)
                       /\ placeId c = match provider c with
                                      | nominatim => None
                                      | google => Some (id c)
                                      end) cs)
  /\ (forall (env : Env) (w : World) (la lo : number) (preferred : option Provider)
             (c : GeocodeResult) (log : list request),
      run (reverseGeocode env la lo preferred) w = (Ok (Some c), log) ->
      provider c = resolveProvider env preferred
      /\ match provider c with
         | nominatim => placeId c = None
         | google =>
           exists (req : request) (r : response) (payload : json)
                  (results pid : value),
             reverse_request env google la lo = Ok req
             /\ log = [req]
             /\ net w 0 req = Fulfils r
             /\ body r = Fulfils payload
             /\ get (Some payload) (u"results") = Ok results
             /\ index0 results = Ok (raw c)
             /\ get (raw c) (u"place_id") = Ok pid
             /\ placeId c = Some pid
             /\ (is_nullish pid = false -> id c = pid)
             /\ (is_nullish pid = true ->
                 id c = str (NumberToString la ++ u"," ++ NumberToString lo))
         end).
Proof.
  split.
  - intros env w query options cs log H.
    destruct (searchAddress_Ok_inv _ _ _ _ _ _ H)
      as [(_ & -> & _)|(Hq & req & r & Hreq & Hnet)]; [constructor|].
    unfold searchAddress in H.
    destruct (trim query) as [|ch q]; [congruence|].
    destruct (resolveProvider env (opt_provider options)).
    + destruct (searchWithNominatim_Ok _ _ _ _ _ _ _ _ Hreq Hnet H)
        as (items & _ & Hall).
      eapply Forall2_Forall_r with (P := fun _ => True);
        [exact Hall|apply Forall_forall; auto|].
      intros item c _ Hc.
      apply nominatim_candidate_fields in Hc as (Hp & Hpl & _).
      now rewrite Hp, Hpl.
    + apply search_request_google in Hreq as (apiKey & Hk & Hr).
      pose proof (searchWithGoogle_candidates _ _ _ _ _ _ _ _ _ Hk Hr Hnet H) as Hall.
      eapply Forall_impl; [|exact Hall].
      intros c (prediction & pid & fetched & Hc).
      apply detail_result_Ok in Hc as (Hid & Hpl & Hp & _).
      now rewrite Hp, Hpl, Hid.
  - intros env w la lo preferred c log H.
    pose proof (reverseGeocode_Some_inv _ _ _ _ _ _ _ H) as Hinv.
    unfold reverseGeocode in H.
    destruct (resolveProvider env preferred).
    + destruct Hinv as [payload Hc].
      apply nominatim_reverse_candidate_fields in Hc as (Hp & Hpl & _).
      now rewrite Hp.
    + clear Hinv.
      destruct (reverseWithGoogle_Some_inv _ _ _ _ _ _ H)
        as (req & r & payload & results & Hreq & Hlog & Hnet & _ & Hb & Hr
            & Hi & Hc).
      apply google_reverse_candidate_fields in Hc
        as (Hp & _ & _ & pid & Hpid & Hpl & Hid & Hnull).
      rewrite Hp. split; [reflexivity|].
      exists req, r, payload, results, pid.
      split; [exact Hreq|]. split; [exact Hlog|]. split; [exact Hnet|].
      split; [exact Hb|]. split; [exact Hr|]. split; [exact Hi|].
      split; [exact Hpid|]. split; [exact Hpl|]. split; [exact Hid|].
      intros Hn. destruct (Hnull Hn) as (s & Hs & Hids).
      unfold pair_string in Hs. cbn [ToString ToStringJ rbind] in Hs.
      injection Hs as <-. exact Hids.
Qed.

(** X10. The coordinates of a candidate of the commercial forward
    search are the values found at [geometry.location.lat] and
    [geometry.location.lng] of the detail result kept as [raw]: they
    are passed on as the provider sent them, without conversion to a
    number. *)
Theorem google_search_coordinates :
  forall (env : Env) (w : World) (query : jsstring) (options : SearchOptions)
         (cs : list GeocodeResult) (log : list request),
    resolveProvider env (opt_provider options) = google ->
    run (searchAddress env query options) w = (Ok cs, log) ->
    Forall (fun c => exists geometry location : value,
                       get (raw c) (u"geometry") = Ok geometry
                       /\ get geometry (u"location") = Ok location
                       /\ get location (u"lat") = Ok (lat c)
                       /\ get location (u"lng") = Ok (lng c)) cs.
Proof.
  intros env w query options cs log Hp H.
  destruct (searchAddress_Ok_inv _ _ _ _ _ _ H)
    as [(_ & -> & _)|(Hq & req & r & Hreq & Hnet)]; [constructor|].
  unfold searchAddress in H. rewrite Hp in H, Hreq.
  destruct (trim query) as [|ch q]; [congruence|].
  apply search_request_google in Hreq as (apiKey & Hk & Hr).
  pose proof (searchWithGoogle_candidates _ _ _ _ _ _ _ _ _ Hk Hr Hnet H) as Hall.
  eapply Forall_impl; [|exact Hall].
  intros c (prediction & pid & fetched & Hc).
  exact (detail_result_coordinates _ _ _ _ Hc).
Qed.

(** The coordinates of the candidates of the free provider, and of
    every reverse lookup, are Numbers. *)
Lemma nominatim_search_numbers :
  forall env w query options cs log,
    resolveProvider env (opt_provider options) = nominatim ->
    run (searchAddress env query options) w = (Ok cs, log) ->
    Forall (fun c => exists x y, lat c = Some (JNum x) /\ lng c = Some (JNum y)) cs.
Proof.
  intros env w query options cs log Hp H.
  destruct (searchAddress_Ok_inv _ _ _ _ _ _ H)
    as [(_ & -> & _)|(Hq & req & r & Hreq & Hnet)]; [constructor|].
  unfold searchAddress in H. rewrite Hp in H, Hreq.
  destruct (trim query) as [|ch q]; [congruence|].
  destruct (searchWithNominatim_Ok _ _ _ _ _ _ _ _ Hreq Hnet H) as (items & _ & Hall).
  eapply Forall2_Forall_r with (P := fun _ => True);
    [exact Hall|apply Forall_forall; auto|].
  intros item c _ Hc.
  apply nominatim_candidate_fields in Hc as (_ & _ & _ & [x Hx] & [y Hy]). eauto.
Qed.

Lemma reverseGeocode_numbers :
  forall env w la lo preferred c log,
    run (reverseGeocode env la lo preferred) w = (Ok (Some c), log) ->
    exists x y, lat c = Some (JNum x) /\ lng c = Some (JNum y).
Proof.
  intros env w la lo preferred c log H.
  apply reverseGeocode_Some_inv in H.
  destruct (resolveProvider env preferred); destruct H as [v H].
  - apply nominatim_reverse_candidate_fields in H as (_ & _ & [x Hx] & [y Hy]). eauto.
  - apply google_reverse_candidate_fields in H as (_ & Hx & Hy & _). eauto.
Qed.

(** ** What an operation fails with *)

Lemma getNominatimEmail_throws :
  forall env e, getNominatimEmail env = Throw e -> e = Error missing_email.
Proof.
  intros env e H. unfold getNominatimEmail in H.
  destruct (VITE_NOMINATIM_EMAIL env) as [[|c s]|]; congruence.
Qed.

Lemma getGoogleKey_throws :
  forall env e, getGoogleKey env = Throw e -> e = Error missing_key.
Proof.
  intros env e H. unfold getGoogleKey in H.
  destruct (VITE_GOOGLE_KEY env) as [[|c s]|]; congruence.
Qed.

(** X11. A forward search fails only in these ways. With the free
    provider: the missing-email error, the rate-limit error, the
    generic Nominatim error, a TypeError of the run time, or the
    rejection of its call. With the commercial provider: the
    missing-key error, the prediction error, the detail error, a
    message of the status table, a TypeError of the run time, or the
    rejection of one of its calls. *)
Theorem search_failures :
  forall (env : Env) (w : World) (query : jsstring) (options : SearchOptions)
         (e : exn) (log : list request),
    run (searchAddress env query options) w = (Throw e, log) ->
    match resolveProvider env (opt_provider options) with
    | nominatim =>
      e = Error missing_email \/ e = Error rate_limited
      \/ e = Error nominatim_failed \/ e = TypeError
      \/ exists name, e = Rejection name
    | google =>
      e = Error missing_key \/ e = Error autocomplete_failed
      \/ e = Error detail_failed
      \/ (exists st, e = Error (googleStatusMessage st))
      \/ e = TypeError \/ exists name, e = Rejection name
    end.
Proof.
  intros env w query options e log H. unfold searchAddress in H.
  destruct (trim query) as [|ch q]; [destruct (resolveProvider _ _); discriminate H|].
  destruct (resolveProvider env (opt_provider options)).
  - destruct (search_request env nominatim query (limit_of options))
      as [req|e0] eqn:Hreq.
    + destruct (net w 0 req) as [r|name] eqn:Hnet.
      * rewrite (searchWithNominatim_fetched _ _ _ _ _ _ Hreq Hnet) in H.
        destruct (negb (ok r)).
        { destruct (Geocode.status r =? 429); injection H as <- _;
            [right; left; reflexivity|right; right; left; reflexivity]. }
        destruct (body r) as [payload|name]; cbn [await rbind] in H;
          [|injection H as <- _; do 4 right; exists name; reflexivity].
        destruct payload as [| | | |items|];
          try (injection H as <- _; do 3 right; left; reflexivity).
        injection H as H _.
        apply map_result_Throw in H as (item & _ & Hitem).
        apply nominatim_candidate_throws in Hitem. do 3 right; left; exact Hitem.
      * rewrite (searchWithNominatim_rejected _ _ _ _ _ _ Hreq Hnet) in H.
        injection H as <- _. do 4 right; exists name; reflexivity.
    + apply search_request_Throw in Hreq.
      rewrite (searchWithNominatim_unconfigured _ _ _ _ Hreq) in H.
      injection H as <- _. left; reflexivity.
  - destruct (search_request env google query (limit_of options))
      as [req|e0] eqn:Hreq.
    + destruct (net w 0 req) as [r|name] eqn:Hnet.
      * apply search_request_google in Hreq as (apiKey & Hk & Hr).
        rewrite (searchWithGoogle_fetched _ _ _ _ _ _ _ Hk Hr Hnet) in H.
        revert H. unfold bind, lift, throw, ret.
        destruct (negb (ok r));
          [intros H; injection H as <- _; right; left; reflexivity|].
        destruct (body r) as [payload|name]; cbn [await];
          [|intros H; injection H as <- _; do 5 right; exists name; reflexivity].
        destruct (get (Some payload) (u"status")) as [st|e1] eqn:E1;
          [|intros H; injection H as <- _; apply get_throws in E1;
            do 4 right; left; exact E1].
        destruct (negb (is_string st (u"OK"))
                  && negb (is_string st (u"ZERO_RESULTS")));
          [intros H; injection H as <- _; do 3 right; left; exists st; reflexivity|].
        destruct (get (Some payload) (u"predictions")) as [p|e2] eqn:E2;
          [|intros H; injection H as <- _; apply get_throws in E2;
            do 4 right; left; exact E2].
        destruct (get (nullish_or p (Some (JArr []))) (u"length")) as [len|e3] eqn:E3;
          [|intros H; injection H as <- _; apply get_throws in E3;
            do 4 right; left; exact E3].
        destruct (negb (truthy len)); [discriminate|].
        destruct (nullish_or p (Some (JArr []))) as [[| | | |items|]|];
          try (intros H; injection H as <- _; do 4 right; left; reflexivity).
        destruct (mapIO (detail_task apiKey) (slice0 items (limit_of options)) w [req])
          as [[ps|e4] log1] eqn:Eps.
        2:{ destruct (detail_tasks_total apiKey w (slice0 items (limit_of options))
                                         [req]) as (ps & log' & Hps).
            congruence. }
        unfold Promise_all.
        assert (Hin : forall p0, In p0 ps -> outcome p0 = Throw e ->
                      e = Error missing_key \/ e = Error autocomplete_failed
                      \/ e = Error detail_failed
                      \/ (exists st0, e = Error (googleStatusMessage st0))
                      \/ e = TypeError \/ exists name, e = Rejection name).
        { intros p0 Hp0 Hout.
          apply detail_tasks_outcomes in Eps.
          rewrite Forall_forall in Eps.
          destruct (Eps _ Hp0)
            as [(prediction & e' & Hd & ->)
               |(prediction & pid & d & n & _ & _ & ->)]; simpl in Hout.
          - injection Hout as ->. apply detail_request_throws in Hd.
            do 4 right; left; exact Hd.
          - apply detail_result_throws in Hout
              as [[name Hn]|[Hn|[[st0 Hn]|Hn]]].
            + do 5 right; exists name; exact Hn.
            + do 2 right; left; exact Hn.
            + do 3 right; left; exists st0; exact Hn.
            + do 4 right; left; exact Hn. }
        destruct (first_rejection ps (settle_order ps (arrival w))) as [e'|] eqn:Ef.
        -- intros H; injection H as <- _.
           destruct (first_rejection_is_first _ _ _ _ Ef) as (j & Hj & _).
           unfold rejects_with in Hj.
           destruct (nth_error ps j) as [p0|] eqn:Ej; [|discriminate Hj].
           simpl in Hj. injection Hj as Hj.
           exact (Hin p0 (nth_error_In _ _ Ej) Hj).
        -- intros H; injection H as H _.
           apply map_result_Throw in H as (p0 & Hp0 & Hout).
           exact (Hin p0 Hp0 Hout).
      * rewrite (searchWithGoogle_rejected _ _ _ _ _ _ Hreq Hnet) in H.
        injection H as <- _. do 5 right; exists name; reflexivity.
    + apply search_request_Throw in Hreq.
      rewrite (searchWithGoogle_unconfigured _ _ _ _ Hreq) in H.
      injection H as <- _. left; reflexivity.
Qed.

(** X12. A reverse lookup fails only with the configuration error of
    the resolved provider, with a TypeError of the run time, or with
    the rejection of its call: it raises no provider error of its own,
    every provider failure being the soft "no result". *)
Theorem reverse_failures :
  forall (env : Env) (w : World) (la lo : number) (preferred : option Provider)
         (e : exn) (log : list request),
    run (reverseGeocode env la lo preferred) w = (Throw e, log) ->
    e = configuration_error (resolveProvider env preferred)
    \/ e = TypeError
    \/ exists name, e = Rejection name.
Proof.
  intros env w la lo preferred e log H.
  destruct (reverse_request env (resolveProvider env preferred) la lo)
    as [req|e0] eqn:Hreq.
  - destruct (net w 0 req) as [r|name] eqn:Hnet;
      [|rewrite (reverseGeocode_rejected_fetch _ _ _ _ _ _ _ Hreq Hnet) in H;
        injection H as <- _; eauto].
    unfold reverseGeocode in H. destruct (resolveProvider env preferred).
    + rewrite (reverseWithNominatim_fetched _ _ _ _ _ _ Hreq Hnet) in H.
      destruct (negb (ok r)); [discriminate H|].
      destruct (body r) as [payload|name]; cbn [await rbind] in H;
        [|injection H as <- _; eauto].
      destruct (negb (truthy (Some payload))); [discriminate H|].
      destruct (nominatim_reverse_candidate la lo payload) as [c|e1] eqn:E;
        cbn [rbind] in H; [discriminate H|].
      injection H as <- _. apply nominatim_reverse_candidate_throws in E. auto.
    + destruct (reverseWithGoogle_throws _ _ _ _ _ _ H) as [->|[->|[name ->]]];
        eauto.
  - apply reverse_request_Throw in Hreq.
    rewrite reverseGeocode_unconfigured_run in H by exact Hreq.
    injection H as <- _. auto.
Qed.

(** ** A rejection in the detail phase *)

Lemma detail_tasks_all_rejected :
  forall apiKey w name l log ps log',
    (forall n d, (0 < n)%nat -> net w n d = Rejects name) ->
    (0 < List.length log)%nat ->
    (forall prediction, In prediction l ->
                        exists pid d, detail_request apiKey prediction = Ok (pid, d)) ->
    mapIO (detail_task apiKey) l w log = (Ok ps, log') ->
    List.length log' = (List.length log + List.length l)%nat
    /\ List.length ps = List.length l
    /\ Forall (fun p => outcome p = Throw (Rejection name)) ps.
Proof.
  intros apiKey w name. induction l as [|x l IH]; intros log ps log' Hnet Hlog Hreq Hrun.
  - injection Hrun as <- <-. simpl. repeat split; [lia|constructor].
  - rewrite mapIO_cons, detail_task_run in Hrun.
    destruct (Hreq x (or_introl eq_refl)) as (pid & d & Hd). rewrite Hd in Hrun.
    destruct (mapIO _ l w _) as [[ps'|e'] log1] eqn:E; [|discriminate Hrun].
    injection Hrun as <- <-.
    destruct (IH (log ++ [d]) ps' log1 Hnet) as (H1 & H2 & H3).
    + rewrite length_app. simpl. lia.
    + intros prediction Hin. apply Hreq. now right.
    + exact E.
    + rewrite length_app in H1. simpl in *. repeat split; [lia|lia|].
      constructor; [|exact H3]. simpl. now rewrite (Hnet _ d Hlog).
Qed.

(** X13. When the prediction call of a commercial forward search has
    succeeded and every detail call is then rejected with the same name
    (all of them share the abort signal of the search, so an abort gives
    ["AbortError"] to each), the search rejects with that rejection,
    whatever the order in which the calls complete, after one detail
    request for each retained prediction. *)
Theorem search_rejected_in_detail_phase :
  forall (env : Env) (w : World) (query : jsstring) (options : SearchOptions)
         (apiKey : jsstring) (req : request) (r : response) (payload : json)
         (st : value) (name : jsstring),
    resolveProvider env (opt_provider options) = google ->
    trim query <> [] ->
    getGoogleKey env = Ok apiKey ->
    autocomplete_request apiKey query = Ok req ->
    net w 0 req = Fulfils r ->
    ok r = true ->
    body r = Fulfils payload ->
    get (Some payload) (u"status") = Ok st ->
    is_string st (u"OK") || is_string st (u"ZERO_RESULTS") = true ->
    slice0 (predictions_of payload) (limit_of options) <> [] ->
    (forall prediction,
        In prediction (slice0 (predictions_of payload) (limit_of options)) ->
        exists pid d, detail_request apiKey prediction = Ok (pid, d)) ->
    (forall n d, (0 < n)%nat -> net w n d = Rejects name) ->
    exists log : list request,
      run (searchAddress env query options) w = (Throw (Rejection name), log)
      /\ List.length log
         = S (List.length (slice0 (predictions_of payload) (limit_of options))).
Proof.
  intros env w query options apiKey req r payload st name
         Hp Hq Hk Hreq Hnet Hok Hb Hs Hst Hne Hd Hrej.
  assert (Hpred : predictions_of payload <> []).
  { intros E. apply Hne. rewrite E. apply slice0_nil. }
  unfold searchAddress. rewrite Hp.
  destruct (trim query) as [|c q]; [congruence|].
  rewrite (searchWithGoogle_detail_phase _ _ _ _ _ _ _ _ _
             Hk Hreq Hnet Hok Hb Hs Hst Hpred).
  destruct (detail_tasks_total apiKey w
              (slice0 (predictions_of payload) (limit_of options)) [req])
    as (ps & log & Hps).
  assert (Hone : (0 < List.length [req])%nat) by (simpl; lia).
  destruct (detail_tasks_all_rejected _ _ _ _ _ _ _ Hrej Hone Hd Hps)
    as (Hlog & Hlen & Hall).
  exists log. split; [|exact Hlog].
  unfold bind. rewrite Hps.
  destruct ps as [|p0 ps]; [destruct (slice0 _ _); [congruence|discriminate Hlen]|].
  assert (H0 : rejects_with (p0 :: ps) 0 (Rejection name)).
  { unfold rejects_with. simpl. inversion Hall; subst. congruence. }
  destruct (Promise_all_rejects _ _ w log _ _ H0) as (j & e & Hrun & Hj & _).
  rewrite Hrun. f_equal. f_equal.
  unfold rejects_with in Hj.
  destruct (nth_error (p0 :: ps) j) as [p|] eqn:Ej; [|discriminate Hj].
  simpl in Hj. injection Hj as Hj.
  rewrite Forall_forall in Hall.
  rewrite (Hall p (nth_error_In _ _ Ej)) in Hj. congruence.
Qed.

(** ** What the requests carry *)

Ltac conjuncts := repeat match goal with |- _ /\ _ => split end.

(** The characters of a number and of a text. *)
Lemma digits_fuel_digits :
  forall fuel n acc,
    forallb is_digit acc = true ->
    forallb is_digit (digits_fuel fuel n acc) = true.
Proof.
  induction fuel as [|fuel IH]; intros n acc H; [exact H|].
  cbn [digits_fuel].
  assert (Hd : forallb is_digit ((48 + n mod 10)%N :: acc) = true).
  { cbn [forallb]. rewrite H, andb_true_r. unfold is_digit.
    assert (Hk : (n mod 10 < 10)%N) by (apply N.mod_upper_bound; discriminate).
    set (k := (n mod 10)%N) in *.
    apply andb_true_iff. split; apply N.leb_le; lia. }
  destruct (n <? 10)%N; [exact Hd|]. now apply IH.
Qed.

Lemma decimal_digits :
  forall n, forallb is_digit (decimal n) = true.
Proof. intros n. unfold decimal. now apply digits_fuel_digits. Qed.

Lemma zeros_digits :
  forall k, forallb is_digit (zeros k) = true.
Proof. induction k as [|k IH]; [reflexivity|exact IH]. Qed.

Lemma usv_cons :
  forall c rest,
    usv (c :: rest)
    = if is_lead c then
        match rest with
        | d :: rest' =>
          if is_trail d then c :: d :: usv rest' else 65533%N :: usv rest
        | [] => [65533%N]
        end
      else if is_trail c then 65533%N :: usv rest
      else c :: usv rest.
Proof. reflexivity. Qed.

(** Text without a lone surrogate is its own [USVString]. *)
Lemma usv_isWellFormed :
  forall s, isWellFormed s = true -> usv s = s.
Proof.
  assert (H : forall (n : nat) s,
             (List.length s <= n)%nat -> isWellFormed s = true -> usv s = s).
  { induction n as [|n IH]; intros [|c rest] Hn Hs; try reflexivity.
    - cbn [List.length] in Hn. lia.
    - cbn [List.length] in Hn. cbn [isWellFormed] in Hs. rewrite usv_cons.
      destruct (is_lead c).
      + destruct rest as [|d rest']; [discriminate Hs|].
        apply andb_true_iff in Hs as [Hd Hs]. rewrite Hd.
        cbn [List.length] in Hn. rewrite (IH rest'); [reflexivity|lia|exact Hs].
      + apply andb_true_iff in Hs as [Hc Hs].
        apply negb_true_iff in Hc. rewrite Hc.
        rewrite (IH rest); [reflexivity|lia|exact Hs]. }
  intros s. now apply (H (List.length s)).
Qed.

(** A lone surrogate does not survive the conversion. *)
Lemma usv_lone_surrogate :
  forall c, (is_lead c || is_trail c) = true -> usv [c] = [65533%N].
Proof.
  intros c H. rewrite usv_cons. destruct (is_lead c); [reflexivity|].
  cbn [orb] in H. now rewrite H.
Qed.

Lemma ascii_isWellFormed :
  forall s, forallb is_ascii s = true -> isWellFormed s = true.
Proof.
  induction s as [|c rest IH]; intros H; [reflexivity|].
  cbn [forallb] in H. apply andb_true_iff in H as [Hc Hr].
  unfold is_ascii in Hc. apply N.ltb_lt in Hc.
  cbn [isWellFormed].
  assert (Hl : is_lead c = false).
  { unfold is_lead. apply andb_false_iff. left. apply N.leb_gt. lia. }
  assert (Ht : is_trail c = false).
  { unfold is_trail. apply andb_false_iff. left. apply N.leb_gt. lia. }
  rewrite Hl, Ht. cbn [negb andb]. now apply IH.
Qed.

Lemma digits_ascii :
  forall s, forallb is_digit s = true -> forallb is_ascii s = true.
Proof.
  induction s as [|c rest IH]; intros H; [reflexivity|].
  cbn [forallb] in H |- *. apply andb_true_iff in H as [Hc Hr].
  rewrite (IH Hr), andb_true_r.
  unfold is_digit in Hc. apply andb_true_iff in Hc as [_ Hc].
  apply N.leb_le in Hc. unfold is_ascii. apply N.ltb_lt. lia.
Qed.

Lemma forallb_firstn :
  forall (f : N -> bool) n s, forallb f s = true -> forallb f (firstn n s) = true.
Proof.
  intros f. induction n as [|n IH]; intros [|c s] H; try reflexivity.
  cbn [forallb firstn] in H |- *. apply andb_true_iff in H as [Hc Hs].
  rewrite Hc. cbn [andb]. now apply IH.
Qed.

Lemma forallb_skipn :
  forall (f : N -> bool) n s, forallb f s = true -> forallb f (skipn n s) = true.
Proof.
  intros f. induction n as [|n IH]; intros [|c s] H; try reflexivity; try exact H.
  cbn [forallb skipn] in H |- *. apply andb_true_iff in H as [Hc Hs].
  now apply IH.
Qed.

Lemma layout_ascii :
  forall digits n,
    forallb is_digit digits = true -> forallb is_ascii (layout digits n) = true.
Proof.
  intros digits n Hd.
  assert (Ha : forallb is_ascii digits = true) by now apply digits_ascii.
  assert (Hz : forall k, forallb is_ascii (zeros k) = true)
    by (intros k; apply digits_ascii, zeros_digits).
  assert (He : forall k, forallb is_ascii (decimal k) = true)
    by (intros k; apply digits_ascii, decimal_digits).
  unfold layout.
  destruct ((-5 <=? n) && (n <=? 21)).
  - destruct (Z.of_nat (List.length digits) <=? n).
    + rewrite forallb_app, Ha, Hz. reflexivity.
    + destruct (0 <? n).
      * rewrite !forallb_app, forallb_firstn, forallb_skipn by exact Ha.
        reflexivity.
      * rewrite !forallb_app, Hz, Ha. reflexivity.
  - destruct digits as [|d [|d' rest]]; [reflexivity| |].
    + cbn [forallb] in Ha. apply andb_true_iff in Ha as [Hc _].
      rewrite !forallb_app, He. cbn [forallb]. rewrite Hc.
      destruct (0 <? n - 1); reflexivity.
    + assert (Hc : is_ascii d = true).
      { cbn [forallb] in Ha. now apply andb_true_iff in Ha as [Hc _]. }
      assert (Hr : forallb is_ascii (d' :: rest) = true).
      { cbn [forallb] in Ha. now apply andb_true_iff in Ha as [_ Hr]. }
      rewrite !forallb_app, He, Hr. cbn [forallb]. rewrite Hc.
      destruct (0 <? n - 1); reflexivity.
Qed.

(** The decimal form of a number has ASCII characters only. *)
Lemma NumberToString_ascii :
  forall x, forallb is_ascii (NumberToString x) = true.
Proof.
  assert (Hp : forall m e, forallb is_ascii (positive_to_string m e) = true).
  { intros m e. unfold positive_to_string.
    destruct (magnitude m e) as [P Q].
    destruct (shortest 17 _ P Q _ 1) as [s n'].
    apply layout_ascii, decimal_digits. }
  intros [[|]|[|]| |[|] m e]; try reflexivity.
  - unfold NumberToString. rewrite forallb_app, Hp. reflexivity.
  - apply Hp.
Qed.

Lemma usv_NumberToString :
  forall x, usv (NumberToString x) = NumberToString x.
Proof.
  intros x. apply usv_isWellFormed, ascii_isWellFormed, NumberToString_ascii.
Qed.

Ltac literals :=
  repeat match goal with
         | |- context [usv (decode_utf8 ?s)] =>
           replace (usv (decode_utf8 s)) with (decode_utf8 s)
             by (vm_compute; reflexivity)
         end.

(** X14. The first request of a forward search carries the text as it
    was given, not trimmed, in the form [URLSearchParams.set] gives its
    arguments: a surrogate outside a pair is replaced by U+FFFD, and a
    text without one goes unchanged. To the free provider it goes as
    [q], with the limit, the fixed view box and [bounded=1], in format
    [jsonv2] with address details and de-duplication. To the commercial
    provider it goes as [input], with the key (in the same form), the
    country restriction [CO], the language [es], the type [geocode] and
    the bias rectangle; the limit is not sent, it only truncates the
    predictions afterwards. *)
Theorem search_request_parameters :
  forall (env : Env) (p : Provider) (query : jsstring) (limit : number)
         (req : request),
    search_request env p query limit = Ok req ->
    match p with
    | nominatim =>
      lookup (u"q") (params req) = Some (usv query)
      /\ (isWellFormed query = true -> lookup (u"q") (params req) = Some query)
      /\ lookup (u"limit") (params req) = Some (NumberToString limit)
      /\ lookup (u"viewbox") (params req) = Some (u"-74.25,4.47,-73.99,4.90")
      /\ lookup (u"bounded") (params req) = Some (u"1")
      /\ lookup (u"format") (params req) = Some (u"jsonv2")
      /\ lookup (u"addressdetails") (params req) = Some (u"1")
      /\ lookup (u"dedupe") (params req) = Some (u"1")
    | google =>
      lookup (u"input") (params req) = Some (usv query)
      /\ (isWellFormed query = true -> lookup (u"input") (params req) = Some query)
      /\ lookup (u"key") (params req) = option_map usv (VITE_GOOGLE_KEY env)
      /\ (forall k : jsstring,
            VITE_GOOGLE_KEY env = Some k -> isWellFormed k = true ->
            lookup (u"key") (params req) = Some k)
      /\ lookup (u"components") (params req) = Some (u"country:CO")
      /\ lookup (u"language") (params req) = Some (u"es")
      /\ lookup (u"types") (params req) = Some (u"geocode")
      /\ lookup (u"locationbias") (params req)
         = Some (u"rectangle:4.47,-74.25|4.9,-73.99")
      /\ lookup (u"limit") (params req) = None
    end.
Proof.
  intros env [|] query limit req H.
  - apply search_request_nominatim in H as (email & _ & Hr).
    assert (E : params req
                = [(u"q", usv query); (u"format", u"jsonv2");
                   (u"addressdetails", u"1"); (u"limit", NumberToString limit);
                   (u"viewbox", u"-74.25,4.47,-73.99,4.90");
                   (u"bounded", u"1"); (u"city", u"Bogotá");
                   (u"country", u"Colombia"); (u"dedupe", u"1");
                   (u"polygon_geojson", u"0"); (u"extratags", u"0")]).
    { unfold nominatim_search_request in Hr.
      match type of Hr with rbind ?Q _ = _ =>
        assert (HQ : Q = Ok [(u"q", usv query); (u"format", u"jsonv2");
                             (u"addressdetails", u"1");
                             (u"limit", NumberToString limit);
                             (u"viewbox", u"-74.25,4.47,-73.99,4.90");
                             (u"bounded", u"1"); (u"city", u"Bogotá");
                             (u"country", u"Colombia"); (u"dedupe", u"1");
                             (u"polygon_geojson", u"0"); (u"extratags", u"0")])
      end.
      { cbv [encodeQuery rbind ToStringJ str num].
        replace (NumberToString (of_Z 1)) with (u"1") by (vm_compute; reflexivity).
        replace (NumberToString (of_Z 0)) with (u"0") by (vm_compute; reflexivity).
        rewrite usv_NumberToString. literals. reflexivity. }
      rewrite HQ in Hr. cbn [rbind] in Hr. now injection Hr as <-. }
    assert (Hq : lookup (u"q") (params req) = Some (usv query)).
    { rewrite E. generalize (NumberToString limit) (usv query). intros L U. clear.
      vm_compute; reflexivity. }
    split; [exact Hq|].
    split; [intros Hw; rewrite Hq, (usv_isWellFormed _ Hw); reflexivity|].
    rewrite E. generalize (NumberToString limit) (usv query). intros L U. clear.
    conjuncts; vm_compute; reflexivity.
  - apply search_request_google in H as (apiKey & Hk & Hr).
    assert (Hkey : VITE_GOOGLE_KEY env = Some apiKey).
    { unfold getGoogleKey in Hk.
      destruct (VITE_GOOGLE_KEY env) as [[|c k]|]; congruence. }
    assert (E : params req
                = [(u"input", usv query); (u"language", u"es"); (u"types", u"geocode");
                   (u"key", usv apiKey); (u"components", u"country:CO");
                   (u"locationbias", u"rectangle:4.47,-74.25|4.9,-73.99")]).
    { unfold autocomplete_request in Hr.
      match type of Hr with rbind ?Q _ = _ =>
        assert (HQ : Q = Ok [(u"input", usv query); (u"language", u"es");
                             (u"types", u"geocode"); (u"key", usv apiKey);
                             (u"components", u"country:CO");
                             (u"locationbias", u"rectangle:4.47,-74.25|4.9,-73.99")])
      end.
      { cbv [encodeQuery rbind ToStringJ str].
        replace locationbias with (u"rectangle:4.47,-74.25|4.9,-73.99")
          by (vm_compute; reflexivity).
        literals. reflexivity. }
      rewrite HQ in Hr. cbn [rbind] in Hr. now injection Hr as <-. }
    assert (Hq : lookup (u"input") (params req) = Some (usv query)).
    { rewrite E. generalize (usv query) (usv apiKey). intros U K. clear.
      vm_compute; reflexivity. }
    assert (Hv : lookup (u"key") (params req) = Some (usv apiKey)).
    { rewrite E. generalize (usv query) (usv apiKey). intros U K. clear.
      vm_compute; reflexivity. }
    split; [exact Hq|].
    split; [intros Hw; rewrite Hq, (usv_isWellFormed _ Hw); reflexivity|].
    split; [rewrite Hv, Hkey; reflexivity|].
    split.
    { intros k Ek Hw. rewrite Hv. rewrite Hkey in Ek. injection Ek as ->.
      rewrite (usv_isWellFormed _ Hw). reflexivity. }
    rewrite E. generalize (usv query) (usv apiKey). intros U K. clear.
    conjuncts; vm_compute; reflexivity.
Qed.


(** ** Instances of the further properties *)

Import Cases.

Lemma nominatim_search_http_errors_witness :
  fst (run (searchAddress env_email (u"Cra 7 # 72-41") no_options)
           (always too_many_requests))
  = Throw (Error rate_limited)
  /\ List.length (snd (run (searchAddress env_email (u"Cra 7 # 72-41") no_options)
                           (always too_many_requests))) = 1%nat.
Proof.
  erewrite (nominatim_search_http_errors env_email (always too_many_requests)
                                         (u"Cra 7 # 72-41") no_options _
                                         too_many_requests).
  - split; reflexivity.
  - reflexivity.
  - vm_compute; discriminate.
  - vm_compute; reflexivity.
  - reflexivity.
  - reflexivity.
Defined.

Lemma google_search_no_predictions_witness :
  exists req : request,
    run (searchAddress env_key (u"Cra 7 # 72-41") no_options)
        (always (json_response 200 zero_results))
    = (Ok [], [req]).
Proof.
  eexists.
  eapply (google_search_no_predictions
            env_key (always (json_response 200 zero_results))
            (u"Cra 7 # 72-41") no_options _ _ zero_results
            (str (u"ZERO_RESULTS")) None).
  - reflexivity.
  - vm_compute; discriminate.
  - vm_compute; reflexivity.
  - reflexivity.
  - reflexivity.
  - reflexivity.
  - vm_compute; reflexivity.
  - vm_compute; reflexivity.
  - vm_compute; reflexivity.
  - left; reflexivity.
Defined.

Lemma reverseGeocode_unconfigured_witness :
  run (reverseGeocode env_email bogota_lat bogota_lng (Some google))
      (always (json_response 200 (geocode_ok [chapinero])))
  = (Throw (Error missing_key), []).
Proof.
  apply (reverseGeocode_unconfigured
           env_email (always (json_response 200 (geocode_ok [chapinero])))
           bogota_lat bogota_lng (Some google)).
  reflexivity.
Defined.

Lemma reverseGeocode_single_request_witness :
  exists req : request,
    snd (run (reverseGeocode env_key bogota_lat bogota_lng None)
             (rejecting (u"TypeError"))) = [req]
    /\ endpoint req = GOOGLE_GEOCODE_URL.
Proof.
  eexists. split.
  - apply (reverseGeocode_single_request env_key (rejecting (u"TypeError"))
                                         bogota_lat bogota_lng None).
    vm_compute; reflexivity.
  - reflexivity.
Defined.

Lemma search_request_budget_witness :
  Z.of_nat (List.length
              (snd (run (searchAddress env_key (u"Cra 7 # 72-41") no_options)
                        (all_succeed [])))) <= 1 + 5
  /\ forall cs,
       fst (run (searchAddress env_key (u"Cra 7 # 72-41") no_options)
                (all_succeed [])) = Ok cs ->
       Z.of_nat (List.length cs) <= 5.
Proof.
  apply (search_request_budget env_key (all_succeed []) (u"Cra 7 # 72-41")
                               no_options 5).
  - vm_compute; reflexivity.
  - lia.
Defined.

Lemma free_provider_requests_identified_witness :
  exists req : request,
    snd (run (reverseGeocode env_email bogota_lat bogota_lng None)
             (always (json_response 200 (JObj [])))) = [req]
    /\ lookup (u"User-Agent") (headers req) = Some (u"GeoBogota/1.0 (geo@example.org)")
    /\ lookup (u"From") (headers req) = Some (u"geo@example.org")
    /\ lookup (u"Accept-Language") (headers req) = Some (u"es")
    /\ lookup (u"Referer") (headers req) = Some (u"http://localhost:5173").
Proof.
  eexists. split; [vm_compute; reflexivity|].
  apply (free_provider_requests_identified
           env_email (always (json_response 200 (JObj []))) (u"Cra 7 # 72-41")
           no_options bogota_lat bogota_lng None (u"geo@example.org")).
  - reflexivity.
  - right. split; [reflexivity|]. vm_compute. left; reflexivity.
Defined.

Lemma search_rejection_propagates_witness :
  exists req : request,
    run (searchAddress env_email (u"Cra 7 # 72-41") no_options)
        (rejecting (u"AbortError"))
    = (Throw (Rejection (u"AbortError")), [req]).
Proof.
  eexists.
  apply (search_rejection_propagates env_email (rejecting (u"AbortError"))
                                     (u"Cra 7 # 72-41") no_options).
  - vm_compute; discriminate.
  - vm_compute; reflexivity.
  - left; reflexivity.
Defined.

Lemma candidates_carry_provider_witness :
  (exists (cs : list GeocodeResult) (log : list request),
      run (searchAddress env_key (u"Cra 7 # 72-41") no_options) (all_succeed [])
      = (Ok cs, log)
      /\ List.length cs = 3%nat
      /\ Forall (fun c => provider c = google /\ placeId c = Some (id c)) cs)
  /\ (exists (c : GeocodeResult) (log : list request),
         run (reverseGeocode env_email bogota_lat bogota_lng None)
             (always (json_response 200 (JObj []))) = (Ok (Some c), log)
         /\ provider c = nominatim /\ placeId c = None)
  /\ (exists (c : GeocodeResult) (log : list request),
         run (reverseGeocode env_key bogota_lat bogota_lng None)
             (always (json_response 200 (geocode_ok [chapinero])))
         = (Ok (Some c), log)
         /\ raw c = Some chapinero
         /\ placeId c = Some (str (u"ChIJ-chapinero"))
         /\ id c = str (u"ChIJ-chapinero")).
Proof.
  destruct candidates_carry_provider as [forward reverse]. split; [|split].
  - do 2 eexists. split; [vm_compute; reflexivity|]. split; [reflexivity|].
    eapply Forall_impl;
      [|eapply (forward env_key (all_succeed []) (u"Cra 7 # 72-41") no_options);
        vm_compute; reflexivity].
    intros c [Hp Hpl]. rewrite Hp in Hpl. split; [exact Hp|exact Hpl].
  - do 2 eexists. split; [vm_compute; reflexivity|].
    edestruct (reverse env_email (always (json_response 200 (JObj [])))
                       bogota_lat bogota_lng None) as [Hp Hpl].
    + vm_compute; reflexivity.
    + split; [exact Hp|]. rewrite Hp in Hpl. exact Hpl.
  - destruct (run (reverseGeocode env_key bogota_lat bogota_lng None)
                  (always (json_response 200 (geocode_ok [chapinero]))))
      as [[[c|]|e] log] eqn:Hrun; try (vm_compute in Hrun; discriminate Hrun).
    exists c, log. split; [reflexivity|].
    destruct (reverse env_key (always (json_response 200 (geocode_ok [chapinero])))
                      bogota_lat bogota_lng None c log Hrun) as [Hp Hc].
    rewrite Hp in Hc. cbn [resolveProvider env_key VITE_GOOGLE_KEY configured] in Hc.
    destruct Hc as (req & r & payload & results & pid & _ & _ & Hnet & Hb & Hr
                    & Hi & Hpid & Hpl & Hid & _).
    cbn [always net] in Hnet. injection Hnet as <-.
    cbn [json_response body] in Hb. injection Hb as <-.
    assert (E1 : get (Some (geocode_ok [chapinero])) (u"results")
                 = Ok (Some (JArr [chapinero]))) by (vm_compute; reflexivity).
    rewrite E1 in Hr. injection Hr as <-.
    assert (E2 : index0 (Some (JArr [chapinero])) = Ok (Some chapinero))
      by (vm_compute; reflexivity).
    rewrite E2 in Hi. injection Hi as Hraw.
    rewrite <- Hraw in Hpid.
    assert (E3 : get (Some chapinero) (u"place_id") = Ok (str (u"ChIJ-chapinero")))
      by (vm_compute; reflexivity).
    rewrite E3 in Hpid. injection Hpid as <-.
    split; [symmetry; exact Hraw|]. split; [exact Hpl|].
    apply Hid. reflexivity.
Defined.

Lemma google_search_coordinates_witness :
  exists (cs : list GeocodeResult) (log : list request),
    run (searchAddress env_key (u"Cra 7 # 72-41") no_options) (all_succeed [])
    = (Ok cs, log)
    /\ List.length cs = 3%nat
    /\ Forall (fun c => exists geometry location : value,
                          get (raw c) (u"geometry") = Ok geometry
                          /\ get geometry (u"location") = Ok location
                          /\ get location (u"lat") = Ok (lat c)
                          /\ get location (u"lng") = Ok (lng c)) cs.
Proof.
  do 2 eexists. split; [vm_compute; reflexivity|]. split; [reflexivity|].
  eapply (google_search_coordinates env_key (all_succeed []) (u"Cra 7 # 72-41")
                                   no_options).
  - reflexivity.
  - vm_compute; reflexivity.
Defined.

Lemma search_failures_witness :
  exists (e : exn) (log : list request),
    run (searchAddress env_key (u"Cra 7 # 72-41") no_options) second_fails
    = (Throw e, log)
    /\ (e = Error missing_key \/ e = Error autocomplete_failed
        \/ e = Error detail_failed
        \/ (exists st, e = Error (googleStatusMessage st))
        \/ e = TypeError \/ exists name, e = Rejection name).
Proof.
  do 2 eexists. split; [vm_compute; reflexivity|].
  eapply (search_failures env_key second_fails (u"Cra 7 # 72-41") no_options).
  vm_compute; reflexivity.
Defined.

Lemma reverse_failures_witness :
  exists (e : exn) (log : list request),
    run (reverseGeocode env_key bogota_lat bogota_lng None)
        (always (json_response 200 JNull)) = (Throw e, log)
    /\ (e = Error missing_key \/ e = TypeError \/ exists name, e = Rejection name).
Proof.
  do 2 eexists. split; [vm_compute; reflexivity|].
  eapply (reverse_failures env_key (always (json_response 200 JNull))
                          bogota_lat bogota_lng None).
  vm_compute; reflexivity.
Defined.

Lemma search_rejected_in_detail_phase_witness :
  exists log : list request,
    run (searchAddress env_key (u"Cra 7 # 72-41") no_options)
        aborted_after_predictions
    = (Throw (Rejection (u"AbortError")), log)
    /\ List.length log = 4%nat.
Proof.
  apply (search_rejected_in_detail_phase
           env_key aborted_after_predictions (u"Cra 7 # 72-41") no_options
           (u"AIza-key")
           {| endpoint := GOOGLE_AUTOCOMPLETE_URL;
              params := [(u"input", u"Cra 7 # 72-41"); (u"language", u"es");
                         (u"types", u"geocode"); (u"key", u"AIza-key");
                         (u"components", u"country:CO");
                         (u"locationbias", u"rectangle:4.47,-74.25|4.9,-73.99")];
              headers := [] |}
           (json_response 200 (autocomplete_ok three))
           (autocomplete_ok three) (str (u"OK")) (u"AbortError")).
  - reflexivity.
  - vm_compute; discriminate.
  - reflexivity.
  - vm_compute; reflexivity.
  - reflexivity.
  - reflexivity.
  - reflexivity.
  - vm_compute; reflexivity.
  - vm_compute; reflexivity.
  - vm_compute; discriminate.
  - intros prediction Hin. vm_compute in Hin.
    destruct Hin as [<-|[<-|[<-|[]]]]; do 2 eexists; vm_compute; reflexivity.
  - intros [|n] d H; [inversion H|reflexivity].
Defined.

Lemma search_request_parameters_witness :
  exists req : request,
    search_request env_key google ([32] ++ u"Cra 7 # 72-41" ++ [55357])%N
                   DEFAULT_LIMIT
    = Ok req
    /\ lookup (u"input") (params req)
       = Some ([32] ++ u"Cra 7 # 72-41" ++ [65533])%N
    /\ lookup (u"key") (params req) = Some (u"AIza-key")
    /\ lookup (u"limit") (params req) = None.
Proof.
  eexists. split; [vm_compute; reflexivity|].
  edestruct search_request_parameters
    with (env := env_key) (p := google)
         (query := ([32] ++ u"Cra 7 # 72-41" ++ [55357])%N) (limit := DEFAULT_LIMIT)
    as (Hinput & _ & _ & Hkey & _ & _ & _ & _ & Hlimit).
  - vm_compute; reflexivity.
  - split; [rewrite Hinput; vm_compute; reflexivity|].
    split; [apply Hkey; vm_compute; reflexivity|exact Hlimit].
Defined.


(* ===================================================================== *)
(** * Properties of the component *)
(* ===================================================================== *)

Import Component.

(** The component resolves the provider as the client does, so the
    search it starts runs with the provider it shows. *)
Lemma resolvedProvider_agrees :
  forall env provider,
    resolvedProvider env provider = resolveProvider env provider
    /\ resolveProvider env (opt_provider (search_options env provider))
       = resolvedProvider env provider
    /\ limit_of (search_options env provider) = DEFAULT_LIMIT.
Proof. intros env provider. repeat split. Qed.

Lemma or_else_nonempty :
  forall a b : jsstring, b <> [] -> or_else a b <> [].
Proof. intros [|c a] b H; [exact H|discriminate]. Qed.

Lemma or_else_message :
  forall a b : jsstring, a <> [] -> or_else a b = a.
Proof. intros [|c a] b H; [congruence|reflexivity]. Qed.

Lemma caught_abort :
  forall P fallback st, caught P fallback (Rejection (u"AbortError")) st = st.
Proof.
  intros P fallback st. unfold caught. cbn [name].
  replace (str_eqb (u"AbortError") (u"AbortError")) with true
    by (vm_compute; reflexivity).
  reflexivity.
Qed.

Lemma caught_Error :
  forall P fallback m st,
    caught P fallback (Error m) st
    = setStatus (says error (or_else m fallback)) st.
Proof.
  intros P fallback m st. unfold caught. cbn [name message].
  replace (str_eqb (u"Error") (u"AbortError")) with false
    by (vm_compute; reflexivity).
  reflexivity.
Qed.

Lemma abort_search_view :
  forall st, view (abort_search st) = view st
             /\ mountedRef (abort_search st) = mountedRef st.
Proof.
  intros st. unfold abort_search. now destruct (searchAbortRef st).
Qed.

Lemma fetchSuggestions_start_awaits :
  forall st s,
    trim s <> [] ->
    fetchSuggestions_start (str s) st
    = Awaits (setIsLoadingSuggestions true (new_search_controller (abort_search st))) s.
Proof.
  intros st s H. unfold fetchSuggestions_start, str.
  destruct (trim s); [congruence|reflexivity].
Qed.

Lemma handleSearch_start_awaits :
  forall st s,
    query st = str s -> trim s <> [] ->
    handleSearch_start st
    = Awaits (setIsSearching true (new_search_controller (abort_search st))) s.
Proof.
  intros st s Hq H. unfold handleSearch_start.
  assert (E : query (abort_search st) = str s).
  { destruct (abort_search_view st) as [Hv _]. unfold view in Hv. congruence. }
  rewrite E. unfold str. destruct (trim s); [congruence|reflexivity].
Qed.

Lemma searchAddress_unconfigured_run :
  forall env w query options,
    trim query <> [] ->
    configured (credential env (resolveProvider env (opt_provider options))) = false ->
    run (searchAddress env query options) w
    = (Throw (configuration_error (resolveProvider env (opt_provider options))), []).
Proof.
  intros env w query options Hq Hc. unfold searchAddress.
  destruct (trim query) as [|c q]; [congruence|].
  destruct (resolveProvider env (opt_provider options)).
  - now apply searchWithNominatim_unconfigured.
  - now apply searchWithGoogle_unconfigured.
Qed.

Lemma configuration_error_message :
  forall p, exists m, configuration_error p = Error m /\ m <> [].
Proof.
  intros [|]; eexists; (split; [reflexivity|vm_compute; discriminate]).
Qed.

(** ** Missing credentials and aborted searches *)

(** X16. When the credential of the provider the component resolves to
    is not configured, fetching suggestions or pressing the search
    button for a non-blank text sends no request and shows the
    configuration error of that provider as an error status; the input,
    the suggestions and the selection are left as they were. *)
Theorem handlers_report_missing_credential :
  forall (env : Env) (provider : option Provider) (P : Platform)
         (during : Component -> Component) (st : Component) (w : World)
         (s : jsstring),
    trim s <> [] ->
    configured (credential env (resolvedProvider env provider)) = false ->
    let shown (h : handled) (before : Component) :=
      sent h = [] /\ unhandled h = None
      /\ exists m, configuration_error (resolvedProvider env provider) = Error m
                   /\ view (state h)
                      = (query before, suggestions before, selectedResult before,
                         says error m) in
    shown (fetchSuggestions env provider P (str s) during st w)
          (during (state_of (fetchSuggestions_start (str s) st)))
    /\ (query st = str s ->
        shown (handleSearch env provider P during st w)
              (during (state_of (handleSearch_start st)))).
Proof.
  intros env provider P during st w s Hs Hc shown.
  assert (Hrun : run (searchAddress env s (search_options env provider)) w
                 = (Throw (configuration_error (resolvedProvider env provider)), []))
    by (now apply searchAddress_unconfigured_run).
  destruct (configuration_error_message (resolvedProvider env provider))
    as (m & Hm & Hne).
  split; [|intros Hq]; unfold shown.
  - unfold fetchSuggestions.
    rewrite (fetchSuggestions_start_awaits _ _ Hs). cbn [awaiting_search state_of].
    rewrite Hrun, Hm. cbn [sent unhandled state].
    repeat split. exists m. split; [reflexivity|].
    unfold fetchSuggestions_resume. rewrite caught_Error, (or_else_message _ _ Hne).
    set (b := during _).
    now destruct (mountedRef (setStatus (says error m) b)).
  - unfold handleSearch.
    rewrite (handleSearch_start_awaits _ _ Hq Hs). cbn [awaiting_search state_of].
    rewrite Hrun, Hm. cbn [sent unhandled state].
    repeat split. exists m. split; [reflexivity|].
    unfold handleSearch_resume. rewrite caught_Error, (or_else_message _ _ Hne).
    set (b := during _).
    now destruct (mountedRef (setStatus (says error m) b)).
Qed.

(** X17. When the search a handler awaits is rejected with
    ["AbortError"], the handler ends without an unhandled exception and
    without touching what the component shows: the input, the
    suggestions, the selection and the status are those of the moment
    the rejection arrives. Starting the handler had not changed them
    either. *)
Theorem aborted_search_is_silent :
  forall (env : Env) (provider : option Provider) (P : Platform)
         (during : Component -> Component) (st : Component) (w : World)
         (s : jsstring),
    trim s <> [] ->
    fst (run (searchAddress env s (search_options env provider)) w)
    = Throw (Rejection (u"AbortError")) ->
    (unhandled (fetchSuggestions env provider P (str s) during st w) = None
     /\ view (state (fetchSuggestions env provider P (str s) during st w))
        = view (during (state_of (fetchSuggestions_start (str s) st)))
     /\ view (state_of (fetchSuggestions_start (str s) st)) = view st)
    /\ (query st = str s ->
        unhandled (handleSearch env provider P during st w) = None
        /\ view (state (handleSearch env provider P during st w))
           = view (during (state_of (handleSearch_start st)))
        /\ view (state_of (handleSearch_start st)) = view st).
Proof.
  intros env provider P during st w s Hs Hrun.
  destruct (run (searchAddress env s (search_options env provider)) w)
    as [outcome log] eqn:E.
  simpl in Hrun. subst outcome.
  split; [|intros Hq].
  - unfold fetchSuggestions.
    rewrite (fetchSuggestions_start_awaits _ _ Hs). cbn [awaiting_search state_of].
    rewrite E. cbn [unhandled state]. repeat split.
    + unfold fetchSuggestions_resume. rewrite caught_abort.
      now destruct (mountedRef (during _)).
    + destruct (abort_search_view st) as [Hv _]. exact Hv.
  - unfold handleSearch.
    rewrite (handleSearch_start_awaits _ _ Hq Hs). cbn [awaiting_search state_of].
    rewrite E. cbn [unhandled state]. repeat split.
    + unfold handleSearch_resume. rewrite caught_abort.
      now destruct (mountedRef (during _)).
    + destruct (abort_search_view st) as [Hv _]. exact Hv.
Qed.

(** ** The search button *)

(** X18. With the free provider, when the response to the search button
    is an array whose items all convert and the component is still
    mounted, the component selects the candidate of the provider's first
    item, puts that item's [display_name] in the input as it came, and
    lists one suggestion for each item, with no status message and the
    busy flag cleared. *)
Theorem search_button_selects_first_item :
  forall (env : Env) (provider : option Provider) (P : Platform)
         (during : Component -> Component) (st : Component) (w : World)
         (s : jsstring) (req : request) (r : response) (item : json)
         (items : list json) (cs : list GeocodeResult),
    query st = str s ->
    trim s <> [] ->
    resolvedProvider env provider = nominatim ->
    search_request env nominatim s DEFAULT_LIMIT = Ok req ->
    net w 0 req = Fulfils r ->
    ok r = true ->
    body r = Fulfils (JArr (item :: items)) ->
    map_result nominatim_candidate (item :: items) = Ok cs ->
    mountedRef (during (state_of (handleSearch_start st))) = true ->
    let h := handleSearch env provider P during st w in
    sent h = [req]
    /\ exists first : GeocodeResult,
         selectedResult (state h) = Some first
         /\ nominatim_candidate item = Ok first
         /\ raw first = Some item
         /\ get (Some item) (u"display_name") = Ok (query (state h))
         /\ suggestions (state h) = cs
         /\ List.length cs = S (List.length items)
         /\ status (state h) = None
         /\ isSearching (state h) = false.
Proof.
  intros env provider P during st w s req r item items cs
         Hq Hs Hp Hreq Hnet Hok Hb Hcs Hm h.
  assert (Hrun : run (searchAddress env s (search_options env provider)) w
                 = (Ok cs, [req])).
  { unfold searchAddress.
    destruct (resolvedProvider_agrees env provider) as (_ & -> & ->). rewrite Hp.
    destruct (trim s) as [|c q]; [congruence|].
    rewrite (searchWithNominatim_fetched _ _ _ _ _ _ Hreq Hnet), Hok, Hb.
    cbn [negb await rbind]. now rewrite Hcs. }
  pose proof Hcs as Hall. apply map_result_Ok_Forall2 in Hall.
  inversion Hall as [|x first l rest Hfirst Hrest]; subst.
  subst h. unfold handleSearch.
  rewrite (handleSearch_start_awaits _ _ Hq Hs) in Hm |- *.
  cbn [awaiting_search state_of] in Hm |- *.
  rewrite Hrun. cbn [sent state]. split; [reflexivity|].
  exists first. unfold handleSearch_resume. rewrite Hm. cbn. rewrite Hm. cbn.
  repeat split; auto.
  - exact (nominatim_candidate_raw _ _ Hfirst).
  - unfold nominatim_candidate in Hfirst.
    destruct (nominatim_id (Some item)); cbn [rbind] in Hfirst; [|discriminate Hfirst].
    destruct (get (Some item) (u"display_name")) as [name|]; cbn [rbind] in Hfirst;
      [|discriminate Hfirst].
    destruct (get (Some item) (u"lat")) as [la|]; cbn [rbind] in Hfirst;
      [|discriminate Hfirst].
    destruct (ToNumber la); cbn [rbind] in Hfirst; [|discriminate Hfirst].
    destruct (get (Some item) (u"lon")) as [lo|]; cbn [rbind] in Hfirst;
      [|discriminate Hfirst].
    destruct (ToNumber lo); cbn [rbind] in Hfirst; [|discriminate Hfirst].
    now injection Hfirst as <-.
  - apply Forall2_length in Hrest. simpl. congruence.
Qed.

(** X19. The input takes the [label] of a selected candidate as it is.
    After a click on a candidate whose [label] is not a string (an item
    of the free provider without [display_name], say), [query.trim()]
    throws: the effect that follows the change of the input throws a
    TypeError, and so does the search button, where nothing handles
    it; no request is sent and no status is shown. *)
Theorem search_button_after_unlabelled_selection :
  forall (env : Env) (provider : option Provider) (P : Platform)
         (during : Component -> Component) (st : Component) (w : World)
         (c : GeocodeResult),
    (forall s, label c <> str s) ->
    let clicked := handleSuggestionClick c st in
    let h := handleSearch env provider P during clicked w in
    query clicked = label c
    /\ query_effect clicked = Throw TypeError
    /\ unhandled h = Some TypeError
    /\ sent h = []
    /\ view (state h) = view clicked.
Proof.
  intros env provider P during st w c Hl clicked h.
  split; [reflexivity|].
  assert (Hc : query clicked = label c) by reflexivity.
  split.
  { unfold query_effect. rewrite Hc.
    destruct (label c) as [[| | |s| |]|] eqn:E; try reflexivity.
    exfalso. exact (Hl s eq_refl). }
  unfold h, handleSearch, handleSearch_start.
  destruct (abort_search_view clicked) as [Hv _].
  assert (Hq : query (abort_search clicked) = label c).
  { unfold view in Hv. injection Hv as Hv _ _ _. exact Hv. }
  rewrite Hq.
  destruct (label c) as [[| | |s| |]|] eqn:E;
    try (cbn [awaiting_search unhandled sent state]; repeat split; exact Hv).
  exfalso. exact (Hl s eq_refl).
Qed.

(** ** Blank texts *)

Lemma trim_start_blank_iff :
  forall s, trim_start s = [] <-> forallb is_white_space s = true.
Proof.
  induction s as [|c s IH]; [now split|].
  cbn [trim_start forallb]. destruct (is_white_space c).
  - exact IH.
  - split; discriminate.
Qed.

Lemma trim_start_head :
  forall s c rest, trim_start s = c :: rest -> is_white_space c = false.
Proof.
  induction s as [|x s IH]; intros c rest H; [discriminate H|].
  cbn [trim_start] in H. destruct (is_white_space x) eqn:E.
  - exact (IH _ _ H).
  - injection H as <- _. exact E.
Qed.

Lemma forallb_rev :
  forall (A : Type) (f : A -> bool) (l : list A),
    forallb f (rev l) = forallb f l.
Proof.
  intros A f l. induction l as [|x l IH]; [reflexivity|].
  cbn [rev forallb]. rewrite forallb_app, IH. cbn [forallb].
  rewrite andb_true_r. apply andb_comm.
Qed.

(** A text is blank for [trim] exactly when all of its code units are
    white space or line terminators. *)
Lemma trim_blank_iff :
  forall s, trim s = [] <-> forallb is_white_space s = true.
Proof.
  intros s. unfold trim, trim_end. split.
  - intros H.
    assert (H1 : trim_start (rev (trim_start s)) = []).
    { destruct (trim_start (rev (trim_start s))) as [|c r]; [reflexivity|].
      apply (f_equal (@List.length N)) in H. rewrite length_rev in H.
      discriminate H. }
    apply trim_start_blank_iff in H1. rewrite forallb_rev in H1.
    destruct (trim_start s) as [|c r] eqn:E; [now apply trim_start_blank_iff|].
    apply trim_start_head in E. cbn [forallb] in H1. rewrite E in H1.
    discriminate H1.
  - intros H. apply trim_start_blank_iff in H. now rewrite H.
Qed.

(** X28. A text is blank for the client and for the component exactly
    when all of its code units are white space or line terminators
    (tabs, spaces, no-break and ideographic spaces, the byte order
    mark and the like). For such a text no request is ever sent: the
    client returns the empty sequence, fetching suggestions clears the
    suggestions and the status, and the search button only shows the
    hint to write an address, leaving the suggestions and the selection
    as they were. *)
Theorem blank_text_sends_nothing :
  forall s : jsstring,
    (trim s = [] <-> forallb is_white_space s = true)
    /\ (forallb is_white_space s = true ->
        (forall (env : Env) (options : SearchOptions) (w : World),
            run (searchAddress env s options) w = (Ok [], []))
    /\ (forall (env : Env) (provider : option Provider) (P : Platform)
               (during : Component -> Component) (st : Component) (w : World),
           sent (fetchSuggestions env provider P (str s) during st w) = []
           /\ unhandled (fetchSuggestions env provider P (str s) during st w) = None
           /\ suggestions (state (fetchSuggestions env provider P (str s) during st w))
              = []
           /\ status (state (fetchSuggestions env provider P (str s) during st w))
              = None)
    /\ (forall (env : Env) (provider : option Provider) (P : Platform)
               (during : Component -> Component) (st : Component) (w : World),
           query st = str s ->
           sent (handleSearch env provider P during st w) = []
           /\ unhandled (handleSearch env provider P during st w) = None
           /\ view (state (handleSearch env provider P during st w))
              = (query st, suggestions st, selectedResult st,
                 says info write_an_address))).
Proof.
  intros s. split; [apply trim_blank_iff|].
  intros Hs. apply trim_blank_iff in Hs. split; [|split].
  - intros env options w. unfold searchAddress. now rewrite Hs.
  - intros env provider P during st w.
    unfold fetchSuggestions, fetchSuggestions_start, str. rewrite Hs.
    cbn [awaiting_search sent unhandled state]. repeat split.
  - intros env provider P during st w Hq.
    unfold handleSearch, handleSearch_start.
    destruct (abort_search_view st) as [Hv _]. unfold view in Hv.
    injection Hv as H1 H2 H3 H4. rewrite H1, Hq. unfold str. rewrite Hs.
    cbn [awaiting_search sent unhandled state]. repeat split.
    unfold view. cbn. now rewrite H1, H2, H3, Hq.
Qed.

(** ** Invariants of the component *)

Lemma says_nonempty :
  forall (t : StatusType) (a b : jsstring) (m : StatusMessage),
    b <> [] -> says t (or_else a b) = Some m -> text m <> [].
Proof.
  intros t a b m Hb H. injection H as <-. cbn. now apply or_else_nonempty.
Qed.

Lemma status_abort_search :
  forall st, status (abort_search st) = status st.
Proof. intros st. unfold abort_search. now destruct (searchAbortRef st). Qed.

Lemma status_caught :
  forall P fallback e st m,
    fallback <> [] ->
    status (caught P fallback e st) = Some m ->
    status st = Some m \/ text m <> [].
Proof.
  intros P fallback e st m Hf H. unfold caught in H.
  destruct (str_eqb (name e) (u"AbortError")); [now left|].
  right. cbn in H. exact (says_nonempty _ _ _ _ Hf H).
Qed.

Lemma literals_nonempty :
  no_matches <> [] /\ suggestions_failed <> [] /\ write_an_address <> []
  /\ no_results_in_city <> [] /\ search_failed <> [] /\ copied <> []
  /\ copy_failed <> [].
Proof. repeat split; vm_compute; discriminate. Qed.

(** X20. The status message the component shows is never empty,
    whatever the handlers that ran and whatever the outcome of the
    calls they awaited: an error without a message is replaced by the
    fallback text of its handler. *)
Theorem status_text_is_never_empty :
  forall (P : Platform) (st : Component),
    reachable P st ->
    forall m : StatusMessage, status st = Some m -> text m <> [].
Proof.
  intros P st H.
  destruct literals_nonempty as (L1 & L2 & L3 & L4 & L5 & L6 & L7).
  induction H as [a|st H IH|st H IH|st s H IH|st c H IH|st v H IH|st o H IH
                  |st H IH|st o H IH|st o H IH|st st' armed H IH Heff]; intros m Hm.
  - discriminate Hm.
  - exact (IH m Hm).
  - unfold unmount in Hm. rewrite status_abort_search in Hm. exact (IH m Hm).
  - exact (IH m Hm).
  - discriminate Hm.
  - unfold fetchSuggestions_start in Hm.
    destruct v as [[| | |s| |]|]; cbn [state_of] in Hm;
      try (rewrite status_abort_search in Hm; exact (IH m Hm)).
    destruct (trim s); cbn in Hm; [discriminate Hm|].
    rewrite status_abort_search in Hm. exact (IH m Hm).
  - unfold fetchSuggestions_resume in Hm.
    assert (Hin : forall x, status (if mountedRef x
                                    then setIsLoadingSuggestions false x else x)
                            = status x)
      by (intros x; now destruct (mountedRef x)).
    rewrite Hin in Hm. destruct o as [results|e].
    + destruct (negb (mountedRef st)); [exact (IH m Hm)|].
      destruct results; cbn in Hm; [|discriminate Hm].
      injection Hm as <-. exact L1.
    + destruct (status_caught _ _ _ _ _ L2 Hm) as [Hs|Hs]; [exact (IH m Hs)|exact Hs].
  - unfold handleSearch_start in Hm.
    destruct (query (abort_search st)) as [[| | |s| |]|]; cbn [state_of] in Hm;
      try (rewrite status_abort_search in Hm; exact (IH m Hm)).
    destruct (trim s); cbn in Hm.
    + injection Hm as <-. exact L3.
    + rewrite status_abort_search in Hm. exact (IH m Hm).
  - unfold handleSearch_resume in Hm.
    assert (Hin : forall x, status (if mountedRef x then setIsSearching false x else x)
                            = status x)
      by (intros x; now destruct (mountedRef x)).
    rewrite Hin in Hm. destruct o as [results|e].
    + destruct (negb (mountedRef st)); [exact (IH m Hm)|].
      destruct results; cbn in Hm; [|discriminate Hm].
      injection Hm as <-. exact L4.
    + destruct (status_caught _ _ _ _ _ L5 Hm) as [Hs|Hs]; [exact (IH m Hs)|exact Hs].
  - unfold handleCopy_resume in Hm. destruct o as [[]|e]; cbn in Hm.
    + injection Hm as <-. exact L6.
    + exact (says_nonempty _ _ _ _ L7 Hm).
  - unfold query_effect in Heff.
    destruct (query st) as [[| | |s| |]|]; try discriminate Heff.
    destruct (trim s); injection Heff as <- _; [discriminate Hm|exact (IH m Hm)].
Qed.

(** The controllers of a reachable state: the reference holds a
    controller that was created, only created controllers are aborted,
    and every created controller but the one in the reference is
    aborted. *)
Lemma reachable_controllers :
  forall P st,
    reachable P st ->
    (forall c, searchAbortRef st = Some c -> (c < controllers st)%nat)
    /\ (forall c, In c (aborted st) -> (c < controllers st)%nat)
    /\ (forall c, (c < controllers st)%nat ->
                  searchAbortRef st = Some c \/ In c (aborted st)).
Proof.
  intros P st H.
  assert (Habort : forall x,
             (forall c, searchAbortRef x = Some c -> (c < controllers x)%nat)
             /\ (forall c, In c (aborted x) -> (c < controllers x)%nat)
             /\ (forall c, (c < controllers x)%nat ->
                           searchAbortRef x = Some c \/ In c (aborted x)) ->
             (forall c, searchAbortRef (abort_search x) = Some c ->
                        (c < controllers (abort_search x))%nat)
             /\ (forall c, In c (aborted (abort_search x)) ->
                           (c < controllers (abort_search x))%nat)
             /\ (forall c, (c < controllers (abort_search x))%nat ->
                           In c (aborted (abort_search x)))).
  { intros x (I1 & I2 & I3). unfold abort_search.
    destruct (searchAbortRef x) as [c0|] eqn:E; cbn.
    - repeat split.
      + intros c Hc. apply I1. congruence.
      + intros c [<-|Hc]; [now apply I1|now apply I2].
      + intros c Hc. destruct (I3 c Hc) as [Hr|Hin]; [left; congruence|now right].
    - rewrite E. repeat split.
      + intros c Hc. discriminate Hc.
      + exact I2.
      + intros c Hc. destruct (I3 c Hc) as [Hr|Hin]; [discriminate Hr|exact Hin]. }
  assert (Hnew : forall x,
             (forall c, In c (aborted x) -> (c < controllers x)%nat)
             /\ (forall c, (c < controllers x)%nat -> In c (aborted x)) ->
             (forall c, searchAbortRef (new_search_controller x) = Some c ->
                        (c < controllers (new_search_controller x))%nat)
             /\ (forall c, In c (aborted (new_search_controller x)) ->
                           (c < controllers (new_search_controller x))%nat)
             /\ (forall c, (c < controllers (new_search_controller x))%nat ->
                           searchAbortRef (new_search_controller x) = Some c
                           \/ In c (aborted (new_search_controller x)))).
  { intros x (I2 & I3). cbn. repeat split.
    - intros c Hc. injection Hc as <-. lia.
    - intros c Hc. specialize (I2 c Hc). lia.
    - intros c Hc. destruct (Nat.eq_dec c (controllers x)) as [->|Hne];
        [now left|right; apply I3; lia]. }
  assert (Hweak : forall x,
             (forall c, searchAbortRef x = Some c -> (c < controllers x)%nat)
             /\ (forall c, In c (aborted x) -> (c < controllers x)%nat)
             /\ (forall c, (c < controllers x)%nat -> In c (aborted x)) ->
             (forall c, searchAbortRef x = Some c -> (c < controllers x)%nat)
             /\ (forall c, In c (aborted x) -> (c < controllers x)%nat)
             /\ (forall c, (c < controllers x)%nat ->
                           searchAbortRef x = Some c \/ In c (aborted x))).
  { intros x (I1 & I2 & I3). repeat split; auto. }
  induction H as [a|st H IH|st H IH|st s H IH|st c H IH|st v H IH|st o H IH
                  |st H IH|st o H IH|st o H IH|st st' armed H IH Heff].
  - cbn. repeat split; intros c Hc; [discriminate Hc|contradiction|lia].
  - exact IH.
  - unfold unmount. apply Hweak. apply (Habort (set_mountedRef false st)). exact IH.
  - exact IH.
  - exact IH.
  - unfold fetchSuggestions_start.
    destruct v as [[| | |s| |]|]; cbn [state_of];
      try (apply Hweak; apply Habort; exact IH).
    destruct (trim s); cbn [state_of].
    + apply Hweak. apply (Habort st IH).
    + apply (Hnew (abort_search st)). destruct (Habort st IH) as (_ & I2 & I3).
      split; assumption.
  - unfold fetchSuggestions_resume.
    assert (Hsame : forall x : Component,
               (if mountedRef x then setIsLoadingSuggestions false x else x) = x
               \/ (if mountedRef x then setIsLoadingSuggestions false x else x)
                  = setIsLoadingSuggestions false x)
      by (intros x; destruct (mountedRef x); auto).
    destruct o as [results|e].
    + destruct (negb (mountedRef st)).
      * destruct (Hsame st) as [->| ->]; exact IH.
      * destruct results;
          match goal with |- context [if mountedRef ?x then _ else _] =>
            destruct (Hsame x) as [->| ->] end; exact IH.
    + unfold caught. destruct (str_eqb (name e) (u"AbortError"));
        match goal with |- context [if mountedRef ?x then _ else _] =>
          destruct (Hsame x) as [->| ->] end; exact IH.
  - unfold handleSearch_start.
    assert (Hstart : forall x, state_of x = abort_search st -> 
               (forall c, searchAbortRef (state_of x) = Some c ->
                          (c < controllers (state_of x))%nat)
               /\ (forall c, In c (aborted (state_of x)) ->
                             (c < controllers (state_of x))%nat)
               /\ (forall c, (c < controllers (state_of x))%nat ->
                             searchAbortRef (state_of x) = Some c
                             \/ In c (aborted (state_of x))))
      by (intros x ->; apply Hweak; apply (Habort st IH)).
    destruct (query (abort_search st)) as [[| | |s| |]|];
      try (apply Hstart; reflexivity).
    destruct (trim s); cbn [state_of].
    + apply Hweak. apply (Habort st IH).
    + apply (Hnew (abort_search st)). destruct (Habort st IH) as (_ & I2 & I3).
      split; assumption.
  - unfold handleSearch_resume.
    assert (Hsame : forall x : Component,
               (if mountedRef x then setIsSearching false x else x) = x
               \/ (if mountedRef x then setIsSearching false x else x)
                  = setIsSearching false x)
      by (intros x; destruct (mountedRef x); auto).
    destruct o as [results|e].
    + destruct (negb (mountedRef st)).
      * destruct (Hsame st) as [->| ->]; exact IH.
      * destruct results;
          match goal with |- context [if mountedRef ?x then _ else _] =>
            destruct (Hsame x) as [->| ->] end; exact IH.
    + unfold caught. destruct (str_eqb (name e) (u"AbortError"));
        match goal with |- context [if mountedRef ?x then _ else _] =>
          destruct (Hsame x) as [->| ->] end; exact IH.
  - unfold handleCopy_resume. destruct o as [[]|e]; exact IH.
  - unfold query_effect in Heff.
    destruct (query st) as [[| | |s| |]|]; try discriminate Heff.
    destruct (trim s); injection Heff as <- _; exact IH.
Qed.

(** X21. At any moment at most one search is live: of all the abort
    controllers the handlers have created, every one but the one held
    in [searchAbortRef] has been aborted, whatever the order of the
    events and of the completions. *)
Theorem one_live_search :
  forall (P : Platform) (st : Component),
    reachable P st ->
    forall c c' : nat,
      (c < controllers st)%nat -> (c' < controllers st)%nat ->
      ~ In c (aborted st) -> ~ In c' (aborted st) ->
      c = c' /\ searchAbortRef st = Some c.
Proof.
  intros P st H c c' Hc Hc' Hn Hn'.
  destruct (reachable_controllers P st H) as (_ & _ & I3).
  destruct (I3 c Hc) as [E|Hin]; [|contradiction].
  destruct (I3 c' Hc') as [E'|Hin']; [|contradiction].
  split; congruence.
Qed.

(** ** Copying the coordinates *)

Lemma decimal_value_zeros :
  forall k l, decimal_value (zeros k ++ l) = decimal_value l.
Proof.
  induction k as [|k IH]; intros l; [reflexivity|].
  change (zeros (S k) ++ l) with (48%N :: (zeros k ++ l)).
  rewrite decimal_value_cons, IH. simpl (Z.of_N 48). lia.
Qed.

(** X22. [formatCoordinate] on every value. A zero of either sign
    gives "0.000000", with no sign for the negative zero. A finite
    Number [x] other than zero and below [10^21] in magnitude, which
    covers every coordinate, gives the sign, an integer part of at
    least one digit, a point and exactly six digits; the digits read as
    the whole number of millionths nearest to the magnitude of [x], the
    larger one on a tie. Here the magnitude of [x] is [P / Q]. From
    [10^21] on, and for NaN and the infinities, the result is the
    decimal form of the Number, as [String(x)] gives it. A value that
    is not a Number makes the call throw a TypeError. *)
Theorem formatCoordinate_six_decimals :
  (forall s : bool,
      formatCoordinate (Some (JNum (S754_zero s))) = Ok (u"0.000000"))
  /\ (forall (s : bool) (m : positive) (e : Z),
        let P := fst (magnitude m e) in
        let Q := snd (magnitude m e) in
        P < 10 ^ 21 * Q ->
        exists a b : jsstring,
          formatCoordinate (Some (JNum (S754_finite s m e)))
          = Ok ((if s then u"-" else []) ++ a ++ u"." ++ b)
          /\ (1 <= List.length a)%nat
          /\ List.length b = 6%nat
          /\ forallb is_digit (a ++ b) = true
          /\ 2 * P * 10 ^ 6 - Q < 2 * Q * decimal_value (a ++ b)
             <= 2 * P * 10 ^ 6 + Q)
  /\ (forall (s : bool) (m : positive) (e : Z),
        10 ^ 21 * snd (magnitude m e) <= fst (magnitude m e) ->
        formatCoordinate (Some (JNum (S754_finite s m e)))
        = Ok (NumberToString (S754_finite s m e)))
  /\ formatCoordinate (Some (JNum S754_nan)) = Ok (u"NaN")
  /\ formatCoordinate (Some (JNum (S754_infinity false))) = Ok (u"Infinity")
  /\ formatCoordinate (Some (JNum (S754_infinity true))) = Ok (u"-Infinity")
  /\ (forall v : value,
        (forall x : number, v <> Some (JNum x)) ->
        formatCoordinate v = Throw TypeError).
Proof.
  split; [|split; [|split; [|split; [|split; [|split]]]]].
  - intros [|]; vm_compute; reflexivity.
  - intros s m e P Q H.
    pose proof (fixed_integer_nearest m e 6 ltac:(lia)) as Hn. cbv zeta in Hn.
    fold P Q in Hn.
    destruct (magnitude_positive m e) as [HP HQ]. fold P Q in HP, HQ.
    set (n := fixed_integer m e 6) in *.
    assert (H0 : 0 <= n) by nia.
    destruct (fixed_layout_six n) as (a & b & Hl & Ha & Hb & Hab).
    exists a, b. repeat split; auto.
    + unfold formatCoordinate. rewrite (toFixed_six s m e H). fold n.
      now rewrite Hl.
    + rewrite Hab, forallb_app, zeros_digits, decimal_digits. reflexivity.
    + rewrite Hab, decimal_value_zeros, decimal_value_decimal, Z2N.id by exact H0.
      lia.
    + rewrite Hab, decimal_value_zeros, decimal_value_decimal, Z2N.id by exact H0.
      lia.
  - intros s m e H. unfold formatCoordinate, toFixed.
    destruct (magnitude m e) as [P Q]. cbn [fst snd] in H.
    apply Z.leb_le in H. rewrite H. reflexivity.
  - reflexivity.
  - reflexivity.
  - reflexivity.
  - intros [[| |x| | |]|] H; try reflexivity. exfalso. exact (H x eq_refl).
Qed.

Lemma handleCopy_numbers :
  forall P during st c x y writeText,
    selectedResult st = Some c ->
    lat c = Some (JNum x) -> lng c = Some (JNum y) ->
    clipboard P = Some writeText ->
    uncaught (handleCopy P during st) = None
    /\ written (handleCopy P during st) = Some (toFixed x 6 ++ u"," ++ toFixed y 6).
Proof.
  intros P during st c x y writeText Hsel Hx Hy Hc.
  unfold handleCopy, handleCopy_start. rewrite Hsel, Hx, Hy.
  cbn [formatCoordinate rbind]. rewrite Hc. split; reflexivity.
Qed.

(** X23. Copying the coordinates of a selected candidate that a
    free-provider search returned never throws: the latitude and the
    longitude are Numbers, and the text handed to the clipboard is the
    two of them with six decimals, separated by a comma without a
    space. *)
Theorem copy_of_a_free_provider_candidate :
  forall (env : Env) (w : World) (s : jsstring) (options : SearchOptions)
         (cs : list GeocodeResult) (log : list request) (c : GeocodeResult)
         (P : Platform) (writeText : jsstring -> settled unit)
         (during : Component -> Component) (st : Component),
    resolveProvider env (opt_provider options) = nominatim ->
    run (searchAddress env s options) w = (Ok cs, log) ->
    In c cs ->
    selectedResult st = Some c ->
    clipboard P = Some writeText ->
    exists x y : number,
      lat c = Some (JNum x) /\ lng c = Some (JNum y)
      /\ uncaught (handleCopy P during st) = None
      /\ written (handleCopy P during st)
         = Some (toFixed x 6 ++ u"," ++ toFixed y 6).
Proof.
  intros env w s options cs log c P writeText during st Hp Hrun Hin Hsel Hc.
  pose proof (nominatim_search_numbers _ _ _ _ _ _ Hp Hrun) as Hall.
  rewrite Forall_forall in Hall.
  destruct (Hall c Hin) as (x & y & Hx & Hy).
  exists x, y. split; [exact Hx|]. split; [exact Hy|].
  exact (handleCopy_numbers _ _ _ _ _ _ _ Hsel Hx Hy Hc).
Qed.

(** ** The loading flag *)

(** X24. The loading flag does not follow the live search. When a
    second fetch of suggestions starts while a first one is pending, it
    aborts the first; when the rejection of the first arrives, its
    [finally] clause clears the flag although the second fetch, whose
    controller is still the one in [searchAbortRef] and is not aborted,
    has not settled. *)
Theorem superseded_fetch_clears_loading_flag :
  forall (P : Platform) (st : Component) (s1 s2 : jsstring),
    reachable P st ->
    mountedRef st = true ->
    trim s1 <> [] ->
    trim s2 <> [] ->
    let st1 := state_of (fetchSuggestions_start (str s1) st) in
    let st2 := state_of (fetchSuggestions_start (str s2) st1) in
    let st3 := fetchSuggestions_resume P (Throw (Rejection (u"AbortError"))) st2 in
    searchAbortRef st1 = Some (controllers st)
    /\ In (controllers st) (aborted st2)
    /\ isLoadingSuggestions st2 = true
    /\ searchAbortRef st3 = Some (S (controllers st))
    /\ ~ In (S (controllers st)) (aborted st3)
    /\ isLoadingSuggestions st3 = false.
Proof.
  intros P st s1 s2 Hr Hm H1 H2 st1 st2 st3.
  destruct (reachable_controllers P st Hr) as (_ & I2 & _).
  assert (Hmount : mountedRef (abort_search st) = true)
    by (destruct (abort_search_view st) as [_ ->]; exact Hm).
  assert (Hctl : controllers (abort_search st) = controllers st)
    by (unfold abort_search; now destruct (searchAbortRef st)).
  assert (Hab : forall c, In c (aborted (abort_search st)) -> (c < controllers st)%nat).
  { intros c. unfold abort_search.
    destruct (searchAbortRef st) as [c0|] eqn:E; cbn; [|apply I2].
    intros [<-|Hc]; [|now apply I2].
    destruct (reachable_controllers P st Hr) as (I1 & _ & _). now apply I1. }
  subst st3 st2 st1.
  rewrite (fetchSuggestions_start_awaits st s1 H1). cbn [state_of].
  rewrite (fetchSuggestions_start_awaits _ s2 H2). cbn [state_of].
  unfold fetchSuggestions_resume. rewrite caught_abort.
  unfold abort_search at 1 2 3 4 5. cbn. rewrite Hctl, Hmount. cbn.
  repeat split; auto.
  intros [Hf|Hf]; [lia|]. specialize (Hab _ Hf). lia.
Qed.

(** ** Instances of the properties of the component *)

Lemma handlers_report_missing_credential_witness :
  sent (handleSearch env_none None browser (fun st => st) (typing (u"Cra 7 # 72-41"))
                     (rejecting (u"TypeError"))) = []
  /\ exists m : jsstring,
       configuration_error nominatim = Error m
       /\ status (state (handleSearch env_none None browser (fun st => st)
                                      (typing (u"Cra 7 # 72-41"))
                                      (rejecting (u"TypeError"))))
          = says error m.
Proof.
  destruct (handlers_report_missing_credential
              env_none None browser (fun st => st) (typing (u"Cra 7 # 72-41"))
              (rejecting (u"TypeError")) (u"Cra 7 # 72-41")) as [_ Hsearch].
  - vm_compute; discriminate.
  - reflexivity.
  - destruct (Hsearch eq_refl) as (Hsent & _ & m & Hm & Hview).
    split; [exact Hsent|]. exists m. split; [exact Hm|].
    exact (f_equal snd Hview).
Defined.

Lemma aborted_search_is_silent_witness :
  view (state (fetchSuggestions env_email None browser (str (u"Cra 7 # 72-41"))
                                (fun st => st) (typing (u"Cra 7"))
                                (rejecting (u"AbortError"))))
  = view (typing (u"Cra 7")).
Proof.
  destruct (aborted_search_is_silent
              env_email None browser (fun st => st) (typing (u"Cra 7"))
              (rejecting (u"AbortError")) (u"Cra 7 # 72-41"))
    as [(_ & Hview & Hstart) _].
  - vm_compute; discriminate.
  - vm_compute; reflexivity.
  - rewrite Hview. exact Hstart.
Defined.

Lemma search_button_selects_first_item_witness :
  query (state (handleSearch env_email None browser (fun st => st)
                             (typing (u"Cra 7 # 72-41"))
                             (always (json_response 200 (JArr street)))))
  = str (u"Cra. 7 #72-41")
  /\ List.length
       (suggestions (state (handleSearch env_email None browser (fun st => st)
                                         (typing (u"Cra 7 # 72-41"))
                                         (always (json_response 200 (JArr street))))))
     = 2%nat.
Proof.
  edestruct search_button_selects_first_item
    with (env := env_email) (provider := @None Provider) (P := browser)
         (during := fun st : Component => st) (st := typing (u"Cra 7 # 72-41"))
         (w := always (json_response 200 (JArr street))) (s := u"Cra 7 # 72-41")
         (r := json_response 200 (JArr street))
         (item := place (Some (JNum (of_Z 101))) (u"Cra. 7 #72-41") (u"4.6571")
                        (u"-74.0577"))
         (items := [place (Some (JNum (of_Z 102))) (u"Cra. 7 #72-45") (u"4.6572")
                          (u"-74.0577")])
    as (_ & first & _ & _ & _ & Hname & Hsug & Hlen & _).
  - reflexivity.
  - vm_compute; discriminate.
  - reflexivity.
  - vm_compute; reflexivity.
  - reflexivity.
  - reflexivity.
  - reflexivity.
  - vm_compute; reflexivity.
  - reflexivity.
  - split.
    + assert (Hinj : forall a b : value, Ok a = Ok b -> a = b)
        by (intros a b Hab; now injection Hab).
      apply Hinj. rewrite <- Hname. vm_compute; reflexivity.
    + rewrite Hsug. exact Hlen.
Defined.

Lemma search_button_after_unlabelled_selection_witness :
  unhandled (handleSearch env_email None browser (fun st => st)
                          (handleSuggestionClick unlabelled (typing (u"Cra 7")))
                          (always (json_response 200 (JArr street))))
  = Some TypeError.
Proof.
  destruct (search_button_after_unlabelled_selection
              env_email None browser (fun st => st) (typing (u"Cra 7"))
              (always (json_response 200 (JArr street))) unlabelled)
    as (_ & _ & Hthrown & _).
  - intros s H. discriminate H.
  - exact Hthrown.
Defined.

Lemma status_text_is_never_empty_witness :
  status (Component.handleSearch_resume browser (Throw (Error []))
                                        (typing (u"Cra 7")))
  = says error search_failed
  /\ text {| type := error; text := search_failed |} <> [].
Proof.
  assert (Hs : status (Component.handleSearch_resume browser (Throw (Error []))
                                                     (typing (u"Cra 7")))
               = says error search_failed) by (vm_compute; reflexivity).
  split; [exact Hs|].
  apply (status_text_is_never_empty
           browser
           (Component.handleSearch_resume browser (Throw (Error []))
                                          (typing (u"Cra 7")))).
  - apply Component.reach_searched, Component.reach_change, Component.reach_mount,
      Component.reach_initial.
  - exact Hs.
Defined.

Lemma one_live_search_witness :
  searchAbortRef
    (state_of (fetchSuggestions_start
                 (str (u"Cra 7 #"))
                 (state_of (fetchSuggestions_start (str (u"Cra 7"))
                                                   (typing (u"Cra 7"))))))
  = Some 1%nat.
Proof.
  apply (one_live_search
           browser
           (state_of (fetchSuggestions_start
                        (str (u"Cra 7 #"))
                        (state_of (fetchSuggestions_start (str (u"Cra 7"))
                                                          (typing (u"Cra 7"))))))
           (Component.reach_suggest _ _ _
              (Component.reach_suggest _ _ _
                 (Component.reach_change _ _ _
                    (Component.reach_mount _ _ (Component.reach_initial _ None)))))
           1%nat 1%nat).
  - vm_compute; lia.
  - vm_compute; lia.
  - vm_compute. intros [H|[]]. discriminate H.
  - vm_compute. intros [H|[]]. discriminate H.
Defined.

Lemma formatCoordinate_six_decimals_witness :
  (exists a b : jsstring,
      formatCoordinate (Some (JNum (S754_finite false 5233858306948622 (-50))))
      = Ok ([] ++ a ++ u"." ++ b)
      /\ List.length b = 6%nat)
  /\ formatCoordinate (Some (JNum (S754_zero true))) = Ok (u"0.000000")
  /\ formatCoordinate (Some (JStr (u"4.6486"))) = Throw TypeError.
Proof.
  destruct formatCoordinate_six_decimals
    as (zero & finite & _ & _ & _ & _ & other).
  split; [|split].
  - destruct (finite false 5233858306948622%positive (-50))
      as (a & b & Hf & _ & Hb & _).
    + vm_compute; reflexivity.
    + exists a, b. split; [exact Hf|exact Hb].
  - exact (zero true).
  - apply other. intros x H. discriminate H.
Defined.

Lemma copy_of_a_free_provider_candidate_witness :
  exists (c : GeocodeResult) (cs : list GeocodeResult) (log : list request),
    run (searchAddress env_email (u"Cra 7 # 72-41") no_options)
        (always (json_response 200 (JArr street))) = (Ok cs, log)
    /\ In c cs
    /\ exists x y : number,
         lat c = Some (JNum x) /\ lng c = Some (JNum y)
         /\ uncaught (handleCopy browser (fun st => st)
                                 (setSelectedResult (Some c) (typing (u"Cra 7 # 72-41"))))
            = None
         /\ written (handleCopy browser (fun st => st)
                                (setSelectedResult (Some c) (typing (u"Cra 7 # 72-41"))))
            = Some (toFixed x 6 ++ u"," ++ toFixed y 6).
Proof.
  do 3 eexists. split; [vm_compute; reflexivity|]. split; [left; reflexivity|].
  eapply (copy_of_a_free_provider_candidate
            env_email (always (json_response 200 (JArr street)))
            (u"Cra 7 # 72-41") no_options).
  - reflexivity.
  - vm_compute; reflexivity.
  - left; reflexivity.
  - reflexivity.
  - reflexivity.
Defined.

Lemma superseded_fetch_clears_loading_flag_witness :
  isLoadingSuggestions
    (fetchSuggestions_resume
       browser (Throw (Rejection (u"AbortError")))
       (state_of (fetchSuggestions_start
                    (str (u"Cra 7 #"))
                    (state_of (fetchSuggestions_start (str (u"Cra 7"))
                                                      (typing (u"Cra 7")))))))
  = false
  /\ searchAbortRef
       (fetchSuggestions_resume
          browser (Throw (Rejection (u"AbortError")))
          (state_of (fetchSuggestions_start
                       (str (u"Cra 7 #"))
                       (state_of (fetchSuggestions_start (str (u"Cra 7"))
                                                         (typing (u"Cra 7")))))))
     = Some 1%nat.
Proof.
  destruct (superseded_fetch_clears_loading_flag
              browser (typing (u"Cra 7")) (u"Cra 7") (u"Cra 7 #"))
    as (_ & _ & _ & Href & _ & Hload).
  - apply Component.reach_change, Component.reach_mount, Component.reach_initial.
  - reflexivity.
  - vm_compute; discriminate.
  - vm_compute; discriminate.
  - split; [exact Hload|exact Href].
Defined.

Lemma blank_text_sends_nothing_witness :
  trim blank = []
  /\ sent (handleSearch env_email None browser (fun st => st) (typing blank)
                        (always (json_response 200 (JArr street)))) = [].
Proof.
  destruct (blank_text_sends_nothing blank) as (Htrim & Hblank).
  split; [apply Htrim; reflexivity|].
  destruct (Hblank eq_refl) as (_ & _ & Hsearch).
  destruct (Hsearch env_email None browser (fun st => st) (typing blank)
                    (always (json_response 200 (JArr street))))
    as (Hsent & _).
  - reflexivity.
  - exact Hsent.
Defined.

